(** * GorillaFlix: the storage layer and the HTTP route handlers

    A shallow embedding of [server/storage.ts] (class [DatabaseStorage]),
    [server/routes.ts] ([registerRoutes]), [shared/schema.ts] and
    [getRelatedVideos] of [client/src/lib/video-utils.ts], and the
    properties of the like / dislike / watchlist bookkeeping, of the
    moderation routes, of catalog search and of failure handling; then of
    the routes as a whole: sessions, the tables and files each route can
    touch, uploads, comments, users and their profiles, listings.

    The relational store is a record of tables (lists of rows, in insertion
    order) and of the sequences behind the [serial] columns.  Requests run
    one at a time.  A statement sent to the database either fails and
    leaves every table as it was, or succeeds.  It fails when the server
    rejects it (a parameter that is not a 32-bit integer, a key that is
    taken, a counter that leaves the 32-bit range) or for an external
    reason such as a lost connection; which statements fail for an
    external reason is decided by a script carried by the world, one
    boolean per statement, [true] meaning "this one fails".

    Strings are sequences of bytes and letters are the ASCII letters;
    timestamps are integers read from a clock; a file is named by its path
    below the working directory, as written. *)

From stdpp Require Import base tactics option list sorting strings gmap.
From Stdlib Require Import ZArith Lia Ascii String.

Local Open Scope string_scope.
Local Open Scope Z_scope.

#[local] Set Warnings "-clear-no-such-hyp".

(** ** JavaScript values at the boundary *)

(** A JavaScript number as the handlers meet it: the result of [parseInt]
    (an integer or [NaN]) or an integer column read from the database. *)
Inductive num := NaN | Int (z : Z).

#[global] Instance num_eq_dec : EqDecision num.
Proof. solve_decision. Defined.

(** [isNaN(x)] *)
Definition isNaN (x : num) : bool :=
  match x with NaN => true | Int _ => false end.

(** [x === y] on numbers: [NaN] equals nothing, not even itself. *)
Definition num_eqb (x y : num) : bool :=
  match x, y with
  | Int a, Int b => bool_decide (a = b)
  | _, _ => false
  end.

(** A property of a request body or of a parsed object: absent, [null], a
    string, or a value of another type. *)
Inductive field := Undefined | Null | Str (s : string) | Other.

(** An optional, nullable column value in an insert or update object. *)
Inductive nullish (A : Type) := Absent | IsNull | Val (a : A).
Arguments Absent {A}.
Arguments IsNull {A}.
Arguments Val {A} a.

(** Truthiness of a string: [if (s)] holds unless [s] is empty. *)
Definition truthy (s : string) : bool :=
  match s with EmptyString => false | _ => true end.

(** ** Errors and the world monad *)

Inductive Error :=
| DbError (reason : string)   (* the database driver rejected a statement *)
| FsError                     (* a file-system call failed *)
| JsError (reason : string).  (* an exception raised by JavaScript code *)

Inductive Res (A : Type) := Ok (a : A) | Throw (e : Error).
Arguments Ok {A} a.
Arguments Throw {A} e.

#[global] Instance Res_ret : MRet Res := fun _ a => Ok a.
#[global] Instance Res_bind : MBind Res := fun _ _ f r =>
  match r with Ok a => f a | Throw e => Throw e end.

(** ** The 32-bit integers of PostgreSQL *)

Definition int4_min : Z := - 2 ^ 31.
Definition int4_max : Z := 2 ^ 31 - 1.

Definition in_int4 (z : Z) : bool := (int4_min <=? z) && (z <=? int4_max).

(** A number bound to an [integer] parameter: [NaN] and values outside the
    32-bit range are rejected by the server. *)
Definition int4_param (x : num) : Res Z :=
  match x with
  | NaN => Throw (DbError "invalid input syntax for type integer")
  | Int z => if in_int4 z then Ok z else Throw (DbError "integer out of range")
  end.

(** [col + d] in SQL on a nullable [integer] column: [NULL] stays [NULL],
    and leaving the 32-bit range is an error. *)
Definition int4_add (col : option Z) (d : Z) : Res (option Z) :=
  match col with
  | None => Ok None
  | Some n => if in_int4 (n + d) then Ok (Some (n + d))
              else Throw (DbError "integer out of range")
  end.

(** ** The schema ([shared/schema.ts])

    One record per table row.  A [serial] or [notNull] column has a plain
    type, any other column is nullable.  Timestamps are integers. *)

Module User.
Record t := mk {
    id : Z;
    username : string;
    password : string;
    avatar : option string;
    bio : option string;
    createdAt : option Z }.
End User.

Module Video.
Record t := mk {
    id : Z;
    title : string;
    description : option string;
    thumbnail : string;
    videoUrl : string;
    category : string;
    userId : Z;
    views : option Z;
    likes : option Z;
    dislikes : option Z;
    createdAt : option Z;
    featured : option bool }.
End Video.

Module Watchlist.
Record t := mk {
    id : Z;
    userId : Z;
    videoId : Z;
    addedAt : option Z }.
End Watchlist.

(** A row of [likes]; the primary key is the pair (userId, videoId). *)
Module Like.
Record t := mk {
    userId : Z;
    videoId : Z;
    createdAt : option Z }.
End Like.

(** A row of [dislikes]; same primary key. *)
Module Dislike.
Record t := mk {
    userId : Z;
    videoId : Z;
    createdAt : option Z }.
End Dislike.

Module Comment.
Record t := mk {
    id : Z;
    content : string;
    userId : Z;
    videoId : Z;
    createdAt : option Z }.
End Comment.

#[global] Instance user_eq_dec : EqDecision User.t.
Proof. solve_decision. Defined.
#[global] Instance video_eq_dec : EqDecision Video.t.
Proof. solve_decision. Defined.
#[global] Instance watchlist_eq_dec : EqDecision Watchlist.t.
Proof. solve_decision. Defined.
#[global] Instance like_eq_dec : EqDecision Like.t.
Proof. solve_decision. Defined.
#[global] Instance dislike_eq_dec : EqDecision Dislike.t.
Proof. solve_decision. Defined.
#[global] Instance comment_eq_dec : EqDecision Comment.t.
Proof. solve_decision. Defined.

(** The objects accepted by the insert and update schemas. *)

(** [InsertUser]: username, password, avatar. *)
Module InsertUser.
Record t := mk {
    username : string;
    password : string;
    avatar : nullish string }.
End InsertUser.

(** The object handed to [updateUser].  [UpdateUser] has username, avatar
    and bio; the profile route passes the request body as it is, so the
    password column can be present as well. *)
Module UpdateUser.
Record t := mk {
    username : nullish string;
    password : nullish string;
    avatar : nullish (option string);
    bio : nullish (option string) }.
End UpdateUser.

(** [InsertVideo]: title, description, thumbnail, videoUrl, category,
    userId, featured. *)
Module InsertVideo.
Record t := mk {
    title : string;
    description : nullish string;
    thumbnail : string;
    videoUrl : string;
    category : string;
    userId : Z;
    featured : nullish bool }.
End InsertVideo.

(** [UpdateVideo]: title, description, thumbnail, category, featured. *)
Module UpdateVideo.
Record t := mk {
    title : string;
    description : nullish string;
    thumbnail : string;
    category : string;
    featured : nullish bool }.
End UpdateVideo.

(** [InsertWatchlist]: userId, videoId. *)
Module InsertWatchlist.
Record t := mk { userId : num; videoId : num }.
End InsertWatchlist.

(** [InsertComment]: content, userId, videoId. *)
Module InsertComment.
Record t := mk { content : string; userId : num; videoId : num }.
End InsertComment.

(** [UpdateComment]: content. *)
Module UpdateComment.
Record t := mk { content : string }.
End UpdateComment.

(** ** The database and the world *)

Record Database := mkDatabase {
  users : list User.t;
  videos : list Video.t;
  watchlist : list Watchlist.t;
  likes : list Like.t;
  dislikes : list Dislike.t;
  comments : list Comment.t;
  (* next values of the sequences behind the serial columns *)
  users_id_seq : Z;
  videos_id_seq : Z;
  watchlist_id_seq : Z;
  comments_id_seq : Z }.

(** The world a request runs in: the database, the files under the working
    directory, the time [now()] returns, and the failure script.  The last
    field is not part of the program: it counts the exceptions raised so
    far, so that "something threw" can be said of a run. *)
Record World := mkWorld {
  db : Database;
  disk : gset string;
  clock : Z;
  script : list bool;
  raised : nat }.

Definition set_db (d : Database) (w : World) : World :=
  mkWorld d (disk w) (clock w) (script w) (raised w).
Definition set_disk (fs : gset string) (w : World) : World :=
  mkWorld (db w) fs (clock w) (script w) (raised w).
Definition set_script (s : list bool) (w : World) : World :=
  mkWorld (db w) (disk w) (clock w) s (raised w).
Definition set_raised (n : nat) (w : World) : World :=
  mkWorld (db w) (disk w) (clock w) (script w) n.

Definition set_users x (d : Database) : Database :=
  mkDatabase x (videos d) (watchlist d) (likes d) (dislikes d) (comments d)
    (users_id_seq d) (videos_id_seq d) (watchlist_id_seq d) (comments_id_seq d).
Definition set_videos x (d : Database) : Database :=
  mkDatabase (users d) x (watchlist d) (likes d) (dislikes d) (comments d)
    (users_id_seq d) (videos_id_seq d) (watchlist_id_seq d) (comments_id_seq d).
Definition set_watchlist x (d : Database) : Database :=
  mkDatabase (users d) (videos d) x (likes d) (dislikes d) (comments d)
    (users_id_seq d) (videos_id_seq d) (watchlist_id_seq d) (comments_id_seq d).
Definition set_likes x (d : Database) : Database :=
  mkDatabase (users d) (videos d) (watchlist d) x (dislikes d) (comments d)
    (users_id_seq d) (videos_id_seq d) (watchlist_id_seq d) (comments_id_seq d).
Definition set_dislikes x (d : Database) : Database :=
  mkDatabase (users d) (videos d) (watchlist d) (likes d) x (comments d)
    (users_id_seq d) (videos_id_seq d) (watchlist_id_seq d) (comments_id_seq d).
Definition set_comments x (d : Database) : Database :=
  mkDatabase (users d) (videos d) (watchlist d) (likes d) (dislikes d) x
    (users_id_seq d) (videos_id_seq d) (watchlist_id_seq d) (comments_id_seq d).
Definition set_users_id_seq x (d : Database) : Database :=
  mkDatabase (users d) (videos d) (watchlist d) (likes d) (dislikes d) (comments d)
    x (videos_id_seq d) (watchlist_id_seq d) (comments_id_seq d).
Definition set_videos_id_seq x (d : Database) : Database :=
  mkDatabase (users d) (videos d) (watchlist d) (likes d) (dislikes d) (comments d)
    (users_id_seq d) x (watchlist_id_seq d) (comments_id_seq d).
Definition set_watchlist_id_seq x (d : Database) : Database :=
  mkDatabase (users d) (videos d) (watchlist d) (likes d) (dislikes d) (comments d)
    (users_id_seq d) (videos_id_seq d) x (comments_id_seq d).
Definition set_comments_id_seq x (d : Database) : Database :=
  mkDatabase (users d) (videos d) (watchlist d) (likes d) (dislikes d) (comments d)
    (users_id_seq d) (videos_id_seq d) (watchlist_id_seq d) x.

(** The database before anything was stored: empty tables, sequences at 1. *)
Definition empty_db : Database := mkDatabase [] [] [] [] [] [] 1 1 1 1.

(** A computation that talks to the database and the file system: it reads
    and changes the world, and returns a value or throws. *)
Definition M (A : Type) : Type := World -> Res A * World.

#[global] Instance M_ret : MRet M := fun _ a w => (Ok a, w).
#[global] Instance M_bind : MBind M := fun _ _ f m w =>
  match m w with
  | (Ok a, w') => f a w'
  | (Throw e, w') => (Throw e, w')
  end.

(** [throw e]: the exception is counted. *)
Definition throw {A} (e : Error) : M A := fun w =>
  (Throw e, set_raised (S (raised w)) w).

(** [try { body } catch (error) { handler }] *)
Definition try_catch {A} (body : M A) (handler : Error -> M A) : M A := fun w =>
  match body w with
  | (Ok a, w') => (Ok a, w')
  | (Throw e, w') => handler e w'
  end.

(** The outcome of a statement or of a system call reaches the program:
    an error is thrown there. *)
Definition surface {A} (r : Res A) : M A :=
  match r with
  | Ok a => mret a
  | Throw e => throw e
  end.

(** The next entry of the failure script decides whether the statement
    about to be sent fails for an external reason.  An exhausted script
    means no further failures. *)
Definition attempt (e : Error) : M unit := fun w =>
  surface (if hd false (script w) then Throw e else Ok ())
    (set_script (tail (script w)) w).

(** One SQL statement.  [stmt now d] is what the server does with it on
    database [d] at time [now]: a result or an error, and the database
    afterwards.  A statement that fails leaves every table as it was. *)
Definition sql {A} (stmt : Z -> Database -> Res A * Database) : M A :=
  attempt (DbError "connection failure") ≫= fun _ =>
  (fun w => let '(r, d) := stmt (clock w) (db w) in surface r (set_db d w)) : M A.

(** A statement that only reads. *)
Definition select {A} (q : Database -> Res A) : M A :=
  sql (fun _ d => (q d, d)).

(** What a rollback restores: every table; sequences are not transactional. *)
Definition restore (saved current : Database) : Database :=
  mkDatabase (users saved) (videos saved) (watchlist saved) (likes saved)
    (dislikes saved) (comments saved)
    (users_id_seq current) (videos_id_seq current)
    (watchlist_id_seq current) (comments_id_seq current).

(** [db.transaction(async (tx) => body)]: [begin], the body, then [commit];
    if the body or the commit throws, [rollback] is sent and the error is
    thrown again.  However the rollback statement fares, the server
    discards the changes of the transaction. *)
Definition transaction {A} (body : M A) : M A := fun w =>
  match attempt (DbError "connection failure") w with
  | (Throw e, w1) => (Throw e, w1)
  | (Ok _, w1) =>
      let undo (e : Error) (w2 : World) : Res A * World :=
        match attempt (DbError "connection failure") w2 with
        | (Ok _, w3) => (Throw e, set_db (restore (db w1) (db w3)) w3)
        | (Throw e', w3) => (Throw e', set_db (restore (db w1) (db w3)) w3)
        end in
      match body w1 with
      | (Throw e, w2) => undo e w2
      | (Ok a, w2) =>
          match attempt (DbError "connection failure") w2 with
          | (Ok _, w3) => (Ok a, w3)
          | (Throw e, w3) => undo e w3
          end
      end
  end.

(** ** File system calls used by the routes *)

(** [fs.existsSync(p)]: never throws. *)
Definition existsSync (p : string) : M bool := fun w =>
  (Ok (bool_decide (p ∈ disk w)), w).

(** [fs.unlinkSync(p)]: removes the file, or throws. *)
Definition unlinkSync (p : string) : M unit :=
  attempt FsError ≫= fun _ =>
  (fun w => if bool_decide (p ∈ disk w)
            then (Ok (), set_disk (disk w ∖ {[p]}) w)
            else throw FsError w) : M unit.

(** [s.replace(/^\/uploads/, 'uploads')]: drops the leading slash of a
    leading "/uploads". *)
Definition replace_uploads (s : string) : string :=
  if String.prefix "/uploads" s
  then String.substring 1 (String.length s - 1)%nat s
  else s.

(** [path.join(process.cwd(), rel)]: files are named by their path below
    the working directory. *)
Definition path_join_cwd (rel : string) : string := rel.

(** ** Helpers for statements *)

(** [nullish] values written to a nullable column without a default. *)
Definition or_null {A} (x : nullish A) : option A :=
  match x with Val a => Some a | _ => None end.

(** [nullish] values written to a nullable column with default [dflt]. *)
Definition or_default {A} (dflt : A) (x : nullish A) : option A :=
  match x with Absent => Some dflt | IsNull => None | Val a => Some a end.

(** [set({ col: x })] on a nullable column: an absent key keeps the value. *)
Definition or_keep {A} (old : option A) (x : nullish A) : option A :=
  match x with Absent => old | IsNull => None | Val a => Some a end.

(** [set({ col: x })] when [x] itself is nullable. *)
Definition or_keep_opt {A} (old : option A) (x : nullish (option A)) : option A :=
  match x with Absent => old | IsNull => None | Val a => a end.

Definition is_absent {A} (x : nullish A) : bool :=
  match x with Absent => true | _ => false end.

(** [UPDATE t SET ... WHERE p]: [change] is applied to every row matching
    [p]; if it fails on one row the statement fails. *)
Fixpoint update_where {A} (p : A -> bool) (change : A -> Res A) (rows : list A)
  : Res (list A) :=
  match rows with
  | [] => Ok []
  | r :: rest =>
      r' ← (if p r then change r else Ok r);
      rest' ← update_where p change rest;
      mret (r' :: rest')
  end.

(** [ORDER BY key DESC]: rows with a [NULL] key come first; rows with equal
    keys stay in table order. *)
Definition desc_le (a b : option Z) : bool :=
  match a, b with
  | None, _ => true
  | Some _, None => false
  | Some x, Some y => y <=? x
  end.

Fixpoint insert_desc {A} (key : A -> option Z) (x : A) (sorted : list A) : list A :=
  match sorted with
  | [] => [x]
  | y :: rest =>
      if desc_le (key x) (key y) then x :: y :: rest
      else y :: insert_desc key x rest
  end.

Definition order_by_desc {A} (key : A -> option Z) (rows : list A) : list A :=
  foldr (insert_desc key) [] rows.

(** [LIMIT n]: [n] must be a non-negative 64-bit integer. *)
Definition limit_rows {A} (n : num) (rows : list A) : Res (list A) :=
  match n with
  | NaN => Throw (DbError "invalid input syntax for type bigint")
  | Int z =>
      if z <? 0 then Throw (DbError "LIMIT must not be negative")
      else if 2 ^ 63 <=? z then Throw (DbError "bigint out of range")
      else Ok (take (Z.to_nat z) rows)
  end.

(** ** [DatabaseStorage]: user operations *)

Definition getUser (id : num) : M (option User.t) :=
  result ← select (fun d =>
    i ← int4_param id;
    mret (filter (λ u, User.id u = i) (users d)));
  mret (head result).

Definition getUserByUsername (username : string) : M (option User.t) :=
  result ← select (fun d =>
    mret (filter (λ u, User.username u = username) (users d)));
  mret (head result).

(** [INSERT INTO users ... RETURNING *].  The id comes from the sequence,
    which advances even when a constraint then rejects the row. *)
Definition insert_user (user : InsertUser.t) (now : Z) (d : Database)
  : Res (list User.t) * Database :=
  let id := users_id_seq d in
  if negb (in_int4 id) then (Throw (DbError "sequence exhausted"), d) else
  let d1 := set_users_id_seq (id + 1) d in
  let row := User.mk id (InsertUser.username user) (InsertUser.password user)
               (or_null (InsertUser.avatar user)) None (Some now) in
  if bool_decide (Exists (λ u, User.id u = id) (users d))
  then (Throw (DbError "duplicate key: users_pkey"), d1)
  else if bool_decide (Exists (λ u, User.username u = InsertUser.username user) (users d))
  then (Throw (DbError "duplicate key: users_username_unique"), d1)
  else (Ok [row], set_users (users d ++ [row]) d1).

Definition createUser (user : InsertUser.t) : M (option User.t) :=
  result ← sql (insert_user user);
  mret (head result).

(** The new values of one [users] row; a [NOT NULL] column set to [null]
    is an error. *)
Definition change_user (updates : UpdateUser.t) (u : User.t) : Res User.t :=
  name ← match UpdateUser.username updates with
         | Absent => Ok (User.username u)
         | IsNull => Throw (DbError "null value in column username")
         | Val s => Ok s
         end;
  pass ← match UpdateUser.password updates with
         | Absent => Ok (User.password u)
         | IsNull => Throw (DbError "null value in column password")
         | Val s => Ok s
         end;
  mret (User.mk (User.id u) name pass
          (or_keep_opt (User.avatar u) (UpdateUser.avatar updates))
          (or_keep_opt (User.bio u) (UpdateUser.bio updates))
          (User.createdAt u)).

(** Whether two rows of the list carry the same username. *)
Fixpoint username_clash (rows : list User.t) : bool :=
  match rows with
  | [] => false
  | u :: rest =>
      bool_decide (Exists (λ u', User.username u' = User.username u) rest)
      || username_clash rest
  end.

Definition update_user (id : num) (updates : UpdateUser.t) (d : Database)
  : Res (list User.t) * Database :=
  match (i ← int4_param id;
         rows ← update_where (λ u, bool_decide (User.id u = i))
                  (change_user updates) (users d);
         if username_clash rows && negb (username_clash (users d))
         then Throw (DbError "duplicate key: users_username_unique")
         else Ok (i, rows)) with
  | Ok (i, rows) =>
      (Ok (filter (λ u, User.id u = i) rows), set_users rows d)
  | Throw e => (Throw e, d)
  end.

(** [db.update(users).set(updates)] refuses an object without any value
    before a statement is sent. *)
Definition updateUser (id : num) (updates : UpdateUser.t) : M (option User.t) :=
  if is_absent (UpdateUser.username updates) && is_absent (UpdateUser.password updates)
     && is_absent (UpdateUser.avatar updates) && is_absent (UpdateUser.bio updates)
  then throw (JsError "No values to set")
  else
    result ← sql (fun _ => update_user id updates);
    mret (head result).

(** ** [DatabaseStorage]: video operations *)

Definition getVideo (id : num) : M (option Video.t) :=
  result ← select (fun d =>
    i ← int4_param id;
    mret (filter (λ v, Video.id v = i) (videos d)));
  mret (head result).

Definition getAllVideos : M (list Video.t) :=
  select (fun d => mret (videos d)).

Definition getVideosByCategory (category : string) : M (list Video.t) :=
  select (fun d => mret (filter (λ v, Video.category v = category) (videos d))).

Definition getFeaturedVideos : M (list Video.t) :=
  select (fun d => mret (filter (λ v, Video.featured v = Some true) (videos d))).

(** The routes always pass a limit, so the default of 10 is theirs. *)
Definition getPopularVideos (limit : num) : M (list Video.t) :=
  select (fun d => limit_rows limit (order_by_desc Video.views (videos d))).

Definition getUserVideos (userId : num) : M (list Video.t) :=
  select (fun d =>
    u ← int4_param userId;
    mret (filter (λ v, Video.userId v = u) (videos d))).

(** [INSERT INTO videos ... RETURNING *] with the three counters given as 0. *)
Definition insert_video (video : InsertVideo.t) (now : Z) (d : Database)
  : Res (list Video.t) * Database :=
  if negb (in_int4 (InsertVideo.userId video))
  then (Throw (DbError "integer out of range"), d) else
  let id := videos_id_seq d in
  if negb (in_int4 id) then (Throw (DbError "sequence exhausted"), d) else
  let d1 := set_videos_id_seq (id + 1) d in
  let row := Video.mk id (InsertVideo.title video)
               (or_null (InsertVideo.description video))
               (InsertVideo.thumbnail video) (InsertVideo.videoUrl video)
               (InsertVideo.category video) (InsertVideo.userId video)
               (Some 0) (Some 0) (Some 0) (Some now)
               (or_default false (InsertVideo.featured video)) in
  if bool_decide (Exists (λ v, Video.id v = id) (videos d))
  then (Throw (DbError "duplicate key: videos_pkey"), d1)
  else (Ok [row], set_videos (videos d ++ [row]) d1).

Definition createVideo (video : InsertVideo.t) : M (option Video.t) :=
  result ← sql (insert_video video);
  mret (head result).

Definition change_video (updates : UpdateVideo.t) (v : Video.t) : Video.t :=
  Video.mk (Video.id v) (UpdateVideo.title updates)
    (or_keep (Video.description v) (UpdateVideo.description updates))
    (UpdateVideo.thumbnail updates) (Video.videoUrl v)
    (UpdateVideo.category updates) (Video.userId v)
    (Video.views v) (Video.likes v) (Video.dislikes v) (Video.createdAt v)
    (or_keep (Video.featured v) (UpdateVideo.featured updates)).

(** [UPDATE videos SET ... WHERE id = $1 RETURNING *] *)
Definition update_videos (id : num) (change : Video.t -> Res Video.t) (d : Database)
  : Res (list Video.t) * Database :=
  match (i ← int4_param id;
         rows ← update_where (λ v, bool_decide (Video.id v = i)) change (videos d);
         mret (i, rows)) with
  | Ok (i, rows) => (Ok (filter (λ v, Video.id v = i) rows), set_videos rows d)
  | Throw e => (Throw e, d)
  end.

Definition updateVideo (id : num) (updates : UpdateVideo.t) : M (option Video.t) :=
  result ← sql (fun _ => update_videos id (λ v, Ok (change_video updates v)));
  mret (head result).

(** [DELETE FROM videos WHERE id = $1 RETURNING *] *)
Definition delete_video (id : num) (d : Database) : Res (list Video.t) * Database :=
  match int4_param id with
  | Ok i => (Ok (filter (λ v, Video.id v = i) (videos d)),
             set_videos (filter (λ v, Video.id v ≠ i) (videos d)) d)
  | Throw e => (Throw e, d)
  end.

Definition deleteVideo (id : num) : M bool :=
  result ← sql (fun _ => delete_video id);
  mret (bool_decide (0 < List.length result)%nat).

Definition bump_views (d : Z) (v : Video.t) : Res Video.t :=
  n ← int4_add (Video.views v) d;
  mret (Video.mk (Video.id v) (Video.title v) (Video.description v)
          (Video.thumbnail v) (Video.videoUrl v) (Video.category v)
          (Video.userId v) n (Video.likes v) (Video.dislikes v)
          (Video.createdAt v) (Video.featured v)).

Definition bump_likes (d : Z) (v : Video.t) : Res Video.t :=
  n ← int4_add (Video.likes v) d;
  mret (Video.mk (Video.id v) (Video.title v) (Video.description v)
          (Video.thumbnail v) (Video.videoUrl v) (Video.category v)
          (Video.userId v) (Video.views v) n (Video.dislikes v)
          (Video.createdAt v) (Video.featured v)).

Definition bump_dislikes (d : Z) (v : Video.t) : Res Video.t :=
  n ← int4_add (Video.dislikes v) d;
  mret (Video.mk (Video.id v) (Video.title v) (Video.description v)
          (Video.thumbnail v) (Video.videoUrl v) (Video.category v)
          (Video.userId v) (Video.views v) (Video.likes v) n
          (Video.createdAt v) (Video.featured v)).

Definition incrementViews (id : num) : M (option Video.t) :=
  result ← sql (fun _ => update_videos id (bump_views 1));
  mret (head result).

(** ** Pattern matching with [ILIKE]

    In a pattern, [%] stands for any run of characters, [_] for any one
    character, and a backslash makes the character after it literal.
    Letters are compared without regard to case.  Characters are bytes and
    case is that of the ASCII letters.  The server refuses a pattern that
    ends in a lone backslash; the patterns built by [searchVideos] end in
    [%] and are never of this kind, and the matcher answers [false]. *)

Definition lower (c : ascii) : ascii :=
  let n := nat_of_ascii c in
  if ((65 <=? n) && (n <=? 90))%nat then ascii_of_nat (n + 32) else c.

Definition same_letter (a b : ascii) : bool :=
  Ascii.eqb (lower a) (lower b).

Fixpoint ilike_match (pat : string) : string -> bool :=
  match pat with
  | EmptyString =>
      fun s => match s with EmptyString => true | _ => false end
  | String "%" pat' =>
      fix any (s : string) : bool :=
        ilike_match pat' s
        || match s with EmptyString => false | String _ s' => any s' end
  | String "_" pat' =>
      fun s => match s with
               | EmptyString => false
               | String _ s' => ilike_match pat' s'
               end
  | String "\" pat' =>
      match pat' with
      | EmptyString => fun _ => false
      | String c pat'' =>
          fun s => match s with
                   | EmptyString => false
                   | String x s' => same_letter c x && ilike_match pat'' s'
                   end
      end
  | String c pat' =>
      fun s => match s with
               | EmptyString => false
               | String x s' => same_letter c x && ilike_match pat' s'
               end
  end.

(** [col ILIKE pat] on a nullable column, as a [WHERE] condition: [NULL]
    does not select the row. *)
Definition ilike (col : option string) (pat : string) : bool :=
  match col with
  | None => false
  | Some s => ilike_match pat s
  end.

Definition searchVideos (query : string) : M (list Video.t) :=
  let searchPattern := "%" ++ query ++ "%" in
  select (fun d =>
    mret (filter (λ v, ilike (Some (Video.title v)) searchPattern
                       || ilike (Video.description v) searchPattern)
            (videos d))).

(** ** [DatabaseStorage]: watchlist operations *)

(** [watchlist INNER JOIN videos ON watchlist.videoId = videos.id]; one
    pair per match. *)
Definition join_videos (items : list Watchlist.t) (vs : list Video.t)
  : list (Watchlist.t * Video.t) :=
  item ← items;
  v ← filter (λ v, Video.id v = Watchlist.videoId item) vs;
  [(item, v)].

Definition getWatchlist (userId : num) : M (list Video.t) :=
  result ← select (fun d =>
    u ← int4_param userId;
    mret (order_by_desc (λ r, Watchlist.addedAt (fst r))
            (join_videos (filter (λ i, Watchlist.userId i = u) (watchlist d))
               (videos d))));
  mret (map snd result).

(** [SELECT * FROM t WHERE userId = $1 AND videoId = $2] and the like: both
    parameters must be integers. *)
Definition pair_param (userId videoId : num) : Res (Z * Z) :=
  u ← int4_param userId;
  v ← int4_param videoId;
  mret (u, v).

Definition watchlist_rows (userId videoId : num) (d : Database)
  : Res (list Watchlist.t) :=
  '(u, v) ← pair_param userId videoId;
  mret (filter (λ i, Watchlist.userId i = u ∧ Watchlist.videoId i = v) (watchlist d)).

(** [INSERT INTO watchlist ... RETURNING *] *)
Definition insert_watchlist (item : InsertWatchlist.t) (now : Z) (d : Database)
  : Res (list Watchlist.t) * Database :=
  match pair_param (InsertWatchlist.userId item) (InsertWatchlist.videoId item) with
  | Throw e => (Throw e, d)
  | Ok (u, v) =>
      let id := watchlist_id_seq d in
      if negb (in_int4 id) then (Throw (DbError "sequence exhausted"), d) else
      let d1 := set_watchlist_id_seq (id + 1) d in
      let row := Watchlist.mk id u v (Some now) in
      if bool_decide (Exists (λ i, Watchlist.id i = id) (watchlist d))
      then (Throw (DbError "duplicate key: watchlist_pkey"), d1)
      else (Ok [row], set_watchlist (watchlist d ++ [row]) d1)
  end.

Definition addToWatchlist (item : InsertWatchlist.t) : M (option Watchlist.t) :=
  (* Check if already in watchlist *)
  existing ← select (watchlist_rows (InsertWatchlist.userId item)
                       (InsertWatchlist.videoId item));
  if bool_decide (0 < List.length existing)%nat then mret (head existing)
  else
    result ← sql (insert_watchlist item);
    mret (head result).

(** [DELETE FROM watchlist WHERE userId = $1 AND videoId = $2 RETURNING *] *)
Definition delete_watchlist (userId videoId : num) (d : Database)
  : Res (list Watchlist.t) * Database :=
  match pair_param userId videoId with
  | Ok (u, v) =>
      (Ok (filter (λ i, Watchlist.userId i = u ∧ Watchlist.videoId i = v) (watchlist d)),
       set_watchlist
         (filter (λ i, ¬ (Watchlist.userId i = u ∧ Watchlist.videoId i = v)) (watchlist d)) d)
  | Throw e => (Throw e, d)
  end.

Definition removeFromWatchlist (userId videoId : num) : M bool :=
  result ← sql (fun _ => delete_watchlist userId videoId);
  mret (bool_decide (0 < List.length result)%nat).

Definition isInWatchlist (userId videoId : num) : M bool :=
  result ← select (watchlist_rows userId videoId);
  mret (bool_decide (0 < List.length result)%nat).

(** ** [DatabaseStorage]: likes operations *)

Definition like_rows (userId videoId : num) (d : Database) : Res (list Like.t) :=
  '(u, v) ← pair_param userId videoId;
  mret (filter (λ r, Like.userId r = u ∧ Like.videoId r = v) (likes d)).

(** [INSERT INTO likes (userId, videoId) ... RETURNING *]; the primary key
    (userId, videoId) rejects a second row for the same pair. *)
Definition insert_like (userId videoId : num) (now : Z) (d : Database)
  : Res (list Like.t) * Database :=
  match pair_param userId videoId with
  | Throw e => (Throw e, d)
  | Ok (u, v) =>
      let row := Like.mk u v (Some now) in
      if bool_decide (Exists (λ r, Like.userId r = u ∧ Like.videoId r = v) (likes d))
      then (Throw (DbError "duplicate key: likes_pkey"), d)
      else (Ok [row], set_likes (likes d ++ [row]) d)
  end.

(** [DELETE FROM likes WHERE userId = $1 AND videoId = $2 RETURNING *] *)
Definition delete_like (userId videoId : num) (d : Database)
  : Res (list Like.t) * Database :=
  match pair_param userId videoId with
  | Ok (u, v) =>
      (Ok (filter (λ r, Like.userId r = u ∧ Like.videoId r = v) (likes d)),
       set_likes (filter (λ r, ¬ (Like.userId r = u ∧ Like.videoId r = v)) (likes d)) d)
  | Throw e => (Throw e, d)
  end.

Definition likeVideo (userId videoId : num) : M (option Like.t) :=
  (* Check if already liked *)
  existing ← select (like_rows userId videoId);
  if bool_decide (0 < List.length existing)%nat then mret (head existing)
  else
    (* Add like and increment count in video *)
    transaction (
      likeResult ← sql (insert_like userId videoId);
      _ ← sql (fun _ => update_videos videoId (bump_likes 1));
      mret (head likeResult)).

Definition unlikeVideo (userId videoId : num) : M bool :=
  (* Remove like and decrement count in video *)
  transaction (
    deleteResult ← sql (fun _ => delete_like userId videoId);
    _ ← (if bool_decide (0 < List.length deleteResult)%nat
         then _ ← sql (fun _ => update_videos videoId (bump_likes (-1))); mret ()
         else mret ());
    mret (bool_decide (0 < List.length deleteResult)%nat)).

Definition isVideoLiked (userId videoId : num) : M bool :=
  result ← select (like_rows userId videoId);
  mret (bool_decide (0 < List.length result)%nat).

(** ** [DatabaseStorage]: dislikes operations *)

Definition dislike_rows (userId videoId : num) (d : Database) : Res (list Dislike.t) :=
  '(u, v) ← pair_param userId videoId;
  mret (filter (λ r, Dislike.userId r = u ∧ Dislike.videoId r = v) (dislikes d)).

Definition insert_dislike (userId videoId : num) (now : Z) (d : Database)
  : Res (list Dislike.t) * Database :=
  match pair_param userId videoId with
  | Throw e => (Throw e, d)
  | Ok (u, v) =>
      let row := Dislike.mk u v (Some now) in
      if bool_decide (Exists (λ r, Dislike.userId r = u ∧ Dislike.videoId r = v) (dislikes d))
      then (Throw (DbError "duplicate key: dislikes_pkey"), d)
      else (Ok [row], set_dislikes (dislikes d ++ [row]) d)
  end.

Definition delete_dislike (userId videoId : num) (d : Database)
  : Res (list Dislike.t) * Database :=
  match pair_param userId videoId with
  | Ok (u, v) =>
      (Ok (filter (λ r, Dislike.userId r = u ∧ Dislike.videoId r = v) (dislikes d)),
       set_dislikes
         (filter (λ r, ¬ (Dislike.userId r = u ∧ Dislike.videoId r = v)) (dislikes d)) d)
  | Throw e => (Throw e, d)
  end.

Definition dislikeVideo (userId videoId : num) : M (option Dislike.t) :=
  (* Check if already disliked *)
  existing ← select (dislike_rows userId videoId);
  if bool_decide (0 < List.length existing)%nat then mret (head existing)
  else
    (* Add dislike and increment count in video *)
    transaction (
      dislikeResult ← sql (insert_dislike userId videoId);
      _ ← sql (fun _ => update_videos videoId (bump_dislikes 1));
      mret (head dislikeResult)).

Definition undislikeVideo (userId videoId : num) : M bool :=
  (* Remove dislike and decrement count in video *)
  transaction (
    deleteResult ← sql (fun _ => delete_dislike userId videoId);
    _ ← (if bool_decide (0 < List.length deleteResult)%nat
         then _ ← sql (fun _ => update_videos videoId (bump_dislikes (-1))); mret ()
         else mret ());
    mret (bool_decide (0 < List.length deleteResult)%nat)).

Definition isVideoDisliked (userId videoId : num) : M bool :=
  result ← select (dislike_rows userId videoId);
  mret (bool_decide (0 < List.length result)%nat).

(** ** [DatabaseStorage]: comments operations *)

(** [comments INNER JOIN users ON comments.userId = users.id] *)
Definition join_users (cs : list Comment.t) (us : list User.t)
  : list (Comment.t * User.t) :=
  c ← cs;
  u ← filter (λ u, User.id u = Comment.userId c) us;
  [(c, u)].

Definition getVideoComments (videoId : num) : M (list (Comment.t * User.t)) :=
  select (fun d =>
    v ← int4_param videoId;
    mret (order_by_desc (λ r, Comment.createdAt (fst r))
            (join_users (filter (λ c, Comment.videoId c = v) (comments d))
               (users d)))).

Definition insert_comment (comment : InsertComment.t) (now : Z) (d : Database)
  : Res (list Comment.t) * Database :=
  match pair_param (InsertComment.userId comment) (InsertComment.videoId comment) with
  | Throw e => (Throw e, d)
  | Ok (u, v) =>
      let id := comments_id_seq d in
      if negb (in_int4 id) then (Throw (DbError "sequence exhausted"), d) else
      let d1 := set_comments_id_seq (id + 1) d in
      let row := Comment.mk id (InsertComment.content comment) u v (Some now) in
      if bool_decide (Exists (λ c, Comment.id c = id) (comments d))
      then (Throw (DbError "duplicate key: comments_pkey"), d1)
      else (Ok [row], set_comments (comments d ++ [row]) d1)
  end.

Definition createComment (comment : InsertComment.t) : M (option Comment.t) :=
  result ← sql (insert_comment comment);
  mret (head result).

(** Only allow users to delete their own comments *)
Definition delete_comment (id userId : num) (d : Database)
  : Res (list Comment.t) * Database :=
  match pair_param id userId with
  | Ok (i, u) =>
      (Ok (filter (λ c, Comment.id c = i ∧ Comment.userId c = u) (comments d)),
       set_comments
         (filter (λ c, ¬ (Comment.id c = i ∧ Comment.userId c = u)) (comments d)) d)
  | Throw e => (Throw e, d)
  end.

Definition deleteComment (id userId : num) : M bool :=
  result ← sql (fun _ => delete_comment id userId);
  mret (bool_decide (0 < List.length result)%nat).

Definition change_comment (updates : UpdateComment.t) (c : Comment.t) : Comment.t :=
  Comment.mk (Comment.id c) (UpdateComment.content updates) (Comment.userId c)
    (Comment.videoId c) (Comment.createdAt c).

(** Only allow users to update their own comments *)
Definition update_comment (id userId : num) (updates : UpdateComment.t) (d : Database)
  : Res (list Comment.t) * Database :=
  match pair_param id userId with
  | Ok (i, u) =>
      let hit (c : Comment.t) := bool_decide (Comment.id c = i ∧ Comment.userId c = u) in
      let rows := map (λ c, if hit c then change_comment updates c else c) (comments d) in
      (Ok (filter (λ c, Comment.id c = i ∧ Comment.userId c = u) rows),
       set_comments rows d)
  | Throw e => (Throw e, d)
  end.

Definition updateComment (id userId : num) (updates : UpdateComment.t)
  : M (option Comment.t) :=
  result ← sql (fun _ => update_comment id userId updates);
  mret (head result).

(** ** Requests and responses ([server/routes.ts]) *)

(** A user as sent to clients: every column but the password. *)
Module Profile.
Record t := mk {
    id : Z;
    username : string;
    avatar : option string;
    bio : option string;
    createdAt : option Z }.
End Profile.

(** [const { password, ...userWithoutPassword } = user] *)
Definition without_password (u : User.t) : Profile.t :=
  Profile.mk (User.id u) (User.username u) (User.avatar u) (User.bio u)
    (User.createdAt u).

(** The JSON bodies the routes send.  A value that may be [undefined] is an
    [option]. *)
Inductive Body :=
| JMessage (message : string)
| JInvalid (message : string)              (* message and the parse errors *)
| JSuccess                                 (* success: true *)
| JTerminated (id : num) (reason : string) (* success: true, and the message
                                              "Video <id> terminated by admin for: <reason>" *)
| JVideo (v : option Video.t)
| JVideos (vs : list Video.t)
| JUser (u : option User.t)
| JProfile (u : Profile.t)
| JWatchlistItem (i : option Watchlist.t)
| JLike (l : option Like.t)
| JDislike (l : option Dislike.t)
| JIsInWatchlist (b : bool)
| JIsLiked (b : bool)
| JIsDisliked (b : bool)
| JComments (cs : list (Comment.t * User.t))
| JCommentWithUser (c : option (Comment.t * User.t))
| JComment (c : Comment.t).

Record Response := mkResponse { status : Z; body : Body }.

(** [res.json(b)] *)
Definition json (b : Body) : Response := mkResponse 200 b.
(** [res.status(code).json(b)] *)
Definition status_json (code : Z) (b : Body) : Response := mkResponse code b.

(** The text fields of the upload form and of the video update body. *)
Module VideoBody.
Record t := mk {
    title : field;
    description : field;
    thumbnail : field;
    category : field;
    featured : field }.
End VideoBody.

(** The body of the registration request. *)
Module UserBody.
Record t := mk { username : field; password : field; avatar : field }.
End UserBody.

(** The files multer stored for the upload form: the stored file name of
    each field that was sent. *)
Module Files.
Record t := mk { video : option string; thumbnail : option string }.
End Files.

(** One constructor per route, with what the handler reads from the
    request.  Path, query and body values that the handler passes through
    [parseInt] are given as the number that results. *)
Inductive Request :=
| GET_videos
| GET_videos_featured
| GET_videos_popular (limit : option num)  (* the limit parameter, if not empty *)
| GET_videos_category (category : string)
| GET_videos_search (q : option string)
| GET_video (id : num)
| POST_videos (files : option Files.t) (form : VideoBody.t)
| PUT_video (id : num) (updates : VideoBody.t)
| DELETE_video (id : num)
| DELETE_moderation_video (id : num) (reason : option string)
| POST_users (user : UserBody.t)
| POST_user_avatar (id : num) (file : option string)
| GET_user (id : num)
| PUT_user (id : num) (updates : UpdateUser.t)
| GET_user_videos (id : num)
| GET_watchlist
| GET_user_watchlist (id : num)
| POST_watchlist (videoId : num)
| DELETE_watchlist (videoId : num)
| DELETE_user_watchlist (userId videoId : num)
| GET_watchlist_check (videoId : num)
| GET_user_watchlist_check (userId videoId : num)
| POST_likes (videoId : num)
| DELETE_likes (videoId : num)
| GET_likes_check (videoId : num)
| POST_dislikes (videoId : num)
| DELETE_dislikes (videoId : num)
| GET_dislikes_check (videoId : num)
| GET_video_comments (videoId : num)
| POST_video_comments (videoId : num) (content : field)
| PUT_comment (id : num) (content : field)
| DELETE_comment (id : num).

(** Authentication check middleware: [req.user] is present exactly when
    [req.isAuthenticated()] holds. *)
Definition requireAuth (user : option User.t) (next : User.t -> M Response)
  : M Response :=
  match user with
  | None => mret (status_json 401 (JMessage "Authentication required"))
  | Some u => next u
  end.

(** [try { body } catch (error) { res.status(500).json({ message }) }] *)
Definition catch_500 (message : string) (body : M Response) : M Response :=
  try_catch body (fun _ => mret (status_json 500 (JMessage message))).

(** ** Schema validation ([safeParse]) *)

Definition parse_nullish (f : field) : option (nullish string) :=
  match f with
  | Undefined => Some Absent
  | Null => Some IsNull
  | Str s => Some (Val s)
  | Other => None
  end.

Definition parse_string (f : field) : option string :=
  match f with Str s => Some s | _ => None end.

(** [req.body.featured === 'true'] *)
Definition is_true_text (f : field) : bool :=
  match f with Str s => bool_decide (s = "true") | _ => false end.

(** [insertVideoSchema.safeParse] on the upload form completed with the
    user id, the two stored paths and the featured flag. *)
Definition parse_insert_video (form : VideoBody.t) (userId : Z)
    (videoUrl thumbnail : string) (featured : bool) : option InsertVideo.t :=
  title ← parse_string (VideoBody.title form);
  description ← parse_nullish (VideoBody.description form);
  category ← parse_string (VideoBody.category form);
  mret (InsertVideo.mk title description thumbnail videoUrl category userId
          (Val featured)).

(** [updateVideoSchema.safeParse] on the body with the featured flag
    replaced. *)
Definition parse_update_video (updates : VideoBody.t) (featured : bool)
  : option UpdateVideo.t :=
  title ← parse_string (VideoBody.title updates);
  description ← parse_nullish (VideoBody.description updates);
  thumbnail ← parse_string (VideoBody.thumbnail updates);
  category ← parse_string (VideoBody.category updates);
  mret (UpdateVideo.mk title description thumbnail category (Val featured)).

(** [insertUserSchema.safeParse] *)
Definition parse_insert_user (user : UserBody.t) : option InsertUser.t :=
  username ← parse_string (UserBody.username user);
  password ← parse_string (UserBody.password user);
  avatar ← parse_nullish (UserBody.avatar user);
  mret (InsertUser.mk username password avatar).

(** [insertCommentSchema.safeParse]: a number that is [NaN] is refused. *)
Definition parse_insert_comment (content : field) (userId videoId : num)
  : option InsertComment.t :=
  text ← parse_string content;
  if isNaN userId || isNaN videoId then None
  else mret (InsertComment.mk text userId videoId).

(** [updateCommentSchema.safeParse] *)
Definition parse_update_comment (content : field) : option UpdateComment.t :=
  text ← parse_string content;
  mret (UpdateComment.mk text).

(** ** Video routes *)

Definition message (code : Z) (text : string) : M Response :=
  mret (status_json code (JMessage text)).

(** [app.get('/api/videos')] *)
Definition get_videos : M Response :=
  catch_500 "Failed to fetch videos" (
    found ← getAllVideos;
    mret (json (JVideos found))).

(** [app.get('/api/videos/featured')] *)
Definition get_videos_featured : M Response :=
  catch_500 "Failed to fetch featured videos" (
    found ← getFeaturedVideos;
    mret (json (JVideos found))).

(** [app.get('/api/videos/popular')] *)
Definition get_videos_popular (query_limit : option num) : M Response :=
  catch_500 "Failed to fetch popular videos" (
    let limit := match query_limit with Some n => n | None => Int 10 end in
    found ← getPopularVideos limit;
    mret (json (JVideos found))).

(** [app.get('/api/videos/category/:category')] *)
Definition get_videos_category (category : string) : M Response :=
  catch_500 "Failed to fetch videos by category" (
    found ← getVideosByCategory category;
    mret (json (JVideos found))).

(** [app.get('/api/videos/search')] *)
Definition get_videos_search (q : option string) : M Response :=
  catch_500 "Failed to search videos" (
    match q with
    | None => message 400 "Search query is required"
    | Some query =>
        if negb (truthy query) then message 400 "Search query is required"
        else
          found ← searchVideos query;
          mret (json (JVideos found))
    end).

(** [app.get('/api/videos/:id')] *)
Definition get_video (id : num) : M Response :=
  catch_500 "Failed to fetch video" (
    video ← getVideo id;
    match video with
    | None => message 404 "Video not found"
    | Some v =>
        (* Increment views *)
        _ ← incrementViews id;
        mret (json (JVideo (Some v)))
    end).

(** [app.post('/api/videos', requireAuth, upload.fields(...))] *)
Definition post_videos (user : option User.t) (files : option Files.t)
    (form : VideoBody.t) : M Response :=
  requireAuth user (fun u =>
  catch_500 "Failed to upload video" (
    match files with
    | None => throw (JsError "Cannot read properties of undefined")
    | Some fs =>
        match Files.video fs, Files.thumbnail fs with
        | Some videoFile, Some thumbnailFile =>
            (* Use authenticated user ID *)
            match parse_insert_video form (User.id u)
                    ("/uploads/" ++ videoFile) ("/uploads/" ++ thumbnailFile)
                    (is_true_text (VideoBody.featured form)) with
            | None => mret (status_json 400 (JInvalid "Invalid video data"))
            | Some data =>
                newVideo ← createVideo data;
                mret (status_json 201 (JVideo newVideo))
            end
        | _, _ => message 400 "Both video and thumbnail are required"
        end
    end)).

(** [app.put('/api/videos/:id')] *)
Definition put_video (id : num) (updates : VideoBody.t) : M Response :=
  catch_500 "Failed to update video" (
    video ← getVideo id;
    match video with
    | None => message 404 "Video not found"
    | Some _ =>
        match parse_update_video updates
                (is_true_text (VideoBody.featured updates)) with
        | None => mret (status_json 400 (JInvalid "Invalid update data"))
        | Some data =>
            updatedVideo ← updateVideo id data;
            mret (json (JVideo updatedVideo))
        end
    end).

(** Delete one uploaded file, if the stored path is not empty and the file
    is there. *)
Definition remove_upload (url : string) : M unit :=
  if truthy url then
    let p := path_join_cwd (replace_uploads url) in
    present ← existsSync p;
    if (present : bool) then unlinkSync p else mret ()
  else mret ().

(** [app.delete('/api/videos/:id', requireAuth)]: owner can delete their
    own videos, admin can delete any video. *)
Definition delete_video_route (user : option User.t) (id : num) : M Response :=
  requireAuth user (fun u =>
  catch_500 "Failed to delete video" (
    video ← getVideo id;
    match video with
    | None => message 404 "Video not found"
    | Some v =>
        (* Allow admin (user ID 1) to delete any video, otherwise only the
           owner can delete *)
        let isAdmin := bool_decide (User.id u = 1) in
        if negb isAdmin && negb (bool_decide (Video.userId v = User.id u))
        then message 403 "You can only delete your own videos"
        else
          (* Delete video and thumbnail files *)
          _ ← remove_upload (Video.videoUrl v);
          _ ← remove_upload (Video.thumbnail v);
          _ ← deleteVideo id;
          mret (json JSuccess)
    end)).

(** [app.delete('/api/moderation/videos/:id', requireAuth)]: only user ID 1
    can terminate videos. *)
Definition delete_moderation_video (user : option User.t) (id : num)
    (body_reason : option string) : M Response :=
  requireAuth user (fun u =>
  catch_500 "Failed to terminate video" (
    if negb (bool_decide (User.id u = 1))
    then message 403 "Only administrators can terminate videos"
    else
      video ← getVideo id;
      match video with
      | None => message 404 "Video not found"
      | Some v =>
          let reason :=
            match body_reason with
            | Some r => if truthy r then r else "Violation of community guidelines"
            | None => "Violation of community guidelines"
            end in
          _ ← remove_upload (Video.videoUrl v);
          _ ← remove_upload (Video.thumbnail v);
          _ ← deleteVideo id;
          mret (json (JTerminated id reason))
      end)).

(** ** User routes *)

(** [app.post('/api/users')] *)
Definition post_users (user : UserBody.t) : M Response :=
  catch_500 "Failed to create user" (
    match parse_insert_user user with
    | None => mret (status_json 400 (JInvalid "Invalid user data"))
    | Some data =>
        existingUser ← getUserByUsername (InsertUser.username data);
        match existingUser with
        | Some _ => message 409 "Username already exists"
        | None =>
            newUser ← createUser data;
            mret (status_json 201 (JUser newUser))
        end
    end).

(** [app.post('/api/users/:id/avatar', requireAuth, upload.single('avatar'))] *)
Definition post_user_avatar (user : option User.t) (id : num)
    (file : option string) : M Response :=
  requireAuth user (fun u =>
  catch_500 "Failed to upload avatar" (
    (* Check if the authenticated user is trying to update their own profile *)
    if negb (num_eqb (Int (User.id u)) id)
    then message 403 "You can only update your own profile"
    else
      found ← getUser id;
      match found with
      | None => message 404 "User not found"
      | Some usr =>
          match file with
          | None => message 400 "No file uploaded"
          | Some filename =>
              let avatarPath := "/uploads/" ++ filename in
              updatedUser ← updateUser id
                (UpdateUser.mk (Val (User.username usr)) Absent
                   (Val (Some avatarPath)) Absent);
              match updatedUser with
              | None => message 500 "Failed to update avatar"
              | Some updated => mret (json (JProfile (without_password updated)))
              end
          end
      end)).

(** [app.get('/api/users/:id')] *)
Definition get_user (id : num) : M Response :=
  catch_500 "Failed to fetch user" (
    found ← getUser id;
    match found with
    | None => message 404 "User not found"
    | Some usr => mret (json (JProfile (without_password usr)))
    end).

(** [if (updateData.password) delete updateData.password] *)
Definition drop_password (updateData : UpdateUser.t) : UpdateUser.t :=
  match UpdateUser.password updateData with
  | Val p =>
      if truthy p
      then UpdateUser.mk (UpdateUser.username updateData) Absent
             (UpdateUser.avatar updateData) (UpdateUser.bio updateData)
      else updateData
  | _ => updateData
  end.

(** [app.put('/api/users/:id', requireAuth)] *)
Definition put_user (user : option User.t) (id : num) (updateData : UpdateUser.t)
  : M Response :=
  requireAuth user (fun u =>
  catch_500 "Failed to update user" (
    if negb (num_eqb (Int (User.id u)) id)
    then message 403 "You can only update your own profile"
    else
      found ← getUser id;
      match found with
      | None => message 404 "User not found"
      | Some _ =>
          updatedUser ← updateUser id (drop_password updateData);
          match updatedUser with
          | None => message 404 "Failed to update user"
          | Some updated => mret (json (JProfile (without_password updated)))
          end
      end)).

(** [app.get('/api/users/:id/videos')] *)
Definition get_user_videos (id : num) : M Response :=
  catch_500 "Failed to fetch user videos" (
    found ← getUser id;
    match found with
    | None => message 404 "User not found"
    | Some _ =>
        vs ← getUserVideos id;
        mret (json (JVideos vs))
    end).

(** ** Watchlist routes *)

(** [app.get('/api/watchlist', requireAuth)] *)
Definition get_watchlist (user : option User.t) : M Response :=
  requireAuth user (fun u =>
  catch_500 "Failed to fetch watchlist" (
    items ← getWatchlist (Int (User.id u));
    mret (json (JVideos items)))).

(** [app.get('/api/users/:id/watchlist')] *)
Definition get_user_watchlist (userId : num) : M Response :=
  catch_500 "Failed to fetch watchlist" (
    items ← getWatchlist userId;
    mret (json (JVideos items))).

(** [app.post('/api/watchlist', requireAuth)] *)
Definition post_watchlist (user : option User.t) (videoId : num) : M Response :=
  requireAuth user (fun u =>
  catch_500 "Failed to add to watchlist" (
    if isNaN videoId then message 400 "Invalid video ID"
    else
      video ← getVideo videoId;
      match video with
      | None => message 404 "Video not found"
      | Some _ =>
          newItem ← addToWatchlist (InsertWatchlist.mk (Int (User.id u)) videoId);
          mret (status_json 201 (JWatchlistItem newItem))
      end)).

(** [app.delete('/api/watchlist/:videoId', requireAuth)] *)
Definition delete_watchlist_route (user : option User.t) (videoId : num)
  : M Response :=
  requireAuth user (fun u =>
  catch_500 "Failed to remove from watchlist" (
    if isNaN videoId then message 400 "Invalid video ID"
    else
      result ← removeFromWatchlist (Int (User.id u)) videoId;
      if negb result then message 404 "Watchlist item not found"
      else mret (json JSuccess))).

(** [app.delete('/api/watchlist/:userId/:videoId')] *)
Definition delete_user_watchlist (userId videoId : num) : M Response :=
  catch_500 "Failed to remove from watchlist" (
    result ← removeFromWatchlist userId videoId;
    if negb result then message 404 "Watchlist item not found"
    else mret (json JSuccess)).

(** [app.get('/api/watchlist/check/:videoId', requireAuth)] *)
Definition get_watchlist_check (user : option User.t) (videoId : num)
  : M Response :=
  requireAuth user (fun u =>
  catch_500 "Failed to check watchlist status" (
    if isNaN videoId then message 400 "Invalid video ID"
    else
      found ← isInWatchlist (Int (User.id u)) videoId;
      mret (json (JIsInWatchlist found)))).

(** [app.get('/api/watchlist/check/:userId/:videoId')] *)
Definition get_user_watchlist_check (userId videoId : num) : M Response :=
  catch_500 "Failed to check watchlist status" (
    found ← isInWatchlist userId videoId;
    mret (json (JIsInWatchlist found))).

(** ** Likes and dislikes routes *)

(** [app.post('/api/likes', requireAuth)] *)
Definition post_likes (user : option User.t) (videoId : num) : M Response :=
  requireAuth user (fun u =>
  catch_500 "Failed to like video" (
    if isNaN videoId then message 400 "Invalid video ID"
    else
      video ← getVideo videoId;
      match video with
      | None => message 404 "Video not found"
      | Some _ =>
          like ← likeVideo (Int (User.id u)) videoId;
          mret (status_json 201 (JLike like))
      end)).

(** [app.delete('/api/likes/:videoId', requireAuth)] *)
Definition delete_likes (user : option User.t) (videoId : num) : M Response :=
  requireAuth user (fun u =>
  catch_500 "Failed to unlike video" (
    if isNaN videoId then message 400 "Invalid video ID"
    else
      result ← unlikeVideo (Int (User.id u)) videoId;
      if negb result then message 404 "Like not found"
      else mret (json JSuccess))).

(** [app.get('/api/likes/check/:videoId', requireAuth)] *)
Definition get_likes_check (user : option User.t) (videoId : num) : M Response :=
  requireAuth user (fun u =>
  catch_500 "Failed to check like status" (
    if isNaN videoId then message 400 "Invalid video ID"
    else
      isLiked ← isVideoLiked (Int (User.id u)) videoId;
      mret (json (JIsLiked isLiked)))).

(** [app.post('/api/dislikes', requireAuth)] *)
Definition post_dislikes (user : option User.t) (videoId : num) : M Response :=
  requireAuth user (fun u =>
  catch_500 "Failed to dislike video" (
    if isNaN videoId then message 400 "Invalid video ID"
    else
      video ← getVideo videoId;
      match video with
      | None => message 404 "Video not found"
      | Some _ =>
          dislike ← dislikeVideo (Int (User.id u)) videoId;
          mret (status_json 201 (JDislike dislike))
      end)).

(** [app.delete('/api/dislikes/:videoId', requireAuth)] *)
Definition delete_dislikes (user : option User.t) (videoId : num) : M Response :=
  requireAuth user (fun u =>
  catch_500 "Failed to undislike video" (
    if isNaN videoId then message 400 "Invalid video ID"
    else
      result ← undislikeVideo (Int (User.id u)) videoId;
      if negb result then message 404 "Dislike not found"
      else mret (json JSuccess))).

(** [app.get('/api/dislikes/check/:videoId', requireAuth)] *)
Definition get_dislikes_check (user : option User.t) (videoId : num)
  : M Response :=
  requireAuth user (fun u =>
  catch_500 "Failed to check dislike status" (
    if isNaN videoId then message 400 "Invalid video ID"
    else
      isDisliked ← isVideoDisliked (Int (User.id u)) videoId;
      mret (json (JIsDisliked isDisliked)))).

(** ** Comments routes *)

(** [app.get('/api/videos/:videoId/comments')] *)
Definition get_video_comments (videoId : num) : M Response :=
  catch_500 "Failed to fetch comments" (
    if isNaN videoId then message 400 "Invalid video ID"
    else
      video ← getVideo videoId;
      match video with
      | None => message 404 "Video not found"
      | Some _ =>
          cs ← getVideoComments videoId;
          mret (json (JComments cs))
      end).

(** [app.post('/api/videos/:videoId/comments', requireAuth)] *)
Definition post_video_comments (user : option User.t) (videoId : num)
    (content : field) : M Response :=
  requireAuth user (fun u =>
  catch_500 "Failed to create comment" (
    if isNaN videoId then message 400 "Invalid video ID"
    else
      video ← getVideo videoId;
      match video with
      | None => message 404 "Video not found"
      | Some _ =>
          match parse_insert_comment content (Int (User.id u)) videoId with
          | None => mret (status_json 400 (JInvalid "Invalid comment data"))
          | Some data =>
              newComment ← createComment data;
              (* Get the full comment with user data for the response *)
              cs ← getVideoComments videoId;
              match newComment, cs with
              | None, _ :: _ => throw (JsError "Cannot read properties of undefined")
              | None, [] => mret (status_json 201 (JCommentWithUser None))
              | Some created, _ =>
                  let commentWithUser :=
                    head (filter (λ c, Comment.id (fst c) = Comment.id created) cs) in
                  mret (status_json 201 (JCommentWithUser commentWithUser))
              end
          end
      end)).

(** [app.put('/api/comments/:id', requireAuth)] *)
Definition put_comment (user : option User.t) (commentId : num)
    (content : field) : M Response :=
  requireAuth user (fun u =>
  catch_500 "Failed to update comment" (
    if isNaN commentId then message 400 "Invalid comment ID"
    else
      match parse_update_comment content with
      | None => mret (status_json 400 (JInvalid "Invalid comment data"))
      | Some data =>
          updatedComment ← updateComment commentId (Int (User.id u)) data;
          match updatedComment with
          | None =>
              message 404 "Comment not found or you do not have permission to edit it"
          | Some updated => mret (json (JComment updated))
          end
      end)).

(** [app.delete('/api/comments/:id', requireAuth)] *)
Definition delete_comment_route (user : option User.t) (commentId : num)
  : M Response :=
  requireAuth user (fun u =>
  catch_500 "Failed to delete comment" (
    if isNaN commentId then message 400 "Invalid comment ID"
    else
      result ← deleteComment commentId (Int (User.id u));
      if negb result
      then message 404 "Comment not found or you do not have permission to delete it"
      else mret (json JSuccess))).

(** ** The router: the handler registered for each route *)

Definition handle (user : option User.t) (r : Request) : M Response :=
  match r with
  | GET_videos => get_videos
  | GET_videos_featured => get_videos_featured
  | GET_videos_popular limit => get_videos_popular limit
  | GET_videos_category category => get_videos_category category
  | GET_videos_search q => get_videos_search q
  | GET_video id => get_video id
  | POST_videos files form => post_videos user files form
  | PUT_video id updates => put_video id updates
  | DELETE_video id => delete_video_route user id
  | DELETE_moderation_video id reason => delete_moderation_video user id reason
  | POST_users body => post_users body
  | POST_user_avatar id file => post_user_avatar user id file
  | GET_user id => get_user id
  | PUT_user id updates => put_user user id updates
  | GET_user_videos id => get_user_videos id
  | GET_watchlist => get_watchlist user
  | GET_user_watchlist id => get_user_watchlist id
  | POST_watchlist videoId => post_watchlist user videoId
  | DELETE_watchlist videoId => delete_watchlist_route user videoId
  | DELETE_user_watchlist userId videoId => delete_user_watchlist userId videoId
  | GET_watchlist_check videoId => get_watchlist_check user videoId
  | GET_user_watchlist_check userId videoId => get_user_watchlist_check userId videoId
  | POST_likes videoId => post_likes user videoId
  | DELETE_likes videoId => delete_likes user videoId
  | GET_likes_check videoId => get_likes_check user videoId
  | POST_dislikes videoId => post_dislikes user videoId
  | DELETE_dislikes videoId => delete_dislikes user videoId
  | GET_dislikes_check videoId => get_dislikes_check user videoId
  | GET_video_comments videoId => get_video_comments videoId
  | POST_video_comments videoId content => post_video_comments user videoId content
  | PUT_comment id content => put_comment user id content
  | DELETE_comment id => delete_comment_route user id
  end.

(** The message each handler sends with status 500. *)
Definition failure_message (r : Request) : string :=
  match r with
  | GET_videos => "Failed to fetch videos"
  | GET_videos_featured => "Failed to fetch featured videos"
  | GET_videos_popular _ => "Failed to fetch popular videos"
  | GET_videos_category _ => "Failed to fetch videos by category"
  | GET_videos_search _ => "Failed to search videos"
  | GET_video _ => "Failed to fetch video"
  | POST_videos _ _ => "Failed to upload video"
  | PUT_video _ _ => "Failed to update video"
  | DELETE_video _ => "Failed to delete video"
  | DELETE_moderation_video _ _ => "Failed to terminate video"
  | POST_users _ => "Failed to create user"
  | POST_user_avatar _ _ => "Failed to upload avatar"
  | GET_user _ => "Failed to fetch user"
  | PUT_user _ _ => "Failed to update user"
  | GET_user_videos _ => "Failed to fetch user videos"
  | GET_watchlist | GET_user_watchlist _ => "Failed to fetch watchlist"
  | POST_watchlist _ => "Failed to add to watchlist"
  | DELETE_watchlist _ | DELETE_user_watchlist _ _ => "Failed to remove from watchlist"
  | GET_watchlist_check _ | GET_user_watchlist_check _ _ =>
      "Failed to check watchlist status"
  | POST_likes _ => "Failed to like video"
  | DELETE_likes _ => "Failed to unlike video"
  | GET_likes_check _ => "Failed to check like status"
  | POST_dislikes _ => "Failed to dislike video"
  | DELETE_dislikes _ => "Failed to undislike video"
  | GET_dislikes_check _ => "Failed to check dislike status"
  | GET_video_comments _ => "Failed to fetch comments"
  | POST_video_comments _ _ => "Failed to create comment"
  | PUT_comment _ _ => "Failed to update comment"
  | DELETE_comment _ => "Failed to delete comment"
  end.

(** * Specification vocabulary *)

(** A script without failures: no statement fails for an external reason. *)
Definition quiet (s : list bool) : Prop := Forall (λ b, b = false) s.

(** The part of a script a computation consumed: [before] is [used]
    followed by [after]. *)
Definition consumed (before after used : list bool) : Prop :=
  before = (used ++ after)%list.

(** A computation swallows no exception and throws none unseen: it uses
    up a prefix of the script, one entry per statement sent; it returns
    only if none of the entries it used is a failure and nothing was
    thrown on the way; and when it throws, the count of exceptions has
    grown. *)
Definition faithful {A} (m : M A) : Prop :=
  ∀ w, ∃ used,
    consumed (script w) (script (snd (m w))) used
    ∧ (raised w ≤ raised (snd (m w)))%nat
    ∧ (∀ a, fst (m w) = Ok a →
            quiet used ∧ raised (snd (m w)) = raised w)
    ∧ (∀ e, fst (m w) = Throw e → (raised w < raised (snd (m w)))%nat).

(** [wp m Q w]: running [m] in the world [w] ends with a result and in a
    world that satisfy [Q]. *)
Definition wp {A} (m : M A) (Q : Res A -> World -> Prop) (w : World) : Prop :=
  Q (fst (m w)) (snd (m w)).

(** The world once one more script entry is used up. *)
Definition next (w : World) : World := set_script (tail (script w)) w.

(** The world after a transaction that started in [w0] was rolled back
    in [w2]. *)
Definition rolled_back (w0 w2 : World) : World :=
  set_db (restore (db w0) (db w2)) (next w2).

(** ** Counters and join tables *)

(** The number of rows of [likes] that point at video [v]. *)
Definition like_count (d : Database) (v : Z) : Z :=
  Z.of_nat (List.length (filter (λ r, Like.videoId r = v) (likes d))).

(** The number of rows of [dislikes] that point at video [v]. *)
Definition dislike_count (d : Database) (v : Z) : Z :=
  Z.of_nat (List.length (filter (λ r, Dislike.videoId r = v) (dislikes d))).

(** No drift: on every video the two counters equal the numbers of rows. *)
Definition no_drift (d : Database) : Prop :=
  Forall (λ x, Video.likes x = Some (like_count d (Video.id x))
               ∧ Video.dislikes x = Some (dislike_count d (Video.id x)))
    (videos d).

(** The primary key of a row of [likes]. *)
Definition like_key (r : Like.t) : Z * Z := (Like.userId r, Like.videoId r).
Definition dislike_key (r : Dislike.t) : Z * Z := (Dislike.userId r, Dislike.videoId r).

(** No two rows of [likes], and no two rows of [dislikes], have the same
    key. *)
Definition keys_unique (d : Database) : Prop :=
  NoDup (map like_key (likes d)) ∧ NoDup (map dislike_key (dislikes d)).

(** A video with another value in one of its three counters. *)
Definition set_video_views (n : option Z) (x : Video.t) : Video.t :=
  Video.mk (Video.id x) (Video.title x) (Video.description x)
    (Video.thumbnail x) (Video.videoUrl x) (Video.category x)
    (Video.userId x) n (Video.likes x) (Video.dislikes x)
    (Video.createdAt x) (Video.featured x).

Definition set_video_likes (n : option Z) (x : Video.t) : Video.t :=
  Video.mk (Video.id x) (Video.title x) (Video.description x)
    (Video.thumbnail x) (Video.videoUrl x) (Video.category x)
    (Video.userId x) (Video.views x) n (Video.dislikes x)
    (Video.createdAt x) (Video.featured x).

Definition set_video_dislikes (n : option Z) (x : Video.t) : Video.t :=
  Video.mk (Video.id x) (Video.title x) (Video.description x)
    (Video.thumbnail x) (Video.videoUrl x) (Video.category x)
    (Video.userId x) (Video.views x) (Video.likes x) n
    (Video.createdAt x) (Video.featured x).

(** The videos table with [f] applied to the rows with id [v]. *)
Definition on_video (v : Z) (f : Video.t -> Video.t) (vs : list Video.t)
  : list Video.t :=
  map (λ x, if bool_decide (Video.id x = v) then f x else x) vs.

(** The videos table with [delta] added to a counter of the rows with id
    [v]; a [NULL] counter stays [NULL]. *)
Definition shift_views (v delta : Z) : list Video.t -> list Video.t :=
  on_video v (λ x, set_video_views ((λ n, n + delta) <$> Video.views x) x).

Definition shift_likes (v delta : Z) : list Video.t -> list Video.t :=
  on_video v (λ x, set_video_likes ((λ n, n + delta) <$> Video.likes x) x).

Definition shift_dislikes (v delta : Z) : list Video.t -> list Video.t :=
  on_video v (λ x, set_video_dislikes ((λ n, n + delta) <$> Video.dislikes x) x).

(** Every counter of the rows with id [v] can move by [delta] without
    leaving the 32-bit range. *)
Definition room (counter : Video.t -> option Z) (v delta : Z) (d : Database)
  : Prop :=
  forallb (λ x, if bool_decide (Video.id x = v)
                then match counter x with
                     | Some n => in_int4 (n + delta)
                     | None => true
                     end
                else true) (videos d) = true.

(** The rows of [likes] for the pair (u, v). *)
Definition likes_of (u v : Z) (d : Database) : list Like.t :=
  filter (λ r, Like.userId r = u ∧ Like.videoId r = v) (likes d).

(** The table [likes] without the rows of the pair (u, v). *)
Definition likes_but (u v : Z) (d : Database) : list Like.t :=
  filter (λ r, ¬ (Like.userId r = u ∧ Like.videoId r = v)) (likes d).

(** The rows of [dislikes] for the pair (u, v). *)
Definition dislikes_of (u v : Z) (d : Database) : list Dislike.t :=
  filter (λ r, Dislike.userId r = u ∧ Dislike.videoId r = v) (dislikes d).

(** The table [dislikes] without the rows of the pair (u, v). *)
Definition dislikes_but (u v : Z) (d : Database) : list Dislike.t :=
  filter (λ r, ¬ (Dislike.userId r = u ∧ Dislike.videoId r = v)) (dislikes d).

(** The database once the like [row] is stored and counted. *)
Definition liked (row : Like.t) (d : Database) : Database :=
  set_videos (shift_likes (Like.videoId row) 1 (videos d))
    (set_likes (likes d ++ [row]) d).

(** The database once the likes of the pair (u, v) are deleted, and
    uncounted if there was one. *)
Definition unliked (u v : Z) (d : Database) : Database :=
  set_videos (if bool_decide (likes_of u v d ≠ [])
              then shift_likes v (-1) (videos d) else videos d)
    (set_likes (likes_but u v d) d).

(** The database once the dislike [row] is stored and counted. *)
Definition disliked (row : Dislike.t) (d : Database) : Database :=
  set_videos (shift_dislikes (Dislike.videoId row) 1 (videos d))
    (set_dislikes (dislikes d ++ [row]) d).

(** The database once the dislikes of the pair (u, v) are deleted, and
    uncounted if there was one. *)
Definition undisliked (u v : Z) (d : Database) : Database :=
  set_videos (if bool_decide (dislikes_of u v d ≠ [])
              then shift_dislikes v (-1) (videos d) else videos d)
    (set_dislikes (dislikes_but u v d) d).

(** The rows of [watchlist] for the pair (u, v). *)
Definition watchlist_of (u v : Z) (d : Database) : list Watchlist.t :=
  filter (λ i, Watchlist.userId i = u ∧ Watchlist.videoId i = v) (watchlist d).

(** The table [watchlist] without the rows of the pair (u, v). *)
Definition watchlist_but (u v : Z) (d : Database) : list Watchlist.t :=
  filter (λ i, ¬ (Watchlist.userId i = u ∧ Watchlist.videoId i = v)) (watchlist d).

(** The row [addToWatchlist] inserts for the pair (u, v). *)
Definition watch_row (u v : Z) (w : World) : Watchlist.t :=
  Watchlist.mk (watchlist_id_seq (db w)) u v (Some (clock w)).

(** The database with this row. *)
Definition watched (row : Watchlist.t) (d : Database) : Database :=
  set_watchlist (watchlist d ++ [row])
    (set_watchlist_id_seq (watchlist_id_seq d + 1) d).

(** ** Videos and their files *)

(** The video with id [i], if any: what [getVideo] returns. *)
Definition video_of (i : Z) (d : Database) : option Video.t :=
  head (filter (λ x, Video.id x = i) (videos d)).

(** The file an uploaded path names, if the path is not empty. *)
Definition upload_file (url : string) : gset string :=
  if truthy url then {[ path_join_cwd (replace_uploads url) ]} else ∅.

(** The files of a video: the video itself and the thumbnail. *)
Definition files_of (v : Video.t) : gset string :=
  upload_file (Video.videoUrl v) ∪ upload_file (Video.thumbnail v).

(** The reason the moderation route reports. *)
Definition reason_given (body_reason : option string) : string :=
  match body_reason with
  | Some r => if truthy r then r else "Violation of community guidelines"
  | None => "Violation of community guidelines"
  end.

(** ** Storage operations as data *)

(** The operations of [IStorage] that write. *)
Inductive Operation :=
| Op_createUser (user : InsertUser.t)
| Op_updateUser (id : num) (updates : UpdateUser.t)
| Op_createVideo (video : InsertVideo.t)
| Op_updateVideo (id : num) (updates : UpdateVideo.t)
| Op_deleteVideo (id : num)
| Op_incrementViews (id : num)
| Op_addToWatchlist (item : InsertWatchlist.t)
| Op_removeFromWatchlist (userId videoId : num)
| Op_likeVideo (userId videoId : num)
| Op_unlikeVideo (userId videoId : num)
| Op_dislikeVideo (userId videoId : num)
| Op_undislikeVideo (userId videoId : num)
| Op_createComment (comment : InsertComment.t)
| Op_deleteComment (id userId : num)
| Op_updateComment (id userId : num) (updates : UpdateComment.t).

(** A call whose result is dropped. *)
Definition void {A} (m : M A) : M unit := _ ← m; mret ().

(** The storage method an operation stands for. *)
Definition perform (o : Operation) : M unit :=
  match o with
  | Op_createUser user => void (createUser user)
  | Op_updateUser id updates => void (updateUser id updates)
  | Op_createVideo video => void (createVideo video)
  | Op_updateVideo id updates => void (updateVideo id updates)
  | Op_deleteVideo id => void (deleteVideo id)
  | Op_incrementViews id => void (incrementViews id)
  | Op_addToWatchlist item => void (addToWatchlist item)
  | Op_removeFromWatchlist userId videoId => void (removeFromWatchlist userId videoId)
  | Op_likeVideo userId videoId => void (likeVideo userId videoId)
  | Op_unlikeVideo userId videoId => void (unlikeVideo userId videoId)
  | Op_dislikeVideo userId videoId => void (dislikeVideo userId videoId)
  | Op_undislikeVideo userId videoId => void (undislikeVideo userId videoId)
  | Op_createComment comment => void (createComment comment)
  | Op_deleteComment id userId => void (deleteComment id userId)
  | Op_updateComment id userId updates => void (updateComment id userId updates)
  end.

(** One call of a storage operation: when it runs and which of its
    statements fail. *)
Record Call := mkCall { op : Operation; at_time : Z; failures : list bool }.

(** The database after a call, whether it returned or threw. *)
Definition after (d : Database) (c : Call) : Database :=
  db (snd (perform (op c) (mkWorld d ∅ (at_time c) (failures c) 0))).

(** The database after a list of calls, one after the other. *)
Definition after_all (calls : list Call) (d : Database) : Database :=
  foldl after d calls.

(** The like, unlike, dislike, undislike, watchlist and comment operations. *)
Definition interaction (o : Operation) : bool :=
  match o with
  | Op_addToWatchlist _ | Op_removeFromWatchlist _ _
  | Op_likeVideo _ _ | Op_unlikeVideo _ _
  | Op_dislikeVideo _ _ | Op_undislikeVideo _ _
  | Op_createComment _ | Op_deleteComment _ _ | Op_updateComment _ _ _ => true
  | _ => false
  end.

(** The guard the routes put before [likeVideo] and [dislikeVideo]: the
    video is in the table. *)
Definition targets_existing_video (d : Database) (o : Operation) : Prop :=
  match o with
  | Op_likeVideo _ videoId | Op_dislikeVideo _ videoId =>
      Exists (λ x, Int (Video.id x) = videoId) (videos d)
  | _ => True
  end.

(** States reachable from the empty database by storage operations. *)
Inductive storage_reachable : Database -> Prop :=
| reach_empty : storage_reachable empty_db
| reach_call d c : storage_reachable d -> storage_reachable (after d c).

(** The same, with likes and dislikes only for videos that exist. *)
Inductive guarded_reachable : Database -> Prop :=
| guarded_empty : guarded_reachable empty_db
| guarded_call d c :
    guarded_reachable d -> targets_existing_video d (op c) ->
    guarded_reachable (after d c).

(** What one storage call can do to the videos table, the two join tables
    and the videos sequence. *)
Inductive Delta :=
| D_same                          (* none of them changes *)
| D_sequence                      (* only the sequence advances *)
| D_new_video (row : Video.t)     (* a video is inserted *)
| D_edit (f : Video.t -> Video.t) (* videos are rewritten in place *)
| D_delete (id : Z)               (* the videos with this id are deleted *)
| D_like (row : Like.t)
| D_unlike (u v : Z)
| D_dislike (row : Dislike.t)
| D_undislike (u v : Z).

(** [applies δ d d']: the change [δ] leads from [d] to [d']. *)
Definition applies (δ : Delta) (d d' : Database) : Prop :=
  match δ with
  | D_same =>
      videos d' = videos d ∧ likes d' = likes d ∧ dislikes d' = dislikes d
      ∧ videos_id_seq d' = videos_id_seq d
  | D_sequence =>
      videos d' = videos d ∧ likes d' = likes d ∧ dislikes d' = dislikes d
      ∧ videos_id_seq d' = videos_id_seq d + 1
  | D_new_video row =>
      videos d' = (videos d ++ [row])%list
      ∧ likes d' = likes d ∧ dislikes d' = dislikes d
      ∧ videos_id_seq d' = videos_id_seq d + 1
      ∧ Video.id row = videos_id_seq d
      ∧ ¬ Exists (λ x, Video.id x = Video.id row) (videos d)
      ∧ Video.views row = Some 0 ∧ Video.likes row = Some 0
      ∧ Video.dislikes row = Some 0
  | D_edit f =>
      videos d' = map f (videos d)
      ∧ likes d' = likes d ∧ dislikes d' = dislikes d
      ∧ videos_id_seq d' = videos_id_seq d
      ∧ ∀ x, Video.id (f x) = Video.id x ∧ Video.likes (f x) = Video.likes x
             ∧ Video.dislikes (f x) = Video.dislikes x
             ∧ (is_Some (Video.views x) → is_Some (Video.views (f x)))
  | D_delete id =>
      videos d' = filter (λ x, Video.id x ≠ id) (videos d)
      ∧ likes d' = likes d ∧ dislikes d' = dislikes d
      ∧ videos_id_seq d' = videos_id_seq d
  | D_like row =>
      likes_of (Like.userId row) (Like.videoId row) d = []
      ∧ videos d' = shift_likes (Like.videoId row) 1 (videos d)
      ∧ likes d' = (likes d ++ [row])%list ∧ dislikes d' = dislikes d
      ∧ videos_id_seq d' = videos_id_seq d
  | D_unlike u v =>
      videos d' = (if bool_decide (likes_of u v d ≠ [])
                   then shift_likes v (-1) (videos d) else videos d)
      ∧ likes d' = likes_but u v d ∧ dislikes d' = dislikes d
      ∧ videos_id_seq d' = videos_id_seq d
  | D_dislike row =>
      dislikes_of (Dislike.userId row) (Dislike.videoId row) d = []
      ∧ videos d' = shift_dislikes (Dislike.videoId row) 1 (videos d)
      ∧ likes d' = likes d ∧ dislikes d' = (dislikes d ++ [row])%list
      ∧ videos_id_seq d' = videos_id_seq d
  | D_undislike u v =>
      videos d' = (if bool_decide (dislikes_of u v d ≠ [])
                   then shift_dislikes v (-1) (videos d) else videos d)
      ∧ likes d' = likes d ∧ dislikes d' = dislikes_but u v d
      ∧ videos_id_seq d' = videos_id_seq d
  end.

(** Which operation can cause which change. *)
Definition caused_by (o : Operation) (δ : Delta) : Prop :=
  match δ with
  | D_same => True
  | D_sequence | D_new_video _ => ∃ video, o = Op_createVideo video
  | D_edit _ =>
      (∃ id updates, o = Op_updateVideo id updates)
      ∨ (∃ id, o = Op_incrementViews id)
  | D_delete _ => ∃ id, o = Op_deleteVideo id
  | D_like row => ∃ userId, o = Op_likeVideo userId (Int (Like.videoId row))
  | D_unlike _ _ => ∃ userId videoId, o = Op_unlikeVideo userId videoId
  | D_dislike row =>
      ∃ userId, o = Op_dislikeVideo userId (Int (Dislike.videoId row))
  | D_undislike _ _ => ∃ userId videoId, o = Op_undislikeVideo userId videoId
  end.

(** The invariant behind the absence of drift: the counters agree with
    the join tables, whose keys are unique, and neither a video nor a row
    of a join table carries a video id the sequence has yet to hand out. *)
Definition ids_issued (d : Database) : Prop :=
  Forall (λ x, Video.id x < videos_id_seq d) (videos d)
  ∧ Forall (λ r, Like.videoId r < videos_id_seq d) (likes d)
  ∧ Forall (λ r, Dislike.videoId r < videos_id_seq d) (dislikes d).

(** What holds of the videos of any database the storage operations
    produce: ids are unique and below the sequence, counters are set. *)
Definition videos_sound (d : Database) : Prop :=
  NoDup (map Video.id (videos d))
  ∧ Forall (λ x, Video.id x < videos_id_seq d
                 ∧ is_Some (Video.views x)) (videos d).

(** ** Search *)

(** In the words of the claim on search: [q] occurs in [s] as a substring,
    letters compared without regard to case.  First, [s] starts with [q]. *)
Fixpoint starts_with_ci (q s : string) : bool :=
  match q, s with
  | EmptyString, _ => true
  | String _ _, EmptyString => false
  | String a q', String b s' => same_letter a b && starts_with_ci q' s'
  end.

(** [q] occurs somewhere in [s]. *)
Fixpoint contains_ci (q s : string) : bool :=
  starts_with_ci q s
  || match s with
     | EmptyString => false
     | String _ s' => contains_ci q s'
     end.

(** The characters with a meaning of their own in a pattern. *)
Definition is_wildcard (c : ascii) : bool :=
  Ascii.eqb c "%" || Ascii.eqb c "_" || Ascii.eqb c "\".

(** A query without such characters. *)
Fixpoint plain (q : string) : bool :=
  match q with
  | EmptyString => true
  | String c q' => negb (is_wildcard c) && plain q'
  end.

(** The videos [searchVideos] selects. *)
Definition matching (query : string) (d : Database) : list Video.t :=
  filter (λ v, ilike (Some (Video.title v)) ("%" ++ query ++ "%")
               || ilike (Video.description v) ("%" ++ query ++ "%"))
    (videos d).

(** The videos whose title or description contains the query. *)
Definition containing (query : string) (d : Database) : list Video.t :=
  filter (λ v, contains_ci query (Video.title v)
               || match Video.description v with
                  | Some text => contains_ci query text
                  | None => false
                  end)
    (videos d).

(** ** Sample data *)

(** An upload of user 2. *)
Definition sample_video : InsertVideo.t :=
  InsertVideo.mk "abc" Absent "/uploads/t.png" "/uploads/v.mp4" "Action" 2
    (Val false).

(** One video, with id 1, uploaded by user 2. *)
Definition one_video_db : Database :=
  after empty_db (mkCall (Op_createVideo sample_video) 10 []).

(** The same after user 7 liked and disliked the video. *)
Definition voted_db : Database :=
  after_all [mkCall (Op_likeVideo (Int 7) (Int 1)) 11 [];
             mkCall (Op_dislikeVideo (Int 7) (Int 1)) 12 []] one_video_db.

(** The same after user 7 put the video on the watchlist. *)
Definition watched_db : Database :=
  after voted_db (mkCall (Op_addToWatchlist (InsertWatchlist.mk (Int 7) (Int 1))) 13 []).

(** A like for a video id that is not in the table yet, then the upload
    that is given this id. *)
Definition drifted_db : Database :=
  after_all [mkCall (Op_likeVideo (Int 7) (Int 1)) 5 [];
             mkCall (Op_createVideo sample_video) 10 []] empty_db.

(** The database with one video after user 7 commented on it. *)
Definition commented_db : Database :=
  after one_video_db
    (mkCall (Op_createComment (InsertComment.mk "nice" (Int 7) (Int 1))) 14 []).

(** The database with one video after two users registered, with ids 1
    and 2. *)
Definition members_db : Database :=
  after_all
    [mkCall (Op_createUser (InsertUser.mk "Gorilla Tag Dev" "x" Absent)) 15 [];
     mkCall (Op_createUser (InsertUser.mk "uploader" "y" Absent)) 16 []]
    one_video_db.

(** A world around a database: no files, no failures. *)
Definition world_of (d : Database) : World := mkWorld d ∅ 20 [] 0.

(** The administrator and two other users. *)
Definition admin_user : User.t := User.mk 1 "Gorilla Tag Dev" "x" None None None.
Definition uploader : User.t := User.mk 2 "uploader" "y" None None None.
Definition visitor : User.t := User.mk 7 "visitor" "z" None None None.

(** The database with one video, and the two uploaded files on disk. *)
Definition stocked_world : World :=
  mkWorld one_video_db {[ "uploads/v.mp4"; "uploads/t.png" ]} 20 [] 0.

(** A video whose likes counter is at the top of the 32-bit range. *)
Definition full_counter_db : Database :=
  mkDatabase []
    [Video.mk 1 "abc" None "/uploads/t.png" "/uploads/v.mp4" "Action" 2
       (Some 0) (Some int4_max) (Some 0) (Some 10) (Some false)]
    [] [] [] [] 1 2 1 1.

(** ** Requests *)

(** The HTTP method a route is registered for. *)
Inductive Method := GET | POST | PUT | DELETE.

Definition method (r : Request) : Method :=
  match r with
  | GET_videos | GET_videos_featured | GET_videos_popular _
  | GET_videos_category _ | GET_videos_search _ | GET_video _
  | GET_user _ | GET_user_videos _ | GET_watchlist | GET_user_watchlist _
  | GET_watchlist_check _ | GET_user_watchlist_check _ _
  | GET_likes_check _ | GET_dislikes_check _ | GET_video_comments _ => GET
  | POST_videos _ _ | POST_users _ | POST_user_avatar _ _ | POST_watchlist _
  | POST_likes _ | POST_dislikes _ | POST_video_comments _ _ => POST
  | PUT_video _ _ | PUT_user _ _ | PUT_comment _ _ => PUT
  | DELETE_video _ | DELETE_moderation_video _ _ | DELETE_watchlist _
  | DELETE_user_watchlist _ _ | DELETE_likes _ | DELETE_dislikes _
  | DELETE_comment _ => DELETE
  end.

(** The routes registered with [requireAuth]. *)
Definition protected (r : Request) : bool :=
  match r with
  | POST_videos _ _ | DELETE_video _ | DELETE_moderation_video _ _
  | POST_user_avatar _ _ | PUT_user _ _
  | GET_watchlist | POST_watchlist _ | DELETE_watchlist _ | GET_watchlist_check _
  | POST_likes _ | DELETE_likes _ | GET_likes_check _
  | POST_dislikes _ | DELETE_dislikes _ | GET_dislikes_check _
  | POST_video_comments _ _ | PUT_comment _ _ | DELETE_comment _ => true
  | _ => false
  end.

(** Counters, keys and ids together: what the like and dislike bookkeeping
    relies on and maintains. *)
Definition in_step (d : Database) : Prop :=
  no_drift d ∧ keys_unique d ∧ ids_issued d.

(** The databases the routes produce, starting from the empty one: any
    request, from any session, at any time, with any files on disk and any
    statements failing. *)
Inductive served : Database -> Prop :=
| served_empty : served empty_db
| served_request d user r files now failing :
    served d ->
    served (db (snd (handle user r (mkWorld d files now failing 0)))).

(** A computation that only reads: whatever the outcome, the database,
    the files and the clock are as before. *)
Definition reads {A} (m : M A) : Prop :=
  ∀ w, db (snd (m w)) = db w ∧ disk (snd (m w)) = disk w
       ∧ clock (snd (m w)) = clock w.

(** The handlers that begin by looking the video up, with the id they look
    up. *)
Definition video_looked_up (r : Request) : option num :=
  match r with
  | GET_video id | PUT_video id _ | DELETE_video id
  | POST_watchlist id | POST_likes id | POST_dislikes id
  | GET_video_comments id | POST_video_comments id _ => Some id
  | _ => None
  end.

(** ** Uploads *)

(** The row [createVideo] inserts in the world [w]. *)
Definition new_video (video : InsertVideo.t) (w : World) : Video.t :=
  Video.mk (videos_id_seq (db w)) (InsertVideo.title video)
    (or_null (InsertVideo.description video))
    (InsertVideo.thumbnail video) (InsertVideo.videoUrl video)
    (InsertVideo.category video) (InsertVideo.userId video)
    (Some 0) (Some 0) (Some 0) (Some (clock w))
    (or_default false (InsertVideo.featured video)).

(** The database with this row, and the sequence one further. *)
Definition uploaded (row : Video.t) (d : Database) : Database :=
  set_videos (videos d ++ [row]) (set_videos_id_seq (videos_id_seq d + 1) d).

(** The database after an insert into [videos] that took an id and was
    then refused. *)
Definition sequence_moved (d : Database) : Database :=
  set_videos_id_seq (videos_id_seq d + 1) d.

(** ** Comments *)

(** The comments with id [i] written by user [u]. *)
Definition comments_of (i u : Z) (d : Database) : list Comment.t :=
  filter (λ c, Comment.id c = i ∧ Comment.userId c = u) (comments d).

(** The table [comments] without them. *)
Definition comments_but (i u : Z) (d : Database) : list Comment.t :=
  filter (λ c, ¬ (Comment.id c = i ∧ Comment.userId c = u)) (comments d).

(** The table [comments] with the content of these comments replaced. *)
Definition comments_edited (i u : Z) (text : string) (d : Database)
  : list Comment.t :=
  map (λ c, if bool_decide (Comment.id c = i ∧ Comment.userId c = u)
            then change_comment (UpdateComment.mk text) c else c) (comments d).

(** Everything in a comment but its content. *)
Definition comment_header (c : Comment.t) : Z * Z * Z * option Z :=
  (Comment.id c, Comment.userId c, Comment.videoId c, Comment.createdAt c).

(** The comments written by others than [u]. *)
Definition comments_by_others (u : Z) (d : Database) : list Comment.t :=
  filter (λ c, Comment.userId c ≠ u) (comments d).

(** The row [createComment] inserts in the world [w]. *)
Definition new_comment (text : string) (u v : Z) (w : World) : Comment.t :=
  Comment.mk (comments_id_seq (db w)) text u v (Some (clock w)).

(** The database with this row, and the sequence one further. *)
Definition commented (row : Comment.t) (d : Database) : Database :=
  set_comments (comments d ++ [row])
    (set_comments_id_seq (comments_id_seq d + 1) d).

(** ** Tables and files a request can touch *)

Inductive Table :=
| T_users | T_videos | T_watchlist | T_likes | T_dislikes | T_comments.

(** The content of a table: its rows and, where it has a serial column,
    the sequence behind it. *)
Inductive Rows :=
| R_users (rows : list User.t) (seq : Z)
| R_videos (rows : list Video.t) (seq : Z)
| R_watchlist (rows : list Watchlist.t) (seq : Z)
| R_likes (rows : list Like.t)
| R_dislikes (rows : list Dislike.t)
| R_comments (rows : list Comment.t) (seq : Z).

Definition rows_of (t : Table) (d : Database) : Rows :=
  match t with
  | T_users => R_users (users d) (users_id_seq d)
  | T_videos => R_videos (videos d) (videos_id_seq d)
  | T_watchlist => R_watchlist (watchlist d) (watchlist_id_seq d)
  | T_likes => R_likes (likes d)
  | T_dislikes => R_dislikes (dislikes d)
  | T_comments => R_comments (comments d) (comments_id_seq d)
  end.

(** A computation that leaves table [t] as it is, whatever the outcome. *)
Definition keeps {A} (t : Table) (m : M A) : Prop :=
  ∀ w, rows_of t (db (snd (m w))) = rows_of t (db w).

(** The tables the handler of a route sends writing statements to. *)
Definition writes (r : Request) (t : Table) : bool :=
  match r, t with
  | (GET_video _ | POST_videos _ _ | PUT_video _ _ | DELETE_video _
     | DELETE_moderation_video _ _), T_videos => true
  | (POST_users _ | POST_user_avatar _ _ | PUT_user _ _), T_users => true
  | (POST_watchlist _ | DELETE_watchlist _ | DELETE_user_watchlist _ _),
    T_watchlist => true
  | (POST_likes _ | DELETE_likes _), (T_likes | T_videos) => true
  | (POST_dislikes _ | DELETE_dislikes _), (T_dislikes | T_videos) => true
  | (POST_video_comments _ _ | PUT_comment _ _ | DELETE_comment _),
    T_comments => true
  | _, _ => false
  end.

(** The routes whose handler calls [fs.unlinkSync]. *)
Definition removes_files (r : Request) : bool :=
  match r with
  | DELETE_video _ | DELETE_moderation_video _ _ => true
  | _ => false
  end.

(** The files after a computation, against the files before: the same, or
    some of them if files may be removed. *)
Definition files_after (may_remove : bool) (after before : gset string) : Prop :=
  if may_remove then after ⊆ before else after = before.

Definition files_stay {A} (may_remove : bool) (m : M A) : Prop :=
  ∀ w, files_after may_remove (disk (snd (m w))) (disk w).

(** ** Users *)

(** A row of [users] with the new values, or as it was if they are
    refused. *)
Definition edited_user (updates : UpdateUser.t) (x : User.t) : User.t :=
  match change_user updates x with Ok y => y | Throw _ => x end.

(** The table [users] with the rows of id [i] edited. *)
Definition users_edited (i : Z) (updates : UpdateUser.t) (d : Database)
  : list User.t :=
  map (λ x, if bool_decide (User.id x = i) then edited_user updates x else x)
    (users d).

(** The row [createUser] inserts in the world [w]. *)
Definition new_user (user : InsertUser.t) (w : World) : User.t :=
  User.mk (users_id_seq (db w)) (InsertUser.username user)
    (InsertUser.password user) (or_null (InsertUser.avatar user)) None
    (Some (clock w)).

(** The database with this row, and the sequence one further. *)
Definition registered (row : User.t) (d : Database) : Database :=
  set_users (users d ++ [row]) (set_users_id_seq (users_id_seq d + 1) d).

(** The user with this name, if any: what [getUserByUsername] returns. *)
Definition user_named (name : string) (d : Database) : option User.t :=
  head (filter (λ x, User.username x = name) (users d)).

(** The user with this id, if any: what [getUser] returns. *)
Definition user_of (i : Z) (d : Database) : option User.t :=
  head (filter (λ x, User.id x = i) (users d)).

(** Names and ids identify users, and no id is ahead of the sequence. *)
Definition users_sound (d : Database) : Prop :=
  NoDup (map User.username (users d))
  ∧ NoDup (map User.id (users d))
  ∧ Forall (λ x, User.id x < users_id_seq d) (users d).

(** The users other than [u]. *)
Definition other_users (u : Z) (d : Database) : list User.t :=
  filter (λ x, User.id x ≠ u) (users d).

(** The row with another avatar. *)
Definition with_avatar (path : string) (x : User.t) : User.t :=
  User.mk (User.id x) (User.username x) (User.password x) (Some path)
    (User.bio x) (User.createdAt x).

(** The row with another password. *)
Definition with_password (p : string) (x : User.t) : User.t :=
  User.mk (User.id x) (User.username x) p (User.avatar x)
    (User.bio x) (User.createdAt x).

(** ** Listings *)

(** [a] comes before [b] in descending order of [key]. *)
Definition desc_before {A} (key : A -> option Z) (a b : A) : Prop :=
  desc_le (key a) (key b) = true.

(** Video [x] is on the watchlist of user [u]: a row of [watchlist] of
    this user points at it. *)
Definition on_watchlist (u : Z) (x : Video.t) (d : Database) : Prop :=
  ∃ item, item ∈ watchlist d ∧ Watchlist.userId item = u
          ∧ Watchlist.videoId item = Video.id x.

(** ** Votes *)

(** The videos with the likes counter blanked: everything but this
    counter. *)
Definition videos_but_likes (d : Database) : list Video.t :=
  map (set_video_likes None) (videos d).

(** The videos with the dislikes counter blanked. *)
Definition videos_but_dislikes (d : Database) : list Video.t :=
  map (set_video_dislikes None) (videos d).

(** ** Updates of a video *)

(** What an update of a video leaves alone: id, file, owner, the three
    counters and the time of the upload. *)
Definition video_identity (x : Video.t)
  : Z * string * Z * option Z * option Z * option Z * option Z :=
  (Video.id x, Video.videoUrl x, Video.userId x, Video.views x, Video.likes x,
   Video.dislikes x, Video.createdAt x).

(** ** The video page of the client ([client/src/lib/video-utils.ts])

    The client's [Video] is the row type of the schema. *)

(** [l.slice(0, limit)]: a negative limit counts from the end, [NaN]
    counts as 0. *)
Definition slice_to {A} (limit : num) (l : list A) : list A :=
  match limit with
  | NaN => []
  | Int n =>
      if n <? 0 then take (List.length l - Z.to_nat (- n)) l
      else take (Z.to_nat n) l
  end.

(** [a >= b] on numbers: false when [b] is [NaN]. *)
Definition length_ge {A} (l : list A) (limit : num) : bool :=
  match limit with
  | NaN => false
  | Int n => n <=? Z.of_nat (List.length l)
  end.

(** Get related videos based on category.  The caller passes the limit;
    the default of the parameter is 10. *)
Definition getRelatedVideos (currentVideo : Video.t) (allVideos : list Video.t)
    (limit : num) : list Video.t :=
  (* First get videos with the same category *)
  let sameCategoryVideos :=
    filter (λ video, Video.id video ≠ Video.id currentVideo
                     ∧ Video.category video = Video.category currentVideo)
      allVideos in
  (* If we have enough videos with the same category, return them *)
  if length_ge sameCategoryVideos limit then slice_to limit sameCategoryVideos
  else
    (* Otherwise, add other videos until we reach the limit *)
    let otherVideos :=
      filter (λ video, Video.id video ≠ Video.id currentVideo
                       ∧ Video.category video ≠ Video.category currentVideo)
        allVideos in
    slice_to limit (sameCategoryVideos ++ otherVideos).

(** The videos other than [cur] of its category, and of the other
    categories. *)
Definition same_category (cur : Video.t) (all : list Video.t) : list Video.t :=
  filter (λ x, Video.id x ≠ Video.id cur ∧ Video.category x = Video.category cur) all.

Definition other_category (cur : Video.t) (all : list Video.t) : list Video.t :=
  filter (λ x, Video.id x ≠ Video.id cur ∧ Video.category x ≠ Video.category cur) all.

(** * Properties *)

(** ** Statements on the videos table *)

Lemma update_where_Ok_map {A} (p : A -> bool) (change : A -> Res A) (f : A -> A)
    (rows rows' : list A) :
  (∀ x y, change x = Ok y → y = f x) →
  update_where p change rows = Ok rows' →
  rows' = map (λ x, if p x then f x else x) rows.
Proof.
  intros Hf. revert rows'.
  induction rows as [|r rest IH]; intros rows' H; simpl in H.
  - by inversion H.
  - destruct (p r) eqn:Hp.
    + destruct (change r) as [y|] eqn:Hc; simpl in H; [|done].
      destruct (update_where p change rest) as [rest'|] eqn:Hr; simpl in H; [|done].
      inversion H; subst. simpl. rewrite Hp.
      by rewrite (Hf _ _ Hc), (IH _ eq_refl).
    + simpl in H.
      destruct (update_where p change rest) as [rest'|] eqn:Hr; simpl in H; [|done].
      inversion H; subst. simpl. rewrite Hp. by rewrite (IH _ eq_refl).
Qed.

Lemma update_where_map_Ok {A} (p : A -> bool) (change : A -> Res A) (f : A -> A)
    (rows : list A) :
  Forall (λ x, p x = true → change x = Ok (f x)) rows →
  update_where p change rows = Ok (map (λ x, if p x then f x else x) rows).
Proof.
  induction 1 as [|r rest Hr _ IH]; simpl; [done|].
  destruct (p r) eqn:Hp.
  - rewrite (Hr eq_refl). simpl. by rewrite IH.
  - simpl. by rewrite IH.
Qed.

Lemma int4_add_Ok col delta n :
  int4_add col delta = Ok n → n = (λ k, k + delta) <$> col.
Proof.
  destruct col as [k|]; simpl; [|by inversion 1].
  destruct (in_int4 (k + delta)); by inversion 1.
Qed.

Lemma int4_add_room col delta :
  (∀ k, col = Some k → in_int4 (k + delta) = true) →
  int4_add col delta = Ok ((λ k, k + delta) <$> col).
Proof.
  destruct col as [k|]; simpl; [|done].
  intros H. by rewrite (H k eq_refl).
Qed.

Lemma bump_views_Ok delta x y :
  bump_views delta x = Ok y →
  y = set_video_views ((λ n, n + delta) <$> Video.views x) x.
Proof.
  unfold bump_views. destruct (int4_add _ _) as [n|] eqn:H; simpl; [|done].
  apply int4_add_Ok in H. by inversion 1; subst.
Qed.

Lemma bump_likes_Ok delta x y :
  bump_likes delta x = Ok y →
  y = set_video_likes ((λ n, n + delta) <$> Video.likes x) x.
Proof.
  unfold bump_likes. destruct (int4_add _ _) as [n|] eqn:H; simpl; [|done].
  apply int4_add_Ok in H. by inversion 1; subst.
Qed.

Lemma bump_dislikes_Ok delta x y :
  bump_dislikes delta x = Ok y →
  y = set_video_dislikes ((λ n, n + delta) <$> Video.dislikes x) x.
Proof.
  unfold bump_dislikes. destruct (int4_add _ _) as [n|] eqn:H; simpl; [|done].
  apply int4_add_Ok in H. by inversion 1; subst.
Qed.

(** What [UPDATE videos SET c = c + delta WHERE id = v] does when it does
    not fail, for each of the three counters. *)
Lemma update_videos_Ok (change : Video.t -> Res Video.t)
    (f : Video.t -> Video.t) v d rows d' :
  (∀ x y, change x = Ok y → y = f x) →
  update_videos (Int v) change d = (Ok rows, d') →
  in_int4 v = true ∧ d' = set_videos (on_video v f (videos d)) d
  ∧ rows = filter (λ x, Video.id x = v) (on_video v f (videos d)).
Proof.
  intros Hf. unfold update_videos, int4_param.
  destruct (in_int4 v); simpl; [|by inversion 1].
  destruct (update_where _ _ _) as [rows'|] eqn:Hu; simpl; [|by inversion 1].
  apply (update_where_Ok_map _ _ f) in Hu; [|done].
  inversion 1; subst. done.
Qed.

Lemma update_videos_Throw (change : Video.t -> Res Video.t) id d e d' :
  update_videos id change d = (Throw e, d') → d' = d.
Proof.
  unfold update_videos.
  destruct (int4_param id) as [i|]; simpl; [|by inversion 1].
  destruct (update_where _ _ _); simpl; by inversion 1.
Qed.

Lemma update_videos_room (change : Video.t -> Res Video.t)
    (f : Video.t -> Video.t) v d :
  in_int4 v = true →
  Forall (λ x, Video.id x = v → change x = Ok (f x)) (videos d) →
  update_videos (Int v) change d
  = (Ok (filter (λ x, Video.id x = v) (on_video v f (videos d))),
     set_videos (on_video v f (videos d)) d).
Proof.
  intros Hv Hroom. unfold update_videos, int4_param. rewrite Hv. simpl.
  rewrite (update_where_map_Ok _ _ f); [done|].
  eapply Forall_impl; [exact Hroom|]. intros x Hx Hp. simpl in Hx.
  apply Hx. by apply bool_decide_eq_true in Hp.
Qed.

(** ** Reasoning about computations

    One rule per construct of the world monad: what has to hold for [wp]
    of a return, a bind, a statement, a transaction, a file operation. *)

Lemma wp_ret {A} (a : A) Q w : Q (Ok a) w → wp (mret a) Q w.
Proof. done. Qed.

Lemma wp_throw {A} e (Q : Res A -> World -> Prop) w :
  Q (Throw e) (set_raised (S (raised w)) w) → wp (throw e) Q w.
Proof. done. Qed.

Lemma wp_bind {A B} (m : M A) (f : A -> M B) Q w :
  wp m (λ r w1, match r with
                | Ok a => wp (f a) Q w1
                | Throw e => Q (Throw e) w1
                end) w →
  wp (m ≫= f) Q w.
Proof.
  unfold wp, mbind, M_bind. by destruct (m w) as [[a|e] w1].
Qed.

Lemma wp_mono {A} (m : M A) (Q Q' : Res A -> World -> Prop) w :
  wp m Q w → (∀ r w', Q r w' → Q' r w') → wp m Q' w.
Proof. unfold wp. auto. Qed.

Lemma wp_try_catch {A} (body : M A) handler Q w :
  wp body (λ r w1, match r with
                   | Ok a => Q (Ok a) w1
                   | Throw e => wp (handler e) Q w1
                   end) w →
  wp (try_catch body handler) Q w.
Proof.
  unfold wp, try_catch. by destruct (body w) as [[a|e] w1].
Qed.

Lemma wp_attempt e Q w :
  (hd false (script w) = true → ∀ n, Q (Throw e) (set_raised n (next w))) →
  (hd false (script w) = false → Q (Ok ()) (next w)) →
  wp (attempt e) Q w.
Proof.
  unfold wp, attempt. simpl. destruct (hd false (script w)); simpl; auto.
Qed.

Lemma wp_sql {A} (stmt : Z -> Database -> Res A * Database) Q w :
  (hd false (script w) = true → ∀ e n, Q (Throw e) (set_raised n (next w))) →
  (hd false (script w) = false →
   match fst (stmt (clock w) (db w)) with
   | Ok a => Q (Ok a) (set_db (snd (stmt (clock w) (db w))) (next w))
   | Throw e =>
       ∀ n, Q (Throw e)
              (set_raised n (set_db (snd (stmt (clock w) (db w))) (next w)))
   end) →
  wp (sql stmt) Q w.
Proof.
  intros Hfail Hrun. unfold sql. apply wp_bind, wp_attempt.
  - intros H n. by apply Hfail.
  - intros H. unfold wp. simpl.
    specialize (Hrun H). destruct (stmt (clock w) (db w)) as [[a|e] d]; simpl in *.
    + done.
    + apply Hrun.
Qed.

Lemma wp_select {A} (q : Database -> Res A) Q w :
  (hd false (script w) = true → ∀ e n, Q (Throw e) (set_raised n (next w))) →
  (hd false (script w) = false →
   match q (db w) with
   | Ok a => Q (Ok a) (next w)
   | Throw e => ∀ n, Q (Throw e) (set_raised n (next w))
   end) →
  wp (select q) Q w.
Proof.
  intros Hfail Hrun. apply wp_sql; [done|]. intros H. specialize (Hrun H).
  simpl. by destruct (q (db w)).
Qed.

Lemma wp_transaction {A} (body : M A) Q w :
  (hd false (script w) = true → ∀ e n, Q (Throw e) (set_raised n (next w))) →
  (hd false (script w) = false →
   wp body (λ r w2,
     match r with
     | Ok a =>
         (hd false (script w2) = false → Q (Ok a) (next w2))
         ∧ (hd false (script w2) = true →
            ∀ e n, Q (Throw e) (set_raised n (rolled_back (next w) (next w2))))
     | Throw _ => ∀ e n, Q (Throw e) (set_raised n (rolled_back (next w) w2))
     end) (next w)) →
  wp (transaction body) Q w.
Proof.
  intros Hfail Hrun. unfold wp, transaction, attempt in *. simpl.
  destruct (hd false (script w)); [by apply Hfail|].
  specialize (Hrun eq_refl). fold (next w) in *. simpl.
  destruct (body (next w)) as [[a|e] w2]; simpl in *.
  - destruct Hrun as [Hok Hko].
    destruct (hd false (script w2)); simpl; [|by apply Hok].
    specialize (Hko eq_refl).
    destruct (hd false (tail (script w2))); simpl; apply Hko.
  - destruct (hd false (script w2)); simpl; apply Hrun.
Qed.

Lemma wp_existsSync p Q w :
  Q (Ok (bool_decide (p ∈ disk w))) w → wp (existsSync p) Q w.
Proof. done. Qed.

Lemma wp_unlinkSync p Q w :
  (hd false (script w) = true → ∀ n, Q (Throw FsError) (set_raised n (next w))) →
  (hd false (script w) = false → p ∉ disk w →
   ∀ n, Q (Throw FsError) (set_raised n (next w))) →
  (hd false (script w) = false → p ∈ disk w →
   Q (Ok ()) (set_disk (disk w ∖ {[p]}) (next w))) →
  wp (unlinkSync p) Q w.
Proof.
  intros Hfail Hmiss Hrun. unfold unlinkSync. apply wp_bind, wp_attempt; [done|].
  intros H. unfold wp. simpl. case_bool_decide; simpl; auto.
Qed.

(** Restoring the tables of a database whose sequences did not move gives
    the database back. *)
Lemma restore_same_sequences saved current :
  users_id_seq current = users_id_seq saved →
  videos_id_seq current = videos_id_seq saved →
  watchlist_id_seq current = watchlist_id_seq saved →
  comments_id_seq current = comments_id_seq saved →
  restore saved current = saved.
Proof.
  destruct saved, current; simpl; intros; subst; done.
Qed.

(** ** The like and dislike operations, statement by statement *)

Ltac open_world w := destruct w as [[] ? ? ? ?]; simpl in *; try done.

Lemma room_Forall counter v delta d :
  room counter v delta d →
  Forall (λ x, Video.id x = v →
               ∀ n, counter x = Some n → in_int4 (n + delta) = true)
    (videos d).
Proof.
  unfold room. intros H. apply Forall_forall. intros x Hx Hid n Hn.
  apply list_elem_of_In in Hx.
  pose proof (proj1 (forallb_forall _ _) H x Hx) as Hb. simpl in Hb.
  rewrite bool_decide_eq_true_2 in Hb by done. by rewrite Hn in Hb.
Qed.

Lemma quiet_hd s : quiet s → hd false s = false.
Proof. destruct 1; simpl; done. Qed.

Lemma quiet_tail s : quiet s → quiet (tail s).
Proof. destruct 1; simpl; [constructor|done]. Qed.

Lemma pair_param_cases x y :
  (∃ u v, x = Int u ∧ y = Int v ∧ in_int4 u = true ∧ in_int4 v = true
          ∧ pair_param x y = Ok (u, v))
  ∨ (∃ e, pair_param x y = Throw e).
Proof.
  unfold pair_param, int4_param.
  destruct x as [|u]; [right; by eexists|].
  destruct (in_int4 u) eqn:Hu; [|right; by eexists].
  destruct y as [|v]; [right; by eexists|].
  destruct (in_int4 v) eqn:Hv; [|right; by eexists].
  left. by exists u, v.
Qed.

Lemma pair_param_Int u v :
  in_int4 u = true → in_int4 v = true → pair_param (Int u) (Int v) = Ok (u, v).
Proof. intros Hu Hv. unfold pair_param, int4_param. by rewrite Hu, Hv. Qed.

Lemma filter_nil_not_Exists {A} (P : A -> Prop) `{∀ x, Decision (P x)} (l : list A) :
  filter P l = [] → ¬ Exists P l.
Proof.
  intros Hnil Hex. apply Exists_exists in Hex as (r & Hin & Hr).
  assert (r ∈ filter P l) as Hf by (by apply list_elem_of_filter).
  rewrite Hnil in Hf. by apply not_elem_of_nil in Hf.
Qed.

Lemma length_pos_nil {A} (l : list A) :
  bool_decide (0 < List.length l)%nat = bool_decide (l ≠ []).
Proof.
  destruct l.
  - by rewrite !bool_decide_eq_false_2 by (simpl; first [lia | auto]).
  - by rewrite !bool_decide_eq_true_2 by (simpl; first [lia | done]).
Qed.

(** Every outcome of [likeVideo]. *)
Lemma likeVideo_spec (userId videoId : num) (w : World) :
  wp (likeVideo userId videoId) (λ r w',
    disk w' = disk w ∧ clock w' = clock w
    ∧ match r with
      | Ok row =>
          ∃ u v, userId = Int u ∧ videoId = Int v
                 ∧ in_int4 u = true ∧ in_int4 v = true
                 ∧ ((likes_of u v (db w) ≠ [] ∧ row = head (likes_of u v (db w))
                     ∧ db w' = db w)
                    ∨ (likes_of u v (db w) = []
                       ∧ row = Some (Like.mk u v (Some (clock w)))
                       ∧ db w' = liked (Like.mk u v (Some (clock w))) (db w)))
      | Throw _ => db w' = db w
      end) w.
Proof.
  unfold likeVideo. apply wp_bind, wp_select; [done|]. intros _.
  unfold like_rows.
  destruct (pair_param_cases userId videoId)
    as [(u & v & -> & -> & Hu & Hv & Hp)|[e Hp]]; rewrite Hp; simpl; [|done].
  fold (likes_of u v (db w)).
  rewrite length_pos_nil. case_bool_decide as Hex.
  { apply wp_ret. simpl. repeat split; try done. exists u, v. auto 10. }
  apply wp_transaction; [done|]. intros _.
  apply wp_bind, wp_sql; [intros; open_world w|]. intros _.
  unfold insert_like. simpl. rewrite Hp.
  rewrite bool_decide_eq_false_2 by (by apply (filter_nil_not_Exists _ _)).
  simpl. apply wp_bind, wp_sql; [intros; open_world w|]. intros _. simpl.
  destruct (update_videos _ _ _) as [[rows|e] d'] eqn:Hup; simpl.
  - apply (update_videos_Ok _ _ _ _ _ _ (bump_likes_Ok 1)) in Hup as (_ & -> & _).
    apply wp_ret. simpl. split.
    + intros _. repeat split; try done. exists u, v. repeat split; try done.
      right. done.
    + intros _ e. open_world w.
  - apply update_videos_Throw in Hup as ->. intros e'. open_world w.
Qed.

(** [likeVideo] returns when nothing fails and the counter has room. *)
Lemma likeVideo_returns (u v : Z) (w : World) :
  quiet (script w) → in_int4 u = true → in_int4 v = true →
  (likes_of u v (db w) = [] → room Video.likes v 1 (db w)) →
  ∃ row, fst (likeVideo (Int u) (Int v) w) = Ok row.
Proof.
  intros Hq Hu Hv Hroom.
  pose proof (quiet_hd _ Hq) as H0.
  pose proof (quiet_hd _ (quiet_tail _ Hq)) as H1.
  pose proof (quiet_hd _ (quiet_tail _ (quiet_tail _ Hq))) as H2.
  pose proof (quiet_hd _ (quiet_tail _ (quiet_tail _ (quiet_tail _ Hq)))) as H3.
  pose proof (quiet_hd _ (quiet_tail _ (quiet_tail _ (quiet_tail _ (quiet_tail _ Hq))))) as H4.
  unfold likeVideo, select, sql, transaction, attempt, mbind, M_bind, mret, M_ret.
  simpl. rewrite H0. simpl. unfold like_rows. rewrite (pair_param_Int _ _ Hu Hv).
  simpl. fold (likes_of u v (db w)). rewrite length_pos_nil.
  case_bool_decide as Hex; simpl; [by eexists|].
  specialize (Hroom Hex).
  rewrite H1. simpl. rewrite H2. simpl.
  unfold insert_like. rewrite (pair_param_Int _ _ Hu Hv).
  rewrite bool_decide_eq_false_2 by (by apply (filter_nil_not_Exists _ _)).
  simpl. rewrite H3. simpl.
  erewrite (update_videos_room _ (λ x, set_video_likes ((λ n, n + 1) <$> Video.likes x) x)); [| done |].
  - simpl. rewrite H4. simpl. by eexists.
  - simpl. eapply Forall_impl; [exact (room_Forall _ _ _ _ Hroom)|]. simpl. intros x Hx Hid.
    unfold bump_likes. rewrite int4_add_room; [done|]. by apply Hx.
Qed.

(** Every outcome of [unlikeVideo]. *)
Lemma unlikeVideo_spec (userId videoId : num) (w : World) :
  wp (unlikeVideo userId videoId) (λ r w',
    disk w' = disk w ∧ clock w' = clock w
    ∧ match r with
      | Ok removed =>
          ∃ u v, userId = Int u ∧ videoId = Int v
                 ∧ in_int4 u = true ∧ in_int4 v = true
                 ∧ removed = bool_decide (likes_of u v (db w) ≠ [])
                 ∧ db w' = unliked u v (db w)
      | Throw _ => db w' = db w
      end) w.
Proof.
  unfold unlikeVideo. apply wp_transaction; [done|]. intros _.
  apply wp_bind, wp_sql; [intros; open_world w|]. intros _.
  unfold delete_like.
  destruct (pair_param_cases userId videoId)
    as [(u & v & -> & -> & Hu & Hv & Hp)|[e Hp]]; rewrite Hp; simpl;
    [|intros; open_world w].
  fold (likes_of u v (db w)) (likes_but u v (db w)).
  rewrite length_pos_nil. apply wp_bind.
  destruct (bool_decide (likes_of u v (db w) ≠ [])) eqn:Hex.
  - apply wp_bind, wp_sql; [intros; open_world w|]. intros _. simpl.
    destruct (update_videos _ _ _) as [[rows|e] d'] eqn:Hup; simpl.
    + apply (update_videos_Ok _ _ _ _ _ _ (bump_likes_Ok (-1))) in Hup as (_ & -> & _).
      apply wp_ret, wp_ret. simpl. split.
      * intros _. repeat split; try done. exists u, v.
        unfold unliked. rewrite Hex. done.
      * intros _ e. open_world w.
    + apply update_videos_Throw in Hup as ->. intros e'. open_world w.
  - apply wp_ret, wp_ret. simpl. split.
    + intros _. repeat split; try done. exists u, v.
      unfold unliked. rewrite Hex. done.
    + intros _ e. open_world w.
Qed.

(** [unlikeVideo] returns when nothing fails and the counter has room. *)
Lemma unlikeVideo_returns (u v : Z) (w : World) :
  quiet (script w) → in_int4 u = true → in_int4 v = true →
  (likes_of u v (db w) ≠ [] → room Video.likes v (-1) (db w)) →
  ∃ removed, fst (unlikeVideo (Int u) (Int v) w) = Ok removed.
Proof.
  intros Hq Hu Hv Hroom.
  pose proof (quiet_hd _ Hq) as H0.
  pose proof (quiet_hd _ (quiet_tail _ Hq)) as H1.
  pose proof (quiet_hd _ (quiet_tail _ (quiet_tail _ Hq))) as H2.
  pose proof (quiet_hd _ (quiet_tail _ (quiet_tail _ (quiet_tail _ Hq)))) as H3.
  unfold unlikeVideo, sql, transaction, attempt, mbind, M_bind, mret, M_ret.
  simpl. rewrite H0. simpl. rewrite H1. simpl.
  unfold delete_like. rewrite (pair_param_Int _ _ Hu Hv).
  simpl. fold (likes_of u v (db w)). rewrite length_pos_nil.
  case_bool_decide as Hex; simpl.
  - specialize (Hroom Hex). rewrite H2. simpl.
    erewrite (update_videos_room _ (λ x, set_video_likes ((λ n, n + -1) <$> Video.likes x) x)); [| done |].
    + simpl. rewrite H3. simpl. by eexists.
    + simpl. eapply Forall_impl; [exact (room_Forall _ _ _ _ Hroom)|]. simpl. intros x Hx Hid.
      unfold bump_likes. rewrite int4_add_room; [done|]. by apply Hx.
  - rewrite H2. simpl. by eexists.
Qed.

(** Every outcome of [dislikeVideo]. *)
Lemma dislikeVideo_spec (userId videoId : num) (w : World) :
  wp (dislikeVideo userId videoId) (λ r w',
    disk w' = disk w ∧ clock w' = clock w
    ∧ match r with
      | Ok row =>
          ∃ u v, userId = Int u ∧ videoId = Int v
                 ∧ in_int4 u = true ∧ in_int4 v = true
                 ∧ ((dislikes_of u v (db w) ≠ []
                     ∧ row = head (dislikes_of u v (db w)) ∧ db w' = db w)
                    ∨ (dislikes_of u v (db w) = []
                       ∧ row = Some (Dislike.mk u v (Some (clock w)))
                       ∧ db w' = disliked (Dislike.mk u v (Some (clock w))) (db w)))
      | Throw _ => db w' = db w
      end) w.
Proof.
  unfold dislikeVideo. apply wp_bind, wp_select; [done|]. intros _.
  unfold dislike_rows.
  destruct (pair_param_cases userId videoId)
    as [(u & v & -> & -> & Hu & Hv & Hp)|[e Hp]]; rewrite Hp; simpl; [|done].
  fold (dislikes_of u v (db w)).
  rewrite length_pos_nil. case_bool_decide as Hex.
  { apply wp_ret. simpl. repeat split; try done. exists u, v. auto 10. }
  apply wp_transaction; [done|]. intros _.
  apply wp_bind, wp_sql; [intros; open_world w|]. intros _.
  unfold insert_dislike. simpl. rewrite Hp.
  rewrite bool_decide_eq_false_2 by (by apply (filter_nil_not_Exists _ _)).
  simpl. apply wp_bind, wp_sql; [intros; open_world w|]. intros _. simpl.
  destruct (update_videos _ _ _) as [[rows|e] d'] eqn:Hup; simpl.
  - apply (update_videos_Ok _ _ _ _ _ _ (bump_dislikes_Ok 1)) in Hup as (_ & -> & _).
    apply wp_ret. simpl. split.
    + intros _. repeat split; try done. exists u, v. repeat split; try done.
      right. done.
    + intros _ e. open_world w.
  - apply update_videos_Throw in Hup as ->. intros e'. open_world w.
Qed.

Lemma dislikeVideo_returns (u v : Z) (w : World) :
  quiet (script w) → in_int4 u = true → in_int4 v = true →
  (dislikes_of u v (db w) = [] → room Video.dislikes v 1 (db w)) →
  ∃ row, fst (dislikeVideo (Int u) (Int v) w) = Ok row.
Proof.
  intros Hq Hu Hv Hroom.
  pose proof (quiet_hd _ Hq) as H0.
  pose proof (quiet_hd _ (quiet_tail _ Hq)) as H1.
  pose proof (quiet_hd _ (quiet_tail _ (quiet_tail _ Hq))) as H2.
  pose proof (quiet_hd _ (quiet_tail _ (quiet_tail _ (quiet_tail _ Hq)))) as H3.
  pose proof (quiet_hd _ (quiet_tail _ (quiet_tail _ (quiet_tail _ (quiet_tail _ Hq))))) as H4.
  unfold dislikeVideo, select, sql, transaction, attempt, mbind, M_bind, mret, M_ret.
  simpl. rewrite H0. simpl. unfold dislike_rows. rewrite (pair_param_Int _ _ Hu Hv).
  simpl. fold (dislikes_of u v (db w)). rewrite length_pos_nil.
  case_bool_decide as Hex; simpl; [by eexists|].
  specialize (Hroom Hex).
  rewrite H1. simpl. rewrite H2. simpl.
  unfold insert_dislike. rewrite (pair_param_Int _ _ Hu Hv).
  rewrite bool_decide_eq_false_2 by (by apply (filter_nil_not_Exists _ _)).
  simpl. rewrite H3. simpl.
  erewrite (update_videos_room _ (λ x, set_video_dislikes ((λ n, n + 1) <$> Video.dislikes x) x)); [| done |].
  - simpl. rewrite H4. simpl. by eexists.
  - simpl. eapply Forall_impl; [exact (room_Forall _ _ _ _ Hroom)|]. simpl. intros x Hx Hid.
    unfold bump_dislikes. rewrite int4_add_room; [done|]. by apply Hx.
Qed.

(** Every outcome of [undislikeVideo]. *)
Lemma undislikeVideo_spec (userId videoId : num) (w : World) :
  wp (undislikeVideo userId videoId) (λ r w',
    disk w' = disk w ∧ clock w' = clock w
    ∧ match r with
      | Ok removed =>
          ∃ u v, userId = Int u ∧ videoId = Int v
                 ∧ in_int4 u = true ∧ in_int4 v = true
                 ∧ removed = bool_decide (dislikes_of u v (db w) ≠ [])
                 ∧ db w' = undisliked u v (db w)
      | Throw _ => db w' = db w
      end) w.
Proof.
  unfold undislikeVideo. apply wp_transaction; [done|]. intros _.
  apply wp_bind, wp_sql; [intros; open_world w|]. intros _.
  unfold delete_dislike.
  destruct (pair_param_cases userId videoId)
    as [(u & v & -> & -> & Hu & Hv & Hp)|[e Hp]]; rewrite Hp; simpl;
    [|intros; open_world w].
  fold (dislikes_of u v (db w)) (dislikes_but u v (db w)).
  rewrite length_pos_nil. apply wp_bind.
  destruct (bool_decide (dislikes_of u v (db w) ≠ [])) eqn:Hex.
  - apply wp_bind, wp_sql; [intros; open_world w|]. intros _. simpl.
    destruct (update_videos _ _ _) as [[rows|e] d'] eqn:Hup; simpl.
    + apply (update_videos_Ok _ _ _ _ _ _ (bump_dislikes_Ok (-1))) in Hup as (_ & -> & _).
      apply wp_ret, wp_ret. simpl. split.
      * intros _. repeat split; try done. exists u, v.
        unfold undisliked. rewrite Hex. done.
      * intros _ e. open_world w.
    + apply update_videos_Throw in Hup as ->. intros e'. open_world w.
  - apply wp_ret, wp_ret. simpl. split.
    + intros _. repeat split; try done. exists u, v.
      unfold undisliked. rewrite Hex. done.
    + intros _ e. open_world w.
Qed.

Lemma undislikeVideo_returns (u v : Z) (w : World) :
  quiet (script w) → in_int4 u = true → in_int4 v = true →
  (dislikes_of u v (db w) ≠ [] → room Video.dislikes v (-1) (db w)) →
  ∃ removed, fst (undislikeVideo (Int u) (Int v) w) = Ok removed.
Proof.
  intros Hq Hu Hv Hroom.
  pose proof (quiet_hd _ Hq) as H0.
  pose proof (quiet_hd _ (quiet_tail _ Hq)) as H1.
  pose proof (quiet_hd _ (quiet_tail _ (quiet_tail _ Hq))) as H2.
  pose proof (quiet_hd _ (quiet_tail _ (quiet_tail _ (quiet_tail _ Hq)))) as H3.
  unfold undislikeVideo, sql, transaction, attempt, mbind, M_bind, mret, M_ret.
  simpl. rewrite H0. simpl. rewrite H1. simpl.
  unfold delete_dislike. rewrite (pair_param_Int _ _ Hu Hv).
  simpl. fold (dislikes_of u v (db w)). rewrite length_pos_nil.
  case_bool_decide as Hex; simpl.
  - specialize (Hroom Hex). rewrite H2. simpl.
    erewrite (update_videos_room _ (λ x, set_video_dislikes ((λ n, n + -1) <$> Video.dislikes x) x)); [| done |].
    + simpl. rewrite H3. simpl. by eexists.
    + simpl. eapply Forall_impl; [exact (room_Forall _ _ _ _ Hroom)|]. simpl. intros x Hx Hid.
      unfold bump_dislikes. rewrite int4_add_room; [done|]. by apply Hx.
  - rewrite H2. simpl. by eexists.
Qed.

(** ** Likes and dislikes are all or nothing *)

(** C1. For a pair (u, v) without a like row, [likeVideo] either returns
    the new row, having inserted it and added one to the likes counter of
    video v, or throws and leaves the database as it was; it returns when
    no statement fails and the counter has room.  [unlikeVideo] either
    returns, having deleted the rows of the pair and subtracted one from
    the counter exactly when a row was deleted, or throws and leaves the
    database as it was.  The same holds for [dislikeVideo] and
    [undislikeVideo] on the dislikes table and counter. *)
Theorem like_dislike_all_or_nothing (w : World) (u v : Z) :
  (likes_of u v (db w) = [] →
   wp (likeVideo (Int u) (Int v)) (λ r w',
     match r with
     | Ok row => row = Some (Like.mk u v (Some (clock w)))
                 ∧ db w' = liked (Like.mk u v (Some (clock w))) (db w)
     | Throw _ => db w' = db w
     end) w
   ∧ (quiet (script w) → in_int4 u = true → in_int4 v = true →
      room Video.likes v 1 (db w) →
      ∃ row, fst (likeVideo (Int u) (Int v) w) = Ok row))
  ∧ (wp (unlikeVideo (Int u) (Int v)) (λ r w',
       match r with
       | Ok removed => removed = bool_decide (likes_of u v (db w) ≠ [])
                       ∧ db w' = unliked u v (db w)
       | Throw _ => db w' = db w
       end) w
     ∧ (quiet (script w) → in_int4 u = true → in_int4 v = true →
        room Video.likes v (-1) (db w) →
        ∃ removed, fst (unlikeVideo (Int u) (Int v) w) = Ok removed))
  ∧ (dislikes_of u v (db w) = [] →
     wp (dislikeVideo (Int u) (Int v)) (λ r w',
       match r with
       | Ok row => row = Some (Dislike.mk u v (Some (clock w)))
                   ∧ db w' = disliked (Dislike.mk u v (Some (clock w))) (db w)
       | Throw _ => db w' = db w
       end) w
     ∧ (quiet (script w) → in_int4 u = true → in_int4 v = true →
        room Video.dislikes v 1 (db w) →
        ∃ row, fst (dislikeVideo (Int u) (Int v) w) = Ok row))
  ∧ (wp (undislikeVideo (Int u) (Int v)) (λ r w',
       match r with
       | Ok removed => removed = bool_decide (dislikes_of u v (db w) ≠ [])
                       ∧ db w' = undisliked u v (db w)
       | Throw _ => db w' = db w
       end) w
     ∧ (quiet (script w) → in_int4 u = true → in_int4 v = true →
        room Video.dislikes v (-1) (db w) →
        ∃ removed, fst (undislikeVideo (Int u) (Int v) w) = Ok removed)).
Proof.
  repeat split.
  - eapply wp_mono; [apply likeVideo_spec|]. simpl.
    intros [row|e] w' (_ & _ & Hr); [|done].
    destruct Hr as (u' & v' & [= <-] & [= <-] & _ & _ & [(Hne & _)|(_ & -> & ->)]);
      done.
  - intros. by apply likeVideo_returns.
  - eapply wp_mono; [apply unlikeVideo_spec|]. simpl.
    intros [removed|e] w' (_ & _ & Hr); [|done].
    by destruct Hr as (u' & v' & [= <-] & [= <-] & _ & _ & -> & ->).
  - intros. by apply unlikeVideo_returns.
  - eapply wp_mono; [apply dislikeVideo_spec|]. simpl.
    intros [row|e] w' (_ & _ & Hr); [|done].
    destruct Hr as (u' & v' & [= <-] & [= <-] & _ & _ & [(Hne & _)|(_ & -> & ->)]);
      done.
  - intros. by apply dislikeVideo_returns.
  - eapply wp_mono; [apply undislikeVideo_spec|]. simpl.
    intros [removed|e] w' (_ & _ & Hr); [|done].
    by destruct Hr as (u' & v' & [= <-] & [= <-] & _ & _ & -> & ->).
  - intros. by apply undislikeVideo_returns.
Qed.

Lemma like_dislike_all_or_nothing_witness :
  (∃ row, fst (likeVideo (Int 7) (Int 1) (world_of one_video_db)) = Ok row)
  ∧ (∃ removed, fst (unlikeVideo (Int 7) (Int 1) (world_of voted_db)) = Ok removed)
  ∧ (∃ row, fst (dislikeVideo (Int 7) (Int 1) (world_of one_video_db)) = Ok row)
  ∧ (∃ removed, fst (undislikeVideo (Int 7) (Int 1) (world_of voted_db)) = Ok removed).
Proof.
  destruct (like_dislike_all_or_nothing (world_of one_video_db) 7 1)
    as (Hlike & _ & Hdislike & _).
  destruct (like_dislike_all_or_nothing (world_of voted_db) 7 1)
    as (_ & (_ & Hunlike) & _ & (_ & Hundislike)).
  destruct (Hlike eq_refl) as (_ & Hl).
  destruct (Hdislike eq_refl) as (_ & Hd).
  repeat split.
  - apply Hl; [constructor | reflexivity | reflexivity | reflexivity].
  - apply Hunlike; [constructor | reflexivity | reflexivity | reflexivity].
  - apply Hd; [constructor | reflexivity | reflexivity | reflexivity].
  - apply Hundislike; [constructor | reflexivity | reflexivity | reflexivity].
Defined.

(** ** The watchlist operations, statement by statement *)

(** Every outcome of [addToWatchlist]. *)
Lemma addToWatchlist_spec (item : InsertWatchlist.t) (w : World) :
  wp (addToWatchlist item) (λ r w',
    disk w' = disk w ∧ clock w' = clock w
    ∧ match r with
      | Ok row =>
          ∃ u v, InsertWatchlist.userId item = Int u
                 ∧ InsertWatchlist.videoId item = Int v
                 ∧ in_int4 u = true ∧ in_int4 v = true
                 ∧ ((watchlist_of u v (db w) ≠ []
                     ∧ row = head (watchlist_of u v (db w)) ∧ db w' = db w)
                    ∨ (watchlist_of u v (db w) = []
                       ∧ row = Some (watch_row u v w)
                       ∧ db w' = watched (watch_row u v w) (db w)))
      | Throw _ =>
          db w' = db w
          ∨ ((∀ u v, InsertWatchlist.userId item = Int u →
                     InsertWatchlist.videoId item = Int v →
                     watchlist_of u v (db w) = [])
             ∧ db w' = set_watchlist_id_seq (watchlist_id_seq (db w) + 1) (db w))
      end) w.
Proof.
  unfold addToWatchlist. apply wp_bind, wp_select; [by auto|]. intros _.
  unfold watchlist_rows.
  destruct (pair_param_cases (InsertWatchlist.userId item) (InsertWatchlist.videoId item))
    as [(u & v & Hiu & Hiv & Hu & Hv & Hp)|[e Hp]]; rewrite Hp; simpl; [|by auto].
  fold (watchlist_of u v (db w)).
  rewrite length_pos_nil. case_bool_decide as Hex.
  { apply wp_ret. simpl. repeat split; try done. exists u, v. auto 10. }
  assert (∀ u' v', InsertWatchlist.userId item = Int u' →
                   InsertWatchlist.videoId item = Int v' →
                   watchlist_of u' v' (db w) = []) as Hnone.
  { intros u' v' Hu' Hv'. rewrite Hiu in Hu'. rewrite Hiv in Hv'.
    by injection Hu' as <-; injection Hv' as <-. }
  apply wp_bind, wp_sql; [intros; open_world w; auto|]. intros _.
  unfold insert_watchlist. simpl. rewrite Hp.
  destruct (in_int4 (watchlist_id_seq (db w))); simpl; [|open_world w; auto].
  case_bool_decide; simpl; [open_world w; auto|].
  apply wp_ret. simpl. repeat split; try done.
  exists u, v. repeat split; try done. right. open_world w.
Qed.

(** Every outcome of [removeFromWatchlist]. *)
Lemma removeFromWatchlist_spec (userId videoId : num) (w : World) :
  wp (removeFromWatchlist userId videoId) (λ r w',
    disk w' = disk w ∧ clock w' = clock w
    ∧ match r with
      | Ok removed =>
          ∃ u v, userId = Int u ∧ videoId = Int v
                 ∧ in_int4 u = true ∧ in_int4 v = true
                 ∧ removed = bool_decide (watchlist_of u v (db w) ≠ [])
                 ∧ db w' = set_watchlist (watchlist_but u v (db w)) (db w)
      | Throw _ => db w' = db w
      end) w.
Proof.
  unfold removeFromWatchlist. apply wp_bind, wp_sql; [intros; open_world w|].
  intros _. unfold delete_watchlist.
  destruct (pair_param_cases userId videoId)
    as [(u & v & -> & -> & Hu & Hv & Hp)|[e Hp]]; rewrite Hp; simpl;
    [|open_world w].
  apply wp_ret. simpl. repeat split; try done. exists u, v.
  fold (watchlist_of u v (db w)) (watchlist_but u v (db w)).
  rewrite length_pos_nil. open_world w.
Qed.

(** ** Deduplication on the (user, video) key *)

Lemma filter_app_last_nonempty {A} (P : A -> Prop) `{∀ x, Decision (P x)}
    (l : list A) (x : A) :
  P x → filter P (l ++ [x])%list ≠ [].
Proof.
  intros Hx Hnil.
  assert (x ∈ filter P (l ++ [x])%list) as Hin.
  { apply list_elem_of_filter. split; [done|]. apply elem_of_app. right.
    by apply list_elem_of_singleton. }
  rewrite Hnil in Hin. by apply not_elem_of_nil in Hin.
Qed.

Lemma head_filter_elem {A} (P : A -> Prop) `{∀ x, Decision (P x)} (l : list A) :
  filter P l ≠ [] → ∃ x, head (filter P l) = Some x ∧ x ∈ l ∧ P x.
Proof.
  intros Hne. destruct (filter P l) as [|x rest] eqn:Hf; [done|].
  exists x. split; [done|].
  assert (x ∈ filter P l) as Hin by (rewrite Hf; left).
  by apply list_elem_of_filter in Hin as [? ?].
Qed.

(** Once a call has returned, the pair has a row. *)
Lemma likeVideo_leaves_row userId videoId w row :
  fst (likeVideo userId videoId w) = Ok row →
  ∃ u v, userId = Int u ∧ videoId = Int v
         ∧ likes_of u v (db (snd (likeVideo userId videoId w))) ≠ [].
Proof.
  pose proof (likeVideo_spec userId videoId w) as H. unfold wp in H.
  destruct (likeVideo userId videoId w) as [r w1]. simpl in *. intros ->.
  destruct H as (_ & _ & u & v & -> & -> & _ & _ & [(Hne & _ & ->)|(_ & _ & ->)]);
    exists u, v; repeat split; try done.
  unfold likes_of, liked. simpl. by apply (filter_app_last_nonempty _ _).
Qed.

Lemma dislikeVideo_leaves_row userId videoId w row :
  fst (dislikeVideo userId videoId w) = Ok row →
  ∃ u v, userId = Int u ∧ videoId = Int v
         ∧ dislikes_of u v (db (snd (dislikeVideo userId videoId w))) ≠ [].
Proof.
  pose proof (dislikeVideo_spec userId videoId w) as H. unfold wp in H.
  destruct (dislikeVideo userId videoId w) as [r w1]. simpl in *. intros ->.
  destruct H as (_ & _ & u & v & -> & -> & _ & _ & [(Hne & _ & ->)|(_ & _ & ->)]);
    exists u, v; repeat split; try done.
  unfold dislikes_of, disliked. simpl. by apply (filter_app_last_nonempty _ _).
Qed.

Lemma addToWatchlist_leaves_row item w row :
  fst (addToWatchlist item w) = Ok row →
  ∃ u v, InsertWatchlist.userId item = Int u ∧ InsertWatchlist.videoId item = Int v
         ∧ watchlist_of u v (db (snd (addToWatchlist item w))) ≠ [].
Proof.
  pose proof (addToWatchlist_spec item w) as H. unfold wp in H.
  destruct (addToWatchlist item w) as [r w1]. simpl in *. intros ->.
  destruct H as (_ & _ & u & v & Hu & Hv & _ & _ & [(Hne & _ & ->)|(_ & _ & ->)]);
    exists u, v; repeat split; try done.
  unfold watchlist_of, watched. simpl. by apply (filter_app_last_nonempty _ _).
Qed.

(** With a row for the pair in place, a call changes nothing. *)
Lemma likeVideo_existing u v w :
  likes_of u v (db w) ≠ [] →
  db (snd (likeVideo (Int u) (Int v) w)) = db w
  ∧ (∀ row, fst (likeVideo (Int u) (Int v) w) = Ok row →
            row = head (likes_of u v (db w)))
  ∧ (hd false (script w) = false → in_int4 u = true → in_int4 v = true →
     fst (likeVideo (Int u) (Int v) w) = Ok (head (likes_of u v (db w)))).
Proof.
  intros Hne. repeat split.
  - pose proof (likeVideo_spec (Int u) (Int v) w) as H. unfold wp in H.
    destruct (likeVideo (Int u) (Int v) w) as [[row|e] w1]; simpl in *; [|apply H].
    by destruct H as (_ & _ & u' & v' & [= <-] & [= <-] & _ & _ & [(_ & _ & ->)|(? & _)]).
  - pose proof (likeVideo_spec (Int u) (Int v) w) as H. unfold wp in H.
    destruct (likeVideo (Int u) (Int v) w) as [r w1]; simpl in *. intros row ->.
    by destruct H as (_ & _ & u' & v' & [= <-] & [= <-] & _ & _ & [(_ & -> & _)|(? & _)]).
  - intros H0 Hu Hv.
    unfold likeVideo, select, sql, attempt, mbind, M_bind, mret, M_ret. simpl.
    rewrite H0. simpl. unfold like_rows. rewrite (pair_param_Int _ _ Hu Hv). simpl.
    fold (likes_of u v (db w)). rewrite length_pos_nil.
    by rewrite bool_decide_eq_true_2.
Qed.

Lemma dislikeVideo_existing u v w :
  dislikes_of u v (db w) ≠ [] →
  db (snd (dislikeVideo (Int u) (Int v) w)) = db w
  ∧ (∀ row, fst (dislikeVideo (Int u) (Int v) w) = Ok row →
            row = head (dislikes_of u v (db w)))
  ∧ (hd false (script w) = false → in_int4 u = true → in_int4 v = true →
     fst (dislikeVideo (Int u) (Int v) w) = Ok (head (dislikes_of u v (db w)))).
Proof.
  intros Hne. repeat split.
  - pose proof (dislikeVideo_spec (Int u) (Int v) w) as H. unfold wp in H.
    destruct (dislikeVideo (Int u) (Int v) w) as [[row|e] w1]; simpl in *; [|apply H].
    by destruct H as (_ & _ & u' & v' & [= <-] & [= <-] & _ & _ & [(_ & _ & ->)|(? & _)]).
  - pose proof (dislikeVideo_spec (Int u) (Int v) w) as H. unfold wp in H.
    destruct (dislikeVideo (Int u) (Int v) w) as [r w1]; simpl in *. intros row ->.
    by destruct H as (_ & _ & u' & v' & [= <-] & [= <-] & _ & _ & [(_ & -> & _)|(? & _)]).
  - intros H0 Hu Hv.
    unfold dislikeVideo, select, sql, attempt, mbind, M_bind, mret, M_ret. simpl.
    rewrite H0. simpl. unfold dislike_rows. rewrite (pair_param_Int _ _ Hu Hv). simpl.
    fold (dislikes_of u v (db w)). rewrite length_pos_nil.
    by rewrite bool_decide_eq_true_2.
Qed.

Lemma addToWatchlist_existing u v w :
  watchlist_of u v (db w) ≠ [] →
  db (snd (addToWatchlist (InsertWatchlist.mk (Int u) (Int v)) w)) = db w
  ∧ (∀ row, fst (addToWatchlist (InsertWatchlist.mk (Int u) (Int v)) w) = Ok row →
            row = head (watchlist_of u v (db w)))
  ∧ (hd false (script w) = false → in_int4 u = true → in_int4 v = true →
     fst (addToWatchlist (InsertWatchlist.mk (Int u) (Int v)) w)
     = Ok (head (watchlist_of u v (db w)))).
Proof.
  intros Hne. set (item := InsertWatchlist.mk (Int u) (Int v)). repeat split.
  - pose proof (addToWatchlist_spec item w) as H. unfold wp in H.
    destruct (addToWatchlist item w) as [[row|e] w1]; simpl in *.
    + by destruct H as (_ & _ & u' & v' & [= <-] & [= <-] & _ & _ & [(_ & _ & ->)|(? & _)]).
    + destruct H as (_ & _ & [H|[Hnone _]]); [done|].
      by specialize (Hnone u v eq_refl eq_refl).
  - pose proof (addToWatchlist_spec item w) as H. unfold wp in H.
    destruct (addToWatchlist item w) as [r w1]; simpl in *. intros row ->.
    by destruct H as (_ & _ & u' & v' & [= <-] & [= <-] & _ & _ & [(_ & -> & _)|(? & _)]).
  - intros H0 Hu Hv.
    unfold addToWatchlist, select, sql, attempt, mbind, M_bind, mret, M_ret. simpl.
    rewrite H0. simpl. unfold watchlist_rows. rewrite (pair_param_Int _ _ Hu Hv). simpl.
    fold (watchlist_of u v (db w)). rewrite length_pos_nil.
    by rewrite bool_decide_eq_true_2.
Qed.

(** C4. When a row for (u, v) is already in the table, [likeVideo],
    [dislikeVideo] and [addToWatchlist] leave the database as it is, return
    nothing but that row (the first one found), and do return it when the
    lookup does not fail.  Hence a call after a call that returned changes
    nothing: twice is the same as once. *)
Theorem existing_row_deduplicated (w : World) (u v : Z) :
  (likes_of u v (db w) ≠ [] →
   db (snd (likeVideo (Int u) (Int v) w)) = db w
   ∧ (∀ row, fst (likeVideo (Int u) (Int v) w) = Ok row →
        row = head (likes_of u v (db w))
        ∧ ∃ x, row = Some x ∧ x ∈ likes (db w) ∧ like_key x = (u, v))
   ∧ (hd false (script w) = false → in_int4 u = true → in_int4 v = true →
      fst (likeVideo (Int u) (Int v) w) = Ok (head (likes_of u v (db w)))))
  ∧ (dislikes_of u v (db w) ≠ [] →
     db (snd (dislikeVideo (Int u) (Int v) w)) = db w
     ∧ (∀ row, fst (dislikeVideo (Int u) (Int v) w) = Ok row →
          row = head (dislikes_of u v (db w))
          ∧ ∃ x, row = Some x ∧ x ∈ dislikes (db w) ∧ dislike_key x = (u, v))
     ∧ (hd false (script w) = false → in_int4 u = true → in_int4 v = true →
        fst (dislikeVideo (Int u) (Int v) w) = Ok (head (dislikes_of u v (db w)))))
  ∧ (watchlist_of u v (db w) ≠ [] →
     db (snd (addToWatchlist (InsertWatchlist.mk (Int u) (Int v)) w)) = db w
     ∧ (∀ row, fst (addToWatchlist (InsertWatchlist.mk (Int u) (Int v)) w) = Ok row →
          row = head (watchlist_of u v (db w))
          ∧ ∃ x, row = Some x ∧ x ∈ watchlist (db w)
                 ∧ Watchlist.userId x = u ∧ Watchlist.videoId x = v)
     ∧ (hd false (script w) = false → in_int4 u = true → in_int4 v = true →
        fst (addToWatchlist (InsertWatchlist.mk (Int u) (Int v)) w)
        = Ok (head (watchlist_of u v (db w)))))
  ∧ (∀ userId videoId w2,
       (∃ row, fst (likeVideo userId videoId w) = Ok row) →
       db w2 = db (snd (likeVideo userId videoId w)) →
       db (snd (likeVideo userId videoId w2)) = db w2)
  ∧ (∀ userId videoId w2,
       (∃ row, fst (dislikeVideo userId videoId w) = Ok row) →
       db w2 = db (snd (dislikeVideo userId videoId w)) →
       db (snd (dislikeVideo userId videoId w2)) = db w2)
  ∧ (∀ item w2,
       (∃ row, fst (addToWatchlist item w) = Ok row) →
       db w2 = db (snd (addToWatchlist item w)) →
       db (snd (addToWatchlist item w2)) = db w2).
Proof.
  repeat apply conj.
  - intros Hne. destruct (likeVideo_existing u v w Hne) as (Hdb & Hrow & Hret).
    split; [done|]. split; [|done]. intros row Hr. split; [by apply Hrow|].
    rewrite (Hrow row Hr).
    destruct (head_filter_elem _ _ Hne) as (x & Hx & Hin & Hu & Hv).
    exists x. unfold like_key. by rewrite Hu, Hv.
  - intros Hne. destruct (dislikeVideo_existing u v w Hne) as (Hdb & Hrow & Hret).
    split; [done|]. split; [|done]. intros row Hr. split; [by apply Hrow|].
    rewrite (Hrow row Hr).
    destruct (head_filter_elem _ _ Hne) as (x & Hx & Hin & Hu & Hv).
    exists x. unfold dislike_key. by rewrite Hu, Hv.
  - intros Hne. destruct (addToWatchlist_existing u v w Hne) as (Hdb & Hrow & Hret).
    split; [done|]. split; [|done]. intros row Hr. split; [by apply Hrow|].
    rewrite (Hrow row Hr).
    destruct (head_filter_elem _ _ Hne) as (x & Hx & Hin & Hu & Hv).
    by exists x.
  - intros userId videoId w2 [row Hr] Hdb.
    destruct (likeVideo_leaves_row _ _ _ _ Hr) as (u' & v' & -> & -> & Hne).
    rewrite <- Hdb in Hne. by apply likeVideo_existing.
  - intros userId videoId w2 [row Hr] Hdb.
    destruct (dislikeVideo_leaves_row _ _ _ _ Hr) as (u' & v' & -> & -> & Hne).
    rewrite <- Hdb in Hne. by apply dislikeVideo_existing.
  - intros [uid vid] w2 [row Hr] Hdb.
    destruct (addToWatchlist_leaves_row _ _ _ Hr) as (u' & v' & Hu & Hv & Hne).
    simpl in Hu, Hv. subst uid vid.
    rewrite <- Hdb in Hne. by apply addToWatchlist_existing.
Qed.

Lemma existing_row_deduplicated_witness :
  db (snd (likeVideo (Int 7) (Int 1) (world_of watched_db)))
  = db (world_of watched_db)
  ∧ db (snd (dislikeVideo (Int 7) (Int 1) (world_of watched_db)))
    = db (world_of watched_db)
  ∧ db (snd (addToWatchlist (InsertWatchlist.mk (Int 7) (Int 1)) (world_of watched_db)))
    = db (world_of watched_db)
  ∧ db (snd (likeVideo (Int 7) (Int 1)
               (snd (likeVideo (Int 7) (Int 1) (world_of one_video_db)))))
    = db (snd (likeVideo (Int 7) (Int 1) (world_of one_video_db))).
Proof.
  destruct (existing_row_deduplicated (world_of watched_db) 7 1)
    as (Hl & Hd & Hw & _).
  destruct (existing_row_deduplicated (world_of one_video_db) 7 1)
    as (_ & _ & _ & Hll & _).
  split; [|split; [|split]].
  - refine (proj1 (Hl _)). vm_compute. discriminate.
  - refine (proj1 (Hd _)). vm_compute. discriminate.
  - refine (proj1 (Hw _)). vm_compute. discriminate.
  - refine (Hll _ _ _ _ eq_refl). eexists. vm_compute. reflexivity.
Defined.

(** ** The watchlist has no counter *)

Lemma addToWatchlist_script item w :
  script (snd (addToWatchlist item w)) = tail (script w)
  ∨ script (snd (addToWatchlist item w)) = tail (tail (script w)).
Proof.
  unfold addToWatchlist, select, sql, attempt, mbind, M_bind, mret, M_ret. simpl.
  destruct (hd false (script w)); simpl; [by left|].
  destruct (watchlist_rows _ _ _) as [existing|e]; simpl; [|by left].
  case_bool_decide; simpl; [by left|].
  destruct (hd false (tail (script w))); simpl; [by right|].
  destruct (insert_watchlist _ _ _) as [[rows|e] d']; simpl; by right.
Qed.

Lemma removeFromWatchlist_script userId videoId w :
  script (snd (removeFromWatchlist userId videoId w)) = tail (script w).
Proof.
  unfold removeFromWatchlist, sql, attempt, mbind, M_bind, mret, M_ret. simpl.
  destruct (hd false (script w)); simpl; [done|].
  destruct (delete_watchlist _ _ _) as [[rows|e] d']; simpl; done.
Qed.



(** ** Counting the rows of a join table

    The facts below hold for [likes] and for [dislikes] alike: [uid] and
    [vid] are the two columns of the primary key. *)

Section JoinTable.
Context {A : Type} (uid vid : A -> Z).

Let key (r : A) : Z * Z := (uid r, vid r).
Let of_pair (u v : Z) (l : list A) : list A :=
  filter (λ r, uid r = u ∧ vid r = v) l.
Let but_pair (u v : Z) (l : list A) : list A :=
  filter (λ r, ¬ (uid r = u ∧ vid r = v)) l.
Let pointing (v : Z) (l : list A) : nat :=
  List.length (filter (λ r, vid r = v) l).

Lemma pointing_app_last v l r :
  pointing v (l ++ [r])%list
  = (pointing v l + if bool_decide (vid r = v) then 1 else 0)%nat.
Proof.
  unfold pointing. rewrite filter_app, length_app.
  f_equal. rewrite filter_cons, filter_nil.
  by case_decide; [rewrite bool_decide_eq_true_2|rewrite bool_decide_eq_false_2].
Qed.

Lemma but_pair_absent u v l : of_pair u v l = [] → but_pair u v l = l.
Proof.
  unfold of_pair, but_pair. induction l as [|r l IH]; [done|].
  rewrite !filter_cons. case_decide as Hr; [done|].
  intros Hnil. rewrite decide_True by done. f_equal. by apply IH.
Qed.

Lemma of_pair_absent u v l : (u, v) ∉ map key l → of_pair u v l = [].
Proof.
  unfold of_pair. induction l as [|r l IH]; [done|]. simpl.
  intros Hnot. apply not_elem_of_cons in Hnot as [Hne Hnot].
  rewrite filter_cons. rewrite decide_False.
  - by apply IH.
  - intros [Hu Hv]. apply Hne. unfold key. by rewrite Hu, Hv.
Qed.

Lemma pointing_but_other u v v' l :
  v' ≠ v → pointing v' (but_pair u v l) = pointing v' l.
Proof.
  intros Hne. unfold pointing, but_pair.
  induction l as [|r l IH]; [done|].
  rewrite !filter_cons. case_decide as Hk.
  - rewrite filter_cons. case_decide; simpl; by rewrite IH.
  - destruct Hk as [_ Hv].
    rewrite decide_False by congruence. done.
Qed.

Lemma pointing_but_present u v l :
  NoDup (map key l) → of_pair u v l ≠ [] →
  (pointing v (but_pair u v l) + 1)%nat = pointing v l.
Proof.
  unfold pointing. induction l as [|r l IH]; [done|].
  simpl. intros Hnd Hex. apply NoDup_cons in Hnd as [Hfresh Hnd].
  unfold of_pair, but_pair in *. rewrite filter_cons in Hex.
  rewrite !filter_cons.
  destruct (decide (uid r = u ∧ vid r = v)) as [[Hu Hv]|Hk].
  - rewrite decide_False by tauto. rewrite decide_True by done. simpl.
    assert (of_pair u v l = []) as Hnone.
    { apply of_pair_absent. unfold key in Hfresh. by rewrite Hu, Hv in Hfresh. }
    pose proof (but_pair_absent _ _ _ Hnone) as Hsame.
    unfold but_pair in Hsame. rewrite Hsame. lia.
  - rewrite decide_True by done. rewrite filter_cons.
    specialize (IH Hnd Hex). case_decide; simpl; lia.
Qed.

Lemma keys_app_last l r :
  NoDup (map key l) → of_pair (uid r) (vid r) l = [] →
  NoDup (map key (l ++ [r])%list).
Proof.
  intros Hnd Hnone. rewrite map_app. simpl.
  apply NoDup_app. split; [done|]. split; [|apply NoDup_singleton].
  intros k Hk Hr. apply list_elem_of_singleton in Hr as ->.
  apply list_elem_of_fmap in Hk as (r' & Hkey & Hin).
  assert (r' ∈ of_pair (uid r) (vid r) l) as Hof.
  { apply list_elem_of_filter. split; [|done].
    unfold key in Hkey. by injection Hkey as -> ->. }
  rewrite Hnone in Hof. by apply not_elem_of_nil in Hof.
Qed.

Lemma keys_but u v l : NoDup (map key l) → NoDup (map key (but_pair u v l)).
Proof.
  unfold but_pair. induction l as [|r l IH]; [done|]. simpl.
  intros Hnd. apply NoDup_cons in Hnd as [Hfresh Hnd].
  rewrite filter_cons. case_decide; [|by apply IH]. simpl.
  apply NoDup_cons. split; [|by apply IH].
  intros Hin. apply Hfresh.
  apply list_elem_of_fmap in Hin as (r' & Hkey & Hin).
  apply list_elem_of_filter in Hin as [_ Hin].
  apply list_elem_of_fmap. by exists r'.
Qed.
End JoinTable.

(** ** What each storage operation changes *)

Lemma void_world {A} (m : M A) w : snd (void m w) = snd (m w).
Proof. unfold void, mbind, M_bind. by destruct (m w) as [[a|e] w']. Qed.

Lemma same_applies d : applies D_same d d.
Proof. done. Qed.

Lemma createUser_delta user w :
  applies D_same (db w) (db (snd (createUser user w))).
Proof.
  unfold createUser, sql, attempt, mbind, M_bind, mret, M_ret, insert_user. simpl.
  destruct (hd false (script w)); simpl; [done|].
  destruct (in_int4 _); simpl; [|done].
  repeat (case_bool_decide; simpl; try done).
Qed.

Lemma updateUser_delta id updates w :
  applies D_same (db w) (db (snd (updateUser id updates w))).
Proof.
  unfold updateUser. destruct (_ && _); [done|].
  unfold sql, attempt, mbind, M_bind, mret, M_ret, update_user. simpl.
  destruct (hd false (script w)); simpl; [done|].
  destruct (int4_param id) as [i|]; simpl; [|done].
  destruct (update_where _ _ _) as [rows|]; simpl; [|done].
  destruct (_ && _); simpl; done.
Qed.

Lemma createVideo_delta video w :
  ∃ δ, applies δ (db w) (db (snd (createVideo video w)))
       ∧ match δ with D_same | D_sequence | D_new_video _ => True | _ => False end.
Proof.
  unfold createVideo, sql, attempt, mbind, M_bind, mret, M_ret, insert_video. simpl.
  destruct (hd false (script w)); simpl; [by exists D_same|].
  destruct (in_int4 (InsertVideo.userId video)); simpl; [|by exists D_same].
  destruct (in_int4 (videos_id_seq (db w))); simpl; [|by exists D_same].
  case_bool_decide as Hex; simpl; [by exists D_sequence|].
  eexists (D_new_video _). split; [|done]. simpl. repeat split; done.
Qed.

Lemma update_videos_delta id change f w :
  (∀ x y, change x = Ok y → y = f x) →
  (∀ x, Video.id (f x) = Video.id x ∧ Video.likes (f x) = Video.likes x
        ∧ Video.dislikes (f x) = Video.dislikes x
        ∧ (is_Some (Video.views x) → is_Some (Video.views (f x)))) →
  ∃ δ, applies δ (db w)
         (db (snd (sql (fun _ => update_videos id change) w)))
       ∧ match δ with D_same | D_edit _ => True | _ => False end.
Proof.
  intros Hf Hkeep. unfold sql, attempt, mbind, M_bind. simpl.
  destruct (hd false (script w)); simpl; [by exists D_same|].
  destruct (update_videos id change (db w)) as [[rows|e] d'] eqn:Hup; simpl.
  - destruct id as [|i]; [done|].
    apply (update_videos_Ok _ f) in Hup as (_ & -> & _); [|done].
    exists (D_edit (λ x, if bool_decide (Video.id x = i) then f x else x)).
    split; [|done]. simpl. repeat split; try done; by case_bool_decide; try apply Hkeep.
  - apply update_videos_Throw in Hup as ->. by exists D_same.
Qed.

Lemma bind_world {A B} (m : M A) (f : A -> M B) w :
  (∀ a w1, snd (f a w1) = w1) → snd ((m ≫= f) w) = snd (m w).
Proof.
  intros Hf. unfold mbind, M_bind. destruct (m w) as [[a|e] w1]; simpl; auto.
Qed.

Lemma updateVideo_delta id updates w :
  ∃ δ, applies δ (db w) (db (snd (updateVideo id updates w)))
       ∧ match δ with D_same | D_edit _ => True | _ => False end.
Proof.
  unfold updateVideo. rewrite bind_world by done.
  apply (update_videos_delta _ _ (change_video updates)).
  - by intros x y [= <-].
  - intros x. repeat split; done.
Qed.

Lemma incrementViews_delta id w :
  ∃ δ, applies δ (db w) (db (snd (incrementViews id w)))
       ∧ match δ with D_same | D_edit _ => True | _ => False end.
Proof.
  unfold incrementViews. rewrite bind_world by done.
  apply (update_videos_delta _ _
           (λ x, set_video_views ((λ n, n + 1) <$> Video.views x) x)).
  - apply bump_views_Ok.
  - intros x. repeat split; try done. simpl. intros [n ->]. by eexists.
Qed.

Lemma deleteVideo_delta id w :
  ∃ δ, applies δ (db w) (db (snd (deleteVideo id w)))
       ∧ match δ with D_same | D_delete _ => True | _ => False end.
Proof.
  unfold deleteVideo. rewrite bind_world by done.
  unfold sql, attempt, mbind, M_bind, delete_video. simpl.
  destruct (hd false (script w)); simpl; [by exists D_same|].
  destruct (int4_param id) as [i|]; simpl; [|by exists D_same].
  by exists (D_delete i).
Qed.

Lemma createComment_delta comment w :
  applies D_same (db w) (db (snd (createComment comment w))).
Proof.
  unfold createComment, sql, attempt, mbind, M_bind, mret, M_ret, insert_comment. simpl.
  destruct (hd false (script w)); simpl; [done|].
  destruct (pair_param _ _) as [[u v]|]; simpl; [|done].
  destruct (in_int4 _); simpl; [|done].
  case_bool_decide; simpl; done.
Qed.

Lemma deleteComment_delta id userId w :
  applies D_same (db w) (db (snd (deleteComment id userId w))).
Proof.
  unfold deleteComment, sql, attempt, mbind, M_bind, mret, M_ret, delete_comment. simpl.
  destruct (hd false (script w)); simpl; [done|].
  destruct (pair_param _ _) as [[u v]|]; simpl; done.
Qed.

Lemma updateComment_delta id userId updates w :
  applies D_same (db w) (db (snd (updateComment id userId updates w))).
Proof.
  unfold updateComment, sql, attempt, mbind, M_bind, mret, M_ret, update_comment. simpl.
  destruct (hd false (script w)); simpl; [done|].
  destruct (pair_param _ _) as [[u v]|]; simpl; done.
Qed.

Lemma addToWatchlist_delta item w :
  applies D_same (db w) (db (snd (addToWatchlist item w))).
Proof.
  pose proof (addToWatchlist_spec item w) as H. unfold wp in H.
  destruct (addToWatchlist item w) as [[row|e] w1]; simpl in *.
  - by destruct H as (_ & _ & u & v & _ & _ & _ & _ & [(_ & _ & ->)|(_ & _ & ->)]).
  - by destruct H as (_ & _ & [->|[_ ->]]).
Qed.

Lemma removeFromWatchlist_delta userId videoId w :
  applies D_same (db w) (db (snd (removeFromWatchlist userId videoId w))).
Proof.
  pose proof (removeFromWatchlist_spec userId videoId w) as H. unfold wp in H.
  destruct (removeFromWatchlist userId videoId w) as [[row|e] w1]; simpl in *.
  - by destruct H as (_ & _ & u & v & _ & _ & _ & _ & _ & ->).
  - by destruct H as (_ & _ & ->).
Qed.

Lemma likeVideo_delta userId videoId w :
  ∃ δ, applies δ (db w) (db (snd (likeVideo userId videoId w)))
       ∧ match δ with
         | D_same => True
         | D_like row => videoId = Int (Like.videoId row)
         | _ => False
         end.
Proof.
  pose proof (likeVideo_spec userId videoId w) as H. unfold wp in H.
  destruct (likeVideo userId videoId w) as [[row|e] w1]; simpl in *.
  - destruct H as (_ & _ & u & v & -> & -> & _ & _ & [(_ & _ & ->)|(Hnone & _ & ->)]).
    + by exists D_same.
    + by exists (D_like (Like.mk u v (Some (clock w)))).
  - destruct H as (_ & _ & ->). by exists D_same.
Qed.

Lemma dislikeVideo_delta userId videoId w :
  ∃ δ, applies δ (db w) (db (snd (dislikeVideo userId videoId w)))
       ∧ match δ with
         | D_same => True
         | D_dislike row => videoId = Int (Dislike.videoId row)
         | _ => False
         end.
Proof.
  pose proof (dislikeVideo_spec userId videoId w) as H. unfold wp in H.
  destruct (dislikeVideo userId videoId w) as [[row|e] w1]; simpl in *.
  - destruct H as (_ & _ & u & v & -> & -> & _ & _ & [(_ & _ & ->)|(Hnone & _ & ->)]).
    + by exists D_same.
    + by exists (D_dislike (Dislike.mk u v (Some (clock w)))).
  - destruct H as (_ & _ & ->). by exists D_same.
Qed.

Lemma unlikeVideo_delta userId videoId w :
  ∃ δ, applies δ (db w) (db (snd (unlikeVideo userId videoId w)))
       ∧ match δ with D_same | D_unlike _ _ => True | _ => False end.
Proof.
  pose proof (unlikeVideo_spec userId videoId w) as H. unfold wp in H.
  destruct (unlikeVideo userId videoId w) as [[row|e] w1]; simpl in *.
  - destruct H as (_ & _ & u & v & -> & -> & _ & _ & _ & ->).
    by exists (D_unlike u v).
  - destruct H as (_ & _ & ->). by exists D_same.
Qed.

Lemma undislikeVideo_delta userId videoId w :
  ∃ δ, applies δ (db w) (db (snd (undislikeVideo userId videoId w)))
       ∧ match δ with D_same | D_undislike _ _ => True | _ => False end.
Proof.
  pose proof (undislikeVideo_spec userId videoId w) as H. unfold wp in H.
  destruct (undislikeVideo userId videoId w) as [[row|e] w1]; simpl in *.
  - destruct H as (_ & _ & u & v & -> & -> & _ & _ & _ & ->).
    by exists (D_undislike u v).
  - destruct H as (_ & _ & ->). by exists D_same.
Qed.

(** Every storage call changes the videos and the join tables in one of
    the listed ways. *)
Lemma perform_delta (o : Operation) (w : World) :
  ∃ δ, applies δ (db w) (db (snd (perform o w))) ∧ caused_by o δ.
Proof.
  destruct o; simpl; rewrite void_world.
  - exists D_same. split; [apply createUser_delta|done].
  - exists D_same. split; [apply updateUser_delta|done].
  - destruct (createVideo_delta video w) as (δ & H & Hδ).
    exists δ. split; [done|]. destruct δ; simpl; try done; by eexists.
  - destruct (updateVideo_delta id updates w) as (δ & H & Hδ).
    exists δ. split; [done|]. destruct δ; simpl; try done. left. by eexists _, _.
  - destruct (deleteVideo_delta id w) as (δ & H & Hδ).
    exists δ. split; [done|]. destruct δ; simpl; try done. by eexists.
  - destruct (incrementViews_delta id w) as (δ & H & Hδ).
    exists δ. split; [done|]. destruct δ; simpl; try done. right. by eexists.
  - exists D_same. split; [apply addToWatchlist_delta|done].
  - exists D_same. split; [apply removeFromWatchlist_delta|done].
  - destruct (likeVideo_delta userId videoId w) as (δ & H & Hδ).
    exists δ. split; [done|]. destruct δ; simpl; try done. subst. by eexists.
  - destruct (unlikeVideo_delta userId videoId w) as (δ & H & Hδ).
    exists δ. split; [done|]. destruct δ; simpl; try done. by eexists _, _.
  - destruct (dislikeVideo_delta userId videoId w) as (δ & H & Hδ).
    exists δ. split; [done|]. destruct δ; simpl; try done. subst. by eexists.
  - destruct (undislikeVideo_delta userId videoId w) as (δ & H & Hδ).
    exists δ. split; [done|]. destruct δ; simpl; try done. by eexists _, _.
  - exists D_same. split; [apply createComment_delta|done].
  - exists D_same. split; [apply deleteComment_delta|done].
  - exists D_same. split; [apply updateComment_delta|done].
Qed.

(** ** Counters and join tables stay in step *)

Lemma like_count_eq d d' v : likes d' = likes d → like_count d' v = like_count d v.
Proof. unfold like_count. by intros ->. Qed.

Lemma dislike_count_eq d d' v :
  dislikes d' = dislikes d → dislike_count d' v = dislike_count d v.
Proof. unfold dislike_count. by intros ->. Qed.

Lemma no_drift_edit (f : Video.t -> Video.t) d d' :
  videos d' = map f (videos d) → likes d' = likes d → dislikes d' = dislikes d →
  (∀ x, Video.id (f x) = Video.id x ∧ Video.likes (f x) = Video.likes x
        ∧ Video.dislikes (f x) = Video.dislikes x) →
  no_drift d → no_drift d'.
Proof.
  unfold no_drift. intros -> Hl Hd Hf H.
  apply List.Forall_map. eapply Forall_impl; [exact H|]. simpl.
  intros x [Hxl Hxd]. destruct (Hf x) as (-> & -> & ->).
  by rewrite (like_count_eq _ _ _ Hl), (dislike_count_eq _ _ _ Hd).
Qed.

Lemma no_drift_same d d' :
  videos d' = videos d → likes d' = likes d → dislikes d' = dislikes d →
  no_drift d → no_drift d'.
Proof.
  intros Hv Hl Hd. apply (no_drift_edit (λ x, x)); try done.
  by rewrite List.map_id.
Qed.

Lemma no_drift_delete id d d' :
  videos d' = filter (λ x, Video.id x ≠ id) (videos d) →
  likes d' = likes d → dislikes d' = dislikes d →
  no_drift d → no_drift d'.
Proof.
  unfold no_drift. intros -> Hl Hd H.
  apply Forall_forall. intros x Hx. apply list_elem_of_filter in Hx as [_ Hx].
  rewrite Forall_forall in H. specialize (H x Hx).
  by rewrite (like_count_eq _ _ _ Hl), (dislike_count_eq _ _ _ Hd).
Qed.

Lemma no_drift_like row d d' :
  videos d' = shift_likes (Like.videoId row) 1 (videos d) →
  likes d' = (likes d ++ [row])%list → dislikes d' = dislikes d →
  no_drift d → no_drift d'.
Proof.
  unfold no_drift, shift_likes, on_video. intros -> Hl Hd H.
  apply List.Forall_map. eapply Forall_impl; [exact H|]. simpl.
  intros x [Hxl Hxd]. rewrite (dislike_count_eq _ _ _ Hd).
  unfold like_count. rewrite Hl.
  rewrite (pointing_app_last Like.videoId).
  case_bool_decide as Hid; simpl.
  - split; [|done]. rewrite Hxl. simpl. f_equal. unfold like_count.
    rewrite bool_decide_eq_true_2 by done. lia.
  - split; [|done]. rewrite Hxl. f_equal. unfold like_count.
    rewrite bool_decide_eq_false_2 by done. lia.
Qed.

Lemma no_drift_dislike row d d' :
  videos d' = shift_dislikes (Dislike.videoId row) 1 (videos d) →
  likes d' = likes d → dislikes d' = (dislikes d ++ [row])%list →
  no_drift d → no_drift d'.
Proof.
  unfold no_drift, shift_dislikes, on_video. intros -> Hl Hd H.
  apply List.Forall_map. eapply Forall_impl; [exact H|]. simpl.
  intros x [Hxl Hxd]. rewrite (like_count_eq _ _ _ Hl).
  unfold dislike_count. rewrite Hd.
  rewrite (pointing_app_last Dislike.videoId).
  case_bool_decide as Hid; simpl.
  - split; [done|]. rewrite Hxd. simpl. f_equal. unfold dislike_count.
    rewrite bool_decide_eq_true_2 by done. lia.
  - split; [done|]. rewrite Hxd. f_equal. unfold dislike_count.
    rewrite bool_decide_eq_false_2 by done. lia.
Qed.

Lemma no_drift_unlike u v d d' :
  videos d' = (if bool_decide (likes_of u v d ≠ [])
               then shift_likes v (-1) (videos d) else videos d) →
  likes d' = likes_but u v d → dislikes d' = dislikes d →
  NoDup (map like_key (likes d)) →
  no_drift d → no_drift d'.
Proof.
  intros Hv Hl Hd Hnd H. case_bool_decide as Hex.
  - unfold no_drift, shift_likes, on_video in *. rewrite Hv.
    apply List.Forall_map. eapply Forall_impl; [exact H|]. simpl.
    intros x [Hxl Hxd]. rewrite (dislike_count_eq _ _ _ Hd).
    unfold like_count. rewrite Hl. unfold likes_but.
    case_bool_decide as Hid; simpl.
    + split; [|done]. rewrite Hxl. simpl. f_equal. unfold like_count.
      pose proof (pointing_but_present Like.userId Like.videoId u v (likes d) Hnd Hex) as Hc.
      rewrite Hid. lia.
    + split; [|done]. rewrite Hxl. f_equal. unfold like_count.
      by rewrite (pointing_but_other Like.userId Like.videoId u v).
  - apply (no_drift_same d); try done.
    rewrite Hl. by apply (but_pair_absent Like.userId Like.videoId).
Qed.

Lemma no_drift_undislike u v d d' :
  videos d' = (if bool_decide (dislikes_of u v d ≠ [])
               then shift_dislikes v (-1) (videos d) else videos d) →
  likes d' = likes d → dislikes d' = dislikes_but u v d →
  NoDup (map dislike_key (dislikes d)) →
  no_drift d → no_drift d'.
Proof.
  intros Hv Hl Hd Hnd H. case_bool_decide as Hex.
  - unfold no_drift, shift_dislikes, on_video in *. rewrite Hv.
    apply List.Forall_map. eapply Forall_impl; [exact H|]. simpl.
    intros x [Hxl Hxd]. rewrite (like_count_eq _ _ _ Hl).
    unfold dislike_count. rewrite Hd. unfold dislikes_but.
    case_bool_decide as Hid; simpl.
    + split; [done|]. rewrite Hxd. simpl. f_equal. unfold dislike_count.
      pose proof (pointing_but_present Dislike.userId Dislike.videoId u v
                    (dislikes d) Hnd Hex) as Hc.
      rewrite Hid. lia.
    + split; [done|]. rewrite Hxd. f_equal. unfold dislike_count.
      by rewrite (pointing_but_other Dislike.userId Dislike.videoId u v).
  - apply (no_drift_same d); try done.
    rewrite Hd. by apply (but_pair_absent Dislike.userId Dislike.videoId).
Qed.

(** Any change but the insertion of a video keeps counters and tables in
    step, and the keys unique. *)
Lemma in_step_kept δ d d' :
  applies δ d d' →
  match δ with D_new_video _ => False | _ => True end →
  no_drift d ∧ keys_unique d → no_drift d' ∧ keys_unique d'.
Proof.
  unfold keys_unique.
  destruct δ; simpl; intros H Hδ (Hdrift & Hkl & Hkd); try done.
  - destruct H as (Hv & Hl & Hd & _). rewrite Hl, Hd.
    split; [by apply (no_drift_same d)|done].
  - destruct H as (Hv & Hl & Hd & _). rewrite Hl, Hd.
    split; [by apply (no_drift_same d)|done].
  - destruct H as (Hv & Hl & Hd & _ & Hf). rewrite Hl, Hd.
    split; [|done]. apply (no_drift_edit f d); try done. intros x. by destruct (Hf x) as (? & ? & ? & _).
  - destruct H as (Hv & Hl & Hd & _). rewrite Hl, Hd.
    split; [by apply (no_drift_delete id d)|done].
  - destruct H as (Hnone & Hv & Hl & Hd & _). rewrite Hl, Hd.
    split; [by apply (no_drift_like row d)|]. split; [|done].
    by apply (keys_app_last Like.userId Like.videoId).
  - destruct H as (Hv & Hl & Hd & _). rewrite Hl, Hd.
    split; [by apply (no_drift_unlike u v d)|]. split; [|done].
    by apply (keys_but Like.userId Like.videoId).
  - destruct H as (Hnone & Hv & Hl & Hd & _). rewrite Hl, Hd.
    split; [by apply (no_drift_dislike row d)|]. split; [done|].
    by apply (keys_app_last Dislike.userId Dislike.videoId).
  - destruct H as (Hv & Hl & Hd & _). rewrite Hl, Hd.
    split; [by apply (no_drift_undislike u v d)|]. split; [done|].
    by apply (keys_but Dislike.userId Dislike.videoId).
Qed.

Lemma ids_issued_kept δ d d' :
  applies δ d d' →
  match δ with
  | D_like row => Exists (λ x, Video.id x = Like.videoId row) (videos d)
  | D_dislike row => Exists (λ x, Video.id x = Dislike.videoId row) (videos d)
  | _ => True
  end →
  ids_issued d → ids_issued d'.
Proof.
  unfold ids_issued.
  destruct δ; simpl; intros H Hguard (Hv & Hl & Hd).
  - by destruct H as (-> & -> & -> & ->).
  - destruct H as (-> & -> & -> & ->).
    repeat split; (eapply Forall_impl; [eassumption|]); simpl; intros; lia.
  - destruct H as (-> & -> & -> & -> & Hid & _).
    repeat split.
    + apply Forall_app. split.
      * eapply Forall_impl; [eassumption|]; simpl; intros; lia.
      * apply Forall_singleton. lia.
    + eapply Forall_impl; [eassumption|]; simpl; intros; lia.
    + eapply Forall_impl; [eassumption|]; simpl; intros; lia.
  - destruct H as (-> & -> & -> & -> & Hf). repeat split; try done.
    apply List.Forall_map. eapply Forall_impl; [eassumption|]. simpl.
    intros x Hx. by destruct (Hf x) as (-> & _).
  - destruct H as (-> & -> & -> & ->). repeat split; try done.
    apply Forall_forall. intros x Hx. apply list_elem_of_filter in Hx as [_ Hx].
    rewrite Forall_forall in Hv. by apply Hv.
  - destruct H as (_ & -> & -> & -> & ->). repeat split; try done.
    + unfold shift_likes, on_video. apply List.Forall_map.
      eapply Forall_impl; [eassumption|]. simpl. intros x Hx. by case_bool_decide.
    + apply Forall_app. split; [done|]. apply Forall_singleton.
      apply Exists_exists in Hguard as (x & Hx & <-).
      rewrite Forall_forall in Hv. by apply Hv.
  - destruct H as (-> & -> & -> & ->). repeat split; try done.
    + case_bool_decide; [|done]. unfold shift_likes, on_video.
      apply List.Forall_map.
      eapply Forall_impl; [eassumption|]. simpl. intros x Hx. by case_bool_decide.
    + apply Forall_forall. intros x Hx. apply list_elem_of_filter in Hx as [_ Hx].
      rewrite Forall_forall in Hl. by apply Hl.
  - destruct H as (_ & -> & -> & -> & ->). repeat split; try done.
    + unfold shift_dislikes, on_video. apply List.Forall_map.
      eapply Forall_impl; [eassumption|]. simpl. intros x Hx. by case_bool_decide.
    + apply Forall_app. split; [done|]. apply Forall_singleton.
      apply Exists_exists in Hguard as (x & Hx & <-).
      rewrite Forall_forall in Hv. by apply Hv.
  - destruct H as (-> & -> & -> & ->). repeat split; try done.
    + case_bool_decide; [|done]. unfold shift_dislikes, on_video.
      apply List.Forall_map.
      eapply Forall_impl; [eassumption|]. simpl. intros x Hx. by case_bool_decide.
    + apply Forall_forall. intros x Hx. apply list_elem_of_filter in Hx as [_ Hx].
      rewrite Forall_forall in Hd. by apply Hd.
Qed.

Lemma none_pointing {A} (vid : A -> Z) (bound : Z) (l : list A) :
  Forall (λ r, vid r < bound) l → filter (λ r, vid r = bound) l = [].
Proof.
  induction 1 as [|r l Hr _ IH]; [done|].
  rewrite filter_cons, decide_False by lia. done.
Qed.

Lemma no_drift_new_video row d d' :
  applies (D_new_video row) d d' → ids_issued d → no_drift d → no_drift d'.
Proof.
  simpl. unfold ids_issued, no_drift.
  intros (Hv & Hl & Hd & _ & Hid & _ & _ & Hlikes & Hdislikes) (_ & Hil & Hid') H.
  rewrite Hv. apply Forall_app. split.
  - eapply Forall_impl; [exact H|]. simpl. intros x Hx.
    by rewrite (like_count_eq _ _ _ Hl), (dislike_count_eq _ _ _ Hd).
  - apply Forall_singleton.
    unfold like_count, dislike_count. rewrite Hl, Hd, Hid.
    rewrite (none_pointing Like.videoId _ _ Hil).
    rewrite (none_pointing Dislike.videoId _ _ Hid'). done.
Qed.

(** The invariant of the guarded storage calls. *)
Lemma guarded_invariant d :
  guarded_reachable d → no_drift d ∧ keys_unique d ∧ ids_issued d.
Proof.
  induction 1 as [|d c _ (Hdrift & Hkeys & Hids) Hguard].
  - unfold no_drift, keys_unique, ids_issued. simpl.
    repeat split; constructor.
  - unfold after.
    destruct (perform_delta (op c) (mkWorld d ∅ (at_time c) (failures c) 0))
      as (δ & Hδ & Hby). simpl in Hδ.
    assert (ids_issued (db (snd (perform (op c)
              (mkWorld d ∅ (at_time c) (failures c) 0))))) as Hids'.
    { apply (ids_issued_kept δ d); try done.
      destruct δ; try done; simpl in Hby; destruct Hby as [userId Hop];
        rewrite Hop in Hguard; simpl in Hguard;
        (eapply Exists_impl; [exact Hguard|]); simpl; by intros x [= ->]. }
    enough (no_drift (db (snd (perform (op c)
              (mkWorld d ∅ (at_time c) (failures c) 0))))
            ∧ keys_unique (db (snd (perform (op c)
                (mkWorld d ∅ (at_time c) (failures c) 0))))) as [? ?] by done.
    destruct δ; try (by apply (in_step_kept _ d _ Hδ)).
    split; [by apply (no_drift_new_video row d)|].
    unfold keys_unique. destruct Hδ as (_ & -> & -> & _). apply Hkeys.
Qed.

(** Against C2: [likeVideo] for the id 1, which no video carries yet,
    stores the row; the next upload is given the id 1 and starts with a
    likes counter of 0, although one row of likes points at it. *)
Lemma drift_counterexample :
  storage_reachable drifted_db
  ∧ Exists (λ x, Video.id x = 1 ∧ Video.likes x = Some 0) (videos drifted_db)
  ∧ like_count drifted_db 1 = 1
  ∧ ¬ no_drift drifted_db.
Proof.
  split; [|split; [|split]].
  - unfold drifted_db, after_all. simpl. do 2 apply reach_call. apply reach_empty.
  - vm_compute. constructor. done.
  - by vm_compute.
  - unfold no_drift. intros H.
    assert (videos drifted_db = [Video.mk 1 "abc" None "/uploads/t.png"
              "/uploads/v.mp4" "Action" 2 (Some 0) (Some 0) (Some 0) (Some 10)
              (Some false)]) as Hv by (by vm_compute).
    rewrite Hv in H. apply Forall_singleton in H as [H _]. simpl in H.
    assert (like_count drifted_db 1 = 1) as Hc by (by vm_compute).
    rewrite Hc in H. discriminate.
Qed.

(** C2, amended.  In every state reachable from the empty database by
    storage operations, with [likeVideo] and [dislikeVideo] called for
    videos that exist (the routes check this before they call them), the
    likes counter of every video is the number of likes rows for it and
    the dislikes counter the number of dislikes rows, and the keys of both
    tables are unique.  Every like, unlike, dislike, undislike, watchlist
    and comment operation, guarded or not, takes a database with unique
    keys and without drift to one with unique keys and without drift. *)
Theorem counters_follow_join_tables :
  (∀ d, guarded_reachable d → no_drift d ∧ keys_unique d)
  ∧ (∀ o w, interaction o = true →
            no_drift (db w) → keys_unique (db w) →
            no_drift (db (snd (perform o w)))
            ∧ keys_unique (db (snd (perform o w)))).
Proof.
  split.
  - intros d Hd. by destruct (guarded_invariant d Hd) as (? & ? & _).
  - intros o w Ho Hdrift Hkeys.
    destruct (perform_delta o w) as (δ & Hδ & Hby).
    apply (in_step_kept δ (db w)); try done.
    destruct δ; try done; simpl in Hby; destruct Hby as [video ->]; done.
Qed.

Lemma counters_follow_join_tables_witness :
  (no_drift voted_db ∧ keys_unique voted_db)
  ∧ (no_drift (db (snd (perform (Op_unlikeVideo (Int 7) (Int 1)) (world_of voted_db))))
     ∧ keys_unique (db (snd (perform (Op_unlikeVideo (Int 7) (Int 1)) (world_of voted_db))))).
Proof.
  destruct counters_follow_join_tables as [Hreach Hstep].
  assert (guarded_reachable voted_db) as Hg.
  { unfold voted_db, one_video_db, after_all. simpl.
    apply guarded_call; [apply guarded_call; [apply guarded_call|]|].
    - apply guarded_empty.
    - done.
    - vm_compute. constructor. done.
    - vm_compute. constructor. done. }
  split; [by apply Hreach|].
  destruct (Hreach _ Hg) as [? ?]. by apply (Hstep _ (world_of voted_db)).
Defined.

(** ** The delete routes *)

Ltac quiet_absurd Hq :=
  let H := fresh in
  intros H; exfalso; simpl in H;
  rewrite quiet_hd in H by (simpl; repeat apply quiet_tail; exact Hq);
  discriminate.

Lemma int4_param_Int i : in_int4 i = true → int4_param (Int i) = Ok i.
Proof. intros H. unfold int4_param. by rewrite H. Qed.

(** [remove_upload] when nothing fails: the file is gone afterwards. *)
Lemma wp_remove_upload_quiet url Q w :
  quiet (script w) →
  (∀ w', db w' = db w → clock w' = clock w → quiet (script w') →
         disk w' = disk w ∖ upload_file url → Q (Ok ()) w') →
  wp (remove_upload url) Q w.
Proof.
  intros Hq HQ. unfold remove_upload, upload_file in *.
  destruct (truthy url).
  - apply wp_bind, wp_existsSync. case_bool_decide as Hin.
    + apply wp_unlinkSync; [quiet_absurd Hq|done|]. intros _ _.
      apply HQ; simpl; try done. by apply quiet_tail.
    + apply wp_ret, HQ; try done. set_solver.
  - apply wp_ret, HQ; try done. set_solver.
Qed.

(** [remove_upload] in general: the database is not touched, and no file
    but the one named is removed. *)
Lemma wp_remove_upload url (Q : Res unit -> World -> Prop) w :
  (∀ r w', db w' = db w → clock w' = clock w → disk w' ⊆ disk w →
           (∃ k, script w' = drop k (script w)) → Q r w') →
  wp (remove_upload url) Q w.
Proof.
  intros HQ. unfold remove_upload.
  destruct (truthy url).
  - apply wp_bind, wp_existsSync. case_bool_decide as Hin.
    + apply wp_unlinkSync; intros; apply HQ; simpl; try done; try set_solver;
        by exists 1%nat; destruct (script w).
    + apply wp_ret, HQ; try done. by exists 0%nat.
  - apply wp_ret, HQ; try done. by exists 0%nat.
Qed.

Lemma wp_getVideo id Q w :
  (hd false (script w) = true → ∀ e n, Q (Throw e) (set_raised n (next w))) →
  (hd false (script w) = false →
   match int4_param id with
   | Ok i => Q (Ok (video_of i (db w))) (next w)
   | Throw e => ∀ n, Q (Throw e) (set_raised n (next w))
   end) →
  wp (getVideo id) Q w.
Proof.
  intros Hfail Hrun. unfold getVideo. apply wp_bind, wp_select; [done|].
  intros H. specialize (Hrun H).
  destruct (int4_param id) as [i|e]; simpl; [|done]. by apply wp_ret.
Qed.

Lemma wp_deleteVideo id Q w :
  (hd false (script w) = true → ∀ e n, Q (Throw e) (set_raised n (next w))) →
  (hd false (script w) = false →
   match int4_param id with
   | Ok i => Q (Ok (bool_decide (video_of i (db w) ≠ None)))
               (set_db (set_videos (filter (λ x, Video.id x ≠ i) (videos (db w)))
                          (db w)) (next w))
   | Throw e => ∀ n, Q (Throw e) (set_raised n (next w))
   end) →
  wp (deleteVideo id) Q w.
Proof.
  intros Hfail Hrun. unfold deleteVideo. apply wp_bind, wp_sql; [done|].
  intros H. specialize (Hrun H). unfold delete_video.
  destruct (int4_param id) as [i|e]; simpl; [|intros n; by open_world w].
  apply wp_ret. rewrite length_pos_nil. unfold video_of in Hrun.
  replace (bool_decide (filter (λ v, Video.id v = i) (videos (db w)) ≠ []))
    with (bool_decide (head (filter (λ x, Video.id x = i) (videos (db w))) ≠ None));
    [done|].
  by destruct (filter _ _).
Qed.

(** The administrator deletes an existing video through either route. *)
Lemma admin_delete_existing w admin i v body_reason :
  User.id admin = 1 → video_of i (db w) = Some v →
  in_int4 i = true → quiet (script w) →
  wp (handle (Some admin) (DELETE_video (Int i))) (λ r w',
    r = Ok (json JSuccess)
    ∧ db w' = set_videos (filter (λ x, Video.id x ≠ i) (videos (db w))) (db w)
    ∧ disk w' = disk w ∖ files_of v) w
  ∧ wp (handle (Some admin) (DELETE_moderation_video (Int i) body_reason)) (λ r w',
      r = Ok (json (JTerminated (Int i) (reason_given body_reason)))
      ∧ db w' = set_videos (filter (λ x, Video.id x ≠ i) (videos (db w))) (db w)
      ∧ disk w' = disk w ∖ files_of v) w.
Proof.
  intros Hadmin Hv Hi Hq. split.
  - simpl. unfold delete_video_route, requireAuth, catch_500.
    apply wp_try_catch, wp_bind, wp_getVideo; [quiet_absurd Hq|]. intros _.
    rewrite (int4_param_Int _ Hi), Hv.
    rewrite (bool_decide_eq_true_2 _ Hadmin). simpl.
    apply wp_bind, wp_remove_upload_quiet; [by apply quiet_tail|].
    intros w1 Hdb1 _ Hq1 Hdisk1.
    apply wp_bind, wp_remove_upload_quiet; [done|].
    intros w2 Hdb2 _ Hq2 Hdisk2.
    apply wp_bind, wp_deleteVideo; [quiet_absurd Hq2|]. intros _.
    rewrite (int4_param_Int _ Hi). apply wp_ret. simpl.
    rewrite Hdb2, Hdb1, Hdisk2, Hdisk1. simpl.
    repeat split; try done. unfold files_of. set_solver.
  - simpl. unfold delete_moderation_video, requireAuth, catch_500.
    rewrite (bool_decide_eq_true_2 _ Hadmin). simpl.
    apply wp_try_catch, wp_bind, wp_getVideo; [quiet_absurd Hq|]. intros _.
    rewrite (int4_param_Int _ Hi), Hv.
    apply wp_bind, wp_remove_upload_quiet; [by apply quiet_tail|].
    intros w1 Hdb1 _ Hq1 Hdisk1.
    apply wp_bind, wp_remove_upload_quiet; [done|].
    intros w2 Hdb2 _ Hq2 Hdisk2.
    apply wp_bind, wp_deleteVideo; [quiet_absurd Hq2|]. intros _.
    rewrite (int4_param_Int _ Hi). apply wp_ret. simpl.
    rewrite Hdb2, Hdb1, Hdisk2, Hdisk1. simpl.
    repeat split; try done. unfold files_of. set_solver.
Qed.

(** For an id no video carries, both routes change nothing, and answer
    404 when the lookup does not fail. *)
Lemma admin_delete_missing w admin i body_reason :
  User.id admin = 1 → video_of i (db w) = None →
  wp (handle (Some admin) (DELETE_video (Int i))) (λ r w',
    db w' = db w ∧ disk w' = disk w
    ∧ (in_int4 i = true → hd false (script w) = false →
       r = Ok (status_json 404 (JMessage "Video not found")))) w
  ∧ wp (handle (Some admin) (DELETE_moderation_video (Int i) body_reason)) (λ r w',
      db w' = db w ∧ disk w' = disk w
      ∧ (in_int4 i = true → hd false (script w) = false →
         r = Ok (status_json 404 (JMessage "Video not found")))) w.
Proof.
  intros Hadmin Hv. split.
  - simpl. unfold delete_video_route, requireAuth, catch_500.
    apply wp_try_catch, wp_bind, wp_getVideo.
    + intros H e n. apply wp_ret. simpl. repeat split; try done. congruence.
    + intros H. unfold int4_param. destruct (in_int4 i); simpl.
      * rewrite Hv. by apply wp_ret.
      * intros n. apply wp_ret. simpl. repeat split; done.
  - simpl. unfold delete_moderation_video, requireAuth, catch_500.
    rewrite (bool_decide_eq_true_2 _ Hadmin). simpl.
    apply wp_try_catch, wp_bind, wp_getVideo.
    + intros H e n. apply wp_ret. simpl. repeat split; try done. congruence.
    + intros H. unfold int4_param. destruct (in_int4 i); simpl.
      * rewrite Hv. by apply wp_ret.
      * intros n. apply wp_ret. simpl. repeat split; done.
Qed.

Lemma video_of_deleted i (d : Database) :
  video_of i (set_videos (filter (λ x, Video.id x ≠ i) (videos d)) d) = None.
Proof.
  unfold video_of. simpl.
  induction (videos d) as [|x l IH]; [done|].
  rewrite filter_cons. case_decide as Hx; [|done].
  by rewrite filter_cons, decide_False.
Qed.



(** C8. A user whose id is not 1 cannot delete the video of somebody
    else through [DELETE /api/videos/:id]: nothing is deleted, and the
    answer is 403 when the lookup does not fail.  Through
    [DELETE /api/moderation/videos/:id] such a user gets 403 whatever the
    id, the body and the state, before any statement is sent.  Of the
    session user both routes read the id and nothing else: two users with
    the same id get the same outcome. *)
Theorem only_user_1_moderates (w : World) (u : User.t) (i : Z) :
  User.id u ≠ 1 →
  (∀ v, video_of i (db w) = Some v → Video.userId v ≠ User.id u →
     wp (handle (Some u) (DELETE_video (Int i))) (λ r w',
       db w' = db w ∧ disk w' = disk w
       ∧ (in_int4 i = true → hd false (script w) = false →
          r = Ok (status_json 403 (JMessage "You can only delete your own videos")))) w)
  ∧ (∀ id body_reason,
       handle (Some u) (DELETE_moderation_video id body_reason) w
       = (Ok (status_json 403 (JMessage "Only administrators can terminate videos")), w))
  ∧ (∀ u' id body_reason, User.id u' = User.id u →
       handle (Some u') (DELETE_video id) w = handle (Some u) (DELETE_video id) w
       ∧ handle (Some u') (DELETE_moderation_video id body_reason) w
         = handle (Some u) (DELETE_moderation_video id body_reason) w).
Proof.
  intros Hu. split; [|split].
  - intros v Hv Hother. simpl. unfold delete_video_route, requireAuth, catch_500.
    apply wp_try_catch, wp_bind, wp_getVideo.
    + intros H e n. apply wp_ret. simpl. repeat split; try done. congruence.
    + intros H. unfold int4_param. destruct (in_int4 i); simpl.
      * rewrite Hv. rewrite (bool_decide_eq_false_2 _ Hu).
        rewrite (bool_decide_eq_false_2 _ Hother). simpl. by apply wp_ret.
      * intros n. apply wp_ret. simpl. repeat split; done.
  - intros id body_reason. simpl.
    unfold delete_moderation_video, requireAuth, catch_500, try_catch.
    by rewrite (bool_decide_eq_false_2 _ Hu).
  - intros u' id body_reason Hid. simpl.
    unfold delete_video_route, delete_moderation_video, requireAuth.
    by rewrite Hid.
Qed.

Lemma only_user_1_moderates_witness :
  db (snd (handle (Some visitor) (DELETE_video (Int 1)) stocked_world))
  = db stocked_world
  ∧ fst (handle (Some visitor) (DELETE_video (Int 1)) stocked_world)
    = Ok (status_json 403 (JMessage "You can only delete your own videos"))
  ∧ handle (Some visitor) (DELETE_moderation_video (Int 1) None) stocked_world
    = (Ok (status_json 403 (JMessage "Only administrators can terminate videos")),
       stocked_world).
Proof.
  assert (User.id visitor ≠ 1) as Hu by (by vm_compute).
  destruct (only_user_1_moderates stocked_world visitor 1 Hu) as (Hown & Hmod & _).
  assert (Video.userId
            (Video.mk 1 "abc" None "/uploads/t.png" "/uploads/v.mp4" "Action" 2
               (Some 0) (Some 0) (Some 0) (Some 10) (Some false))
          ≠ User.id visitor) as Hother by (by vm_compute).
  pose proof (Hown _ eq_refl Hother) as (Hdb & _ & Hr).
  split; [exact Hdb|]. split; [exact (Hr eq_refl eq_refl)|]. apply Hmod.
Defined.

(** ** What holds of the videos in every reachable database *)

Lemma videos_sound_map (g : Video.t -> Video.t) d d' :
  (∀ x, Video.id (g x) = Video.id x
        ∧ (is_Some (Video.views x) → is_Some (Video.views (g x)))) →
  videos d' = map g (videos d) → videos_id_seq d' = videos_id_seq d →
  videos_sound d → videos_sound d'.
Proof.
  unfold videos_sound. intros Hg -> -> [Hnd Hall]. split.
  - rewrite List.map_map.
    rewrite (List.map_ext _ Video.id); [done|]. intros x. by destruct (Hg x).
  - apply List.Forall_map. eapply Forall_impl; [exact Hall|]. simpl.
    intros x [Hlt Hviews]. destruct (Hg x) as [-> Hv]. auto.
Qed.

Lemma on_video_keeps v f :
  (∀ x, Video.id (f x) = Video.id x
        ∧ (is_Some (Video.views x) → is_Some (Video.views (f x)))) →
  ∀ x, Video.id ((λ x, if bool_decide (Video.id x = v) then f x else x) x)
       = Video.id x
       ∧ (is_Some (Video.views x) →
          is_Some (Video.views ((λ x, if bool_decide (Video.id x = v) then f x else x) x))).
Proof. intros Hf x. simpl. case_bool_decide; [apply Hf|done]. Qed.

Lemma videos_sound_kept δ d d' :
  applies δ d d' → videos_sound d → videos_sound d'.
Proof.
  destruct δ; simpl; intros H Hs.
  - destruct H as (Hv & _ & _ & Hseq).
    apply (videos_sound_map (λ x, x) d); try done. by rewrite List.map_id.
  - destruct H as (Hv & _ & _ & Hseq). destruct Hs as [Hnd Hall].
    unfold videos_sound. rewrite Hv, Hseq. split; [done|].
    eapply Forall_impl; [exact Hall|]. simpl. intros x [? ?]. split; [lia|done].
  - destruct H as (Hv & _ & _ & Hseq & Hid & _ & Hviews & _).
    destruct Hs as [Hnd Hall]. unfold videos_sound. rewrite Hv, Hseq. split.
    + rewrite map_app. simpl. apply NoDup_app. split; [done|].
      split; [|apply NoDup_singleton].
      intros k Hk Hr. apply list_elem_of_singleton in Hr as ->.
      apply list_elem_of_fmap in Hk as (x & Hkx & Hin).
      rewrite Forall_forall in Hall. destruct (Hall x Hin) as [Hlt _]. lia.
    + apply Forall_app. split.
      * eapply Forall_impl; [exact Hall|]. simpl. intros x [? ?]. split; [lia|done].
      * apply Forall_singleton. rewrite Hviews. split; [lia|by eexists].
  - destruct H as (Hv & _ & _ & Hseq & Hf).
    apply (videos_sound_map f d); try done. intros x. by destruct (Hf x) as (? & _ & _ & ?).
  - destruct H as (Hv & _ & _ & Hseq). destruct Hs as [Hnd Hall].
    unfold videos_sound. rewrite Hv, Hseq. split.
    + clear Hall Hv. revert Hnd. induction (videos d) as [|x l IH]; [done|].
      simpl. intros Hnd. apply NoDup_cons in Hnd as [Hx Hnd].
      rewrite filter_cons. case_decide; [|by apply IH]. simpl.
      apply NoDup_cons. split; [|by apply IH].
      intros Hin. apply Hx. apply list_elem_of_fmap in Hin as (y & Hy & Hin).
      apply list_elem_of_filter in Hin as [_ Hin].
      apply list_elem_of_fmap. by exists y.
    + apply Forall_forall. intros x Hx. apply list_elem_of_filter in Hx as [_ Hx].
      rewrite Forall_forall in Hall. by apply Hall.
  - destruct H as (_ & Hv & _ & _ & Hseq).
    eapply videos_sound_map; [|exact Hv|exact Hseq|exact Hs].
    by apply on_video_keeps.
  - destruct H as (Hv & _ & _ & Hseq). case_bool_decide.
    + eapply videos_sound_map; [|exact Hv|exact Hseq|exact Hs].
      by apply on_video_keeps.
    + apply (videos_sound_map (λ x, x) d); try done. by rewrite List.map_id.
  - destruct H as (_ & Hv & _ & _ & Hseq).
    eapply videos_sound_map; [|exact Hv|exact Hseq|exact Hs].
    by apply on_video_keeps.
  - destruct H as (Hv & _ & _ & Hseq). case_bool_decide.
    + eapply videos_sound_map; [|exact Hv|exact Hseq|exact Hs].
      by apply on_video_keeps.
    + apply (videos_sound_map (λ x, x) d); try done. by rewrite List.map_id.
Qed.

(** In any database the storage operations produce, video ids are unique
    and the views counter of every video is set. *)
Lemma reachable_videos_sound d : storage_reachable d → videos_sound d.
Proof.
  induction 1 as [|d c _ IH].
  - split; constructor.
  - unfold after.
    destruct (perform_delta (op c) (mkWorld d ∅ (at_time c) (failures c) 0))
      as (δ & Hδ & _).
    by apply (videos_sound_kept δ d).
Qed.

(** The first row with a given id splits the table; with unique ids no
    other row has this id. *)
Lemma video_of_split i d v :
  NoDup (map Video.id (videos d)) → video_of i d = Some v →
  ∃ before after,
    videos d = (before ++ v :: after)%list ∧ Video.id v = i
    ∧ Forall (λ x, Video.id x ≠ i) before ∧ Forall (λ x, Video.id x ≠ i) after.
Proof.
  unfold video_of. induction (videos d) as [|x l IH]; [done|].
  simpl. intros Hnd. apply NoDup_cons in Hnd as [Hx Hnd].
  rewrite filter_cons. case_decide as Hid; simpl.
  - intros [= ->]. exists [], l. repeat split; try done.
    apply Forall_forall. intros y Hy Hyi. apply Hx.
    apply list_elem_of_fmap. exists y. split; [congruence|done].
  - intros Hv. destruct (IH Hnd Hv) as (before & after & -> & Hvi & Hb & Ha).
    exists (x :: before), after. repeat split; try done. by constructor.
Qed.

Lemma on_video_split i f before v after :
  Video.id v = i →
  Forall (λ x, Video.id x ≠ i) before → Forall (λ x, Video.id x ≠ i) after →
  on_video i f (before ++ v :: after)%list = (before ++ f v :: after)%list.
Proof.
  intros Hv Hb Ha. unfold on_video. rewrite map_app. simpl.
  rewrite (bool_decide_eq_true_2 _ Hv). f_equal; [|f_equal].
  - induction Hb as [|x l Hx _ IH]; [done|]. simpl.
    by rewrite (bool_decide_eq_false_2 _ Hx), IH.
  - induction Ha as [|x l Hx _ IH]; [done|]. simpl.
    by rewrite (bool_decide_eq_false_2 _ Hx), IH.
Qed.

(** ** Fetching a video counts a view *)

Lemma video_of_member i d v :
  video_of i d = Some v → v ∈ videos d ∧ Video.id v = i.
Proof.
  unfold video_of. intros H.
  destruct (filter _ _) as [|x l] eqn:Hf; [done|]. simpl in H. injection H as ->.
  assert (v ∈ filter (λ x, Video.id x = i) (videos d)) as Hin by (rewrite Hf; left).
  apply list_elem_of_filter in Hin as [? ?]. done.
Qed.

Lemma video_of_middle i before v after :
  Video.id v = i → Forall (λ x, Video.id x ≠ i) before →
  head (filter (λ x, Video.id x = i) (before ++ v :: after)%list) = Some v.
Proof.
  intros Hv Hb. induction Hb as [|x l Hx _ IH]; simpl.
  - by rewrite filter_cons, decide_True.
  - by rewrite filter_cons, decide_False.
Qed.

(** C9. In a database produced by the storage operations, every
    [GET /api/videos/:id] answered with 200 finds the video, sends it as
    it was read, and leaves the database with that one record changed in
    that one field: views is one more than the value sent.  The answer is
    200 when the video exists, no statement fails and the counter has
    room. *)
Theorem fetching_a_video_counts_a_view (w : World) (user : option User.t)
    (id : num) :
  storage_reachable (db w) →
  wp (handle user (GET_video id)) (λ r w',
    (∀ resp, r = Ok resp → status resp = 200 →
       ∃ i v n before after,
         id = Int i ∧ video_of i (db w) = Some v ∧ Video.views v = Some n
         ∧ body resp = JVideo (Some v)
         ∧ videos (db w) = (before ++ v :: after)%list
         ∧ db w' = set_videos
                     (before ++ set_video_views (Some (n + 1)) v :: after)%list
                     (db w)
         ∧ video_of i (db w') = Some (set_video_views (Some (n + 1)) v)
         ∧ disk w' = disk w)
    ∧ (∀ i v, id = Int i → video_of i (db w) = Some v → in_int4 i = true →
              quiet (script w) → room Video.views i 1 (db w) →
              r = Ok (json (JVideo (Some v))))) w.
Proof.
  intros Hreach. apply reachable_videos_sound in Hreach as [Hnd Hall].
  simpl. unfold get_video, catch_500.
  apply wp_try_catch, wp_bind, wp_getVideo.
  { intros H e k. apply wp_ret. simpl. split; [by intros resp [= <-]|].
    intros i v _ _ _ Hq. rewrite (quiet_hd _ Hq) in H. done. }
  intros H0. destruct id as [|i]; simpl.
  { intros k. apply wp_ret. simpl. split; [by intros resp [= <-]|]. by intros i v [=]. }
  destruct (in_int4 i) eqn:Hi; simpl.
  2:{ intros k. apply wp_ret. simpl. split; [by intros resp [= <-]|].
      intros i' v [= <-]. congruence. }
  destruct (video_of i (db w)) as [v|] eqn:Hv.
  2:{ apply wp_ret. simpl. split; [by intros resp [= <-]|].
      intros i' v [= <-]. congruence. }
  destruct (video_of_split i (db w) v Hnd Hv) as (before & after & Hsplit & Hvi & Hb & Ha).
  destruct (video_of_member _ _ _ Hv) as [Hin _].
  rewrite Forall_forall in Hall. destruct (Hall v Hin) as [_ [n Hn]].
  unfold incrementViews. apply wp_bind, wp_bind, wp_sql.
  { intros H e k. simpl in H. apply wp_ret. simpl. split; [by intros resp [= <-]|].
    intros i' v' _ _ _ Hq. apply quiet_tail in Hq. rewrite (quiet_hd _ Hq) in H. done. }
  intros H1. simpl.
  destruct (update_videos _ _ _) as [[rows|e] d'] eqn:Hup; simpl.
  - apply (update_videos_Ok _ _ _ _ _ _ (bump_views_Ok 1)) in Hup as (_ & -> & _).
    apply wp_ret, wp_ret. simpl.
    split; [|intros i' v' [= <-] Hv'; rewrite Hv in Hv'; by injection Hv' as <-].
    intros resp [= <-] _. exists i, v, n, before, after.
    assert (on_video i (λ x, set_video_views ((λ n, n + 1) <$> Video.views x) x)
              (videos (db w))
            = (before ++ set_video_views (Some (n + 1)) v :: after)%list) as Hnew.
    { rewrite Hsplit. rewrite (on_video_split i _ before v after Hvi Hb Ha).
      by rewrite Hn. }
    rewrite Hnew. repeat split; try done.
    unfold video_of. simpl. by apply video_of_middle.
  - intros k. apply wp_ret. simpl. split; [by intros resp [= <-]|].
    intros i' v' [= <-] _ _ Hq Hroom. exfalso.
    rewrite (update_videos_room _
               (λ x, set_video_views ((λ n, n + 1) <$> Video.views x) x)) in Hup;
      [done|done|].
    eapply Forall_impl; [exact (room_Forall _ _ _ _ Hroom)|]. simpl.
    intros x Hx Hid. unfold bump_views. rewrite int4_add_room; [done|]. by apply Hx.
Qed.

Lemma fetching_a_video_counts_a_view_witness :
  fst (handle None (GET_video (Int 1)) stocked_world)
  = Ok (json (JVideo (video_of 1 (db stocked_world)))).
Proof.
  assert (storage_reachable (db stocked_world)) as Hreach.
  { simpl. unfold one_video_db. apply reach_call, reach_empty. }
  destruct (fetching_a_video_counts_a_view stocked_world None (Int 1) Hreach)
    as [_ Hok].
  refine (Hok 1 _ eq_refl eq_refl eq_refl _ eq_refl). constructor.
Defined.

(** ** Updating a video asks for no identity *)

Lemma video_of_on_video i f (l : list Video.t) :
  (∀ x, Video.id (f x) = Video.id x) →
  head (filter (λ x, Video.id x = i) (on_video i f l))
  = f <$> head (filter (λ x, Video.id x = i) l).
Proof.
  intros Hf. unfold on_video. induction l as [|x l IH]; [done|]. simpl.
  case_bool_decide as Hx.
  - rewrite !filter_cons. rewrite Hf. by rewrite !decide_True.
  - rewrite !filter_cons. by rewrite !decide_False.
Qed.

(** C10. [PUT /api/videos/:id] does not look at the session: for the same
    id and body every user, and no user, gets the same response and
    leaves the same world.  So whoever sends a valid body for the id of
    an existing video has the record rewritten with it (title, thumbnail,
    category, featured, and the description when given), and is sent the
    rewritten record. *)
Theorem anyone_updates_any_video (w : World) (id : num) (updates : VideoBody.t) :
  (∀ user1 user2,
     handle user1 (PUT_video id updates) w = handle user2 (PUT_video id updates) w)
  ∧ (∀ user i v data,
       id = Int i → in_int4 i = true → video_of i (db w) = Some v →
       parse_update_video updates (is_true_text (VideoBody.featured updates))
       = Some data →
       quiet (script w) →
       wp (handle user (PUT_video id updates)) (λ r w',
         r = Ok (json (JVideo (Some (change_video data v))))
         ∧ db w' = set_videos (on_video i (change_video data) (videos (db w))) (db w)
         ∧ disk w' = disk w) w).
Proof.
  split; [done|].
  intros user i v data -> Hi Hv Hparse Hq. simpl. unfold put_video, catch_500.
  apply wp_try_catch, wp_bind, wp_getVideo; [quiet_absurd Hq|]. intros _.
  rewrite (int4_param_Int _ Hi), Hv, Hparse.
  unfold updateVideo. apply wp_bind, wp_bind, wp_sql; [quiet_absurd Hq|]. intros _.
  simpl.
  rewrite (update_videos_room _ (change_video data)); [|done|].
  - simpl. apply wp_ret, wp_ret. simpl. split; [|done].
    rewrite video_of_on_video by done. unfold video_of in Hv. by rewrite Hv.
  - simpl. apply Forall_forall. done.
Qed.

Lemma anyone_updates_any_video_witness :
  fst (handle None (PUT_video (Int 1)
         (VideoBody.mk (Str "new title") Undefined (Str "/etc/passwd")
            (Str "Comedy") (Str "true"))) stocked_world)
  = Ok (json (JVideo (Some
      (Video.mk 1 "new title" None "/etc/passwd" "/uploads/v.mp4" "Comedy" 2
         (Some 0) (Some 0) (Some 0) (Some 10) (Some true))))).
Proof.
  destruct (anyone_updates_any_video stocked_world (Int 1)
              (VideoBody.mk (Str "new title") Undefined (Str "/etc/passwd")
                 (Str "Comedy") (Str "true"))) as [_ H].
  refine (proj1 (H None 1 _ _ eq_refl eq_refl eq_refl eq_refl _)). constructor.
Defined.

(** ** Catalog search *)

Lemma ilike_match_percent_end s : ilike_match "%" s = true.
Proof. induction s as [|c s IH]; [done|]. simpl in *. by rewrite IH. Qed.

Lemma ilike_match_percent pat s :
  ilike_match (String "%" pat) s
  = ilike_match pat s
    || match s with
       | EmptyString => false
       | String _ s' => ilike_match (String "%" pat) s'
       end.
Proof. by destruct s. Qed.

Lemma ilike_match_letter c pat s :
  is_wildcard c = false →
  ilike_match (String c pat) s
  = match s with
    | EmptyString => false
    | String x s' => same_letter c x && ilike_match pat s'
    end.
Proof.
  destruct c as [[] [] [] [] [] [] [] []]; intros H; try discriminate H;
    reflexivity.
Qed.

Lemma ilike_match_plain_prefix q s :
  plain q = true → ilike_match (q ++ "%") s = starts_with_ci q s.
Proof.
  revert s. induction q as [|c q IH]; intros s Hq.
  - apply ilike_match_percent_end.
  - simpl in Hq. apply andb_prop in Hq as [Hc Hq].
    apply negb_true_iff in Hc.
    change (String c q ++ "%") with (String c (q ++ "%")).
    rewrite (ilike_match_letter _ _ _ Hc).
    destruct s as [|x s]; [done|]. simpl. by rewrite IH.
Qed.

(** For a query without wildcard characters, matching the pattern built
    from it is containing it. *)
Lemma ilike_match_plain q s :
  plain q = true → ilike_match ("%" ++ q ++ "%") s = contains_ci q s.
Proof.
  intros Hq. change ("%" ++ q ++ "%") with (String "%" (q ++ "%")).
  induction s as [|x s IH].
  - rewrite ilike_match_percent, ilike_match_plain_prefix by done.
    by destruct q.
  - rewrite ilike_match_percent, ilike_match_plain_prefix by done.
    rewrite IH. done.
Qed.

Lemma matching_plain query d :
  plain query = true → matching query d = containing query d.
Proof.
  intros Hq. unfold matching, containing.
  induction (videos d) as [|v l IH]; [done|].
  rewrite !filter_cons, IH. unfold ilike.
  rewrite (ilike_match_plain _ _ Hq).
  destruct (Video.description v) as [text|]; [|done].
  by rewrite (ilike_match_plain _ _ Hq).
Qed.




(** ** Failures are answered with 500 *)

Lemma faithful_ret {A} (a : A) : faithful (mret a : M A).
Proof.
  intros w. exists []. split; [done|]. split; [done|]. split; [|done].
  intros. split; [constructor|done].
Qed.

Lemma faithful_throw {A} e : faithful (throw e : M A).
Proof.
  intros w. exists []. split; [done|]. simpl. split; [lia|]. split; [done|].
  intros. lia.
Qed.

Lemma faithful_bind {A B} (m : M A) (f : A -> M B) :
  faithful m → (∀ a, faithful (f a)) → faithful (m ≫= f).
Proof.
  intros Hm Hf w. destruct (Hm w) as (used1 & Hc1 & Hle1 & Hq1 & Ht1).
  unfold mbind, M_bind. destruct (m w) as [[a|e] w1] eqn:Hmw; simpl in *.
  - destruct (Hf a w1) as (used2 & Hc2 & Hle2 & Hq2 & Ht2).
    destruct (Hq1 a eq_refl) as [Hq1' Hr1].
    exists (used1 ++ used2)%list. unfold consumed in *. split.
    { by rewrite Hc1, Hc2, app_assoc. }
    split; [lia|]. split.
    + intros b Hb. destruct (Hq2 b Hb) as [Hq2' Hr2]. split.
      * by apply Forall_app.
      * congruence.
    + intros e He. specialize (Ht2 e He). lia.
  - exists used1. split; [done|]. split; [done|]. split; [done|].
    intros e' _. by apply (Ht1 e).
Qed.

Lemma take_one_tail (s : list bool) : s = (take 1 s ++ tail s)%list.
Proof. by destruct s. Qed.

Lemma take_one_quiet (s : list bool) : hd false s = false → quiet (take 1 s).
Proof. destruct s as [|[] s]; simpl; intros H; try done; repeat constructor. Qed.

Lemma faithful_attempt e : faithful (attempt e).
Proof.
  intros w. exists (take 1 (script w)). unfold attempt.
  destruct (hd false (script w)) eqn:H; simpl.
  - split; [apply take_one_tail|]. split; [lia|]. split; [done|]. intros. lia.
  - split; [apply take_one_tail|]. split; [done|]. split; [|done].
    intros _ _. split; [|done]. by apply take_one_quiet.
Qed.

Lemma faithful_surface {A} (r : Res A) : faithful (surface r).
Proof. destruct r; [apply faithful_ret|apply faithful_throw]. Qed.

Lemma faithful_sql {A} (stmt : Z -> Database -> Res A * Database) :
  faithful (sql stmt).
Proof.
  unfold sql. apply faithful_bind; [apply faithful_attempt|].
  intros _ w. exists []. destruct (stmt _ _) as [[a|e] d]; simpl; (split; [done|]).
  - split; [done|]. split; [|done]. intros. split; [constructor|done].
  - split; [lia|]. split; [done|]. intros. lia.
Qed.

Lemma faithful_select {A} (q : Database -> Res A) : faithful (select q).
Proof. apply faithful_sql. Qed.

Lemma faithful_existsSync p : faithful (existsSync p).
Proof.
  intros w. exists []. split; [done|]. split; [done|]. split; [|done].
  intros. split; [constructor|done].
Qed.

Lemma faithful_unlinkSync p : faithful (unlinkSync p).
Proof.
  unfold unlinkSync. apply faithful_bind; [apply faithful_attempt|].
  intros _ w. exists []. simpl. case_bool_decide; simpl; (split; [done|]).
  - split; [done|]. split; [|done]. intros. split; [constructor|done].
  - split; [lia|]. split; [done|]. intros. lia.
Qed.

Lemma faithful_transaction {A} (body : M A) :
  faithful body → faithful (transaction body).
Proof.
  intros Hbody w. unfold transaction, attempt.
  destruct (hd false (script w)) eqn:H0; simpl.
  { exists (take 1 (script w)). simpl. split; [apply take_one_tail|].
    split; [lia|]. split; [done|]. intros. lia. }
  destruct (Hbody (set_script (tail (script w)) w)) as (used & Hc & Hle & Hq & Ht).
  unfold consumed in *. simpl in Hc, Hle.
  destruct (body (set_script (tail (script w)) w)) as [[a|e] w2]; simpl in *.
  - destruct (Hq a eq_refl) as [Hq' Hr].
    destruct (hd false (script w2)) eqn:H2; simpl.
    + exists (take 1 (script w) ++ used ++ take 1 (script w2)
              ++ take 1 (tail (script w2)))%list.
      split.
      { rewrite (take_one_tail (script w)) at 1. rewrite Hc.
        rewrite (take_one_tail (script w2)) at 1.
        rewrite (take_one_tail (tail (script w2))) at 1.
        destruct (hd false (tail (script w2))); simpl; by rewrite <- !app_assoc. }
      destruct (hd false (tail (script w2))); simpl;
        (split; [lia|]); (split; [done|]); intros; lia.
    + exists (take 1 (script w) ++ used ++ take 1 (script w2))%list. split.
      { rewrite (take_one_tail (script w)) at 1. rewrite Hc.
        rewrite (take_one_tail (script w2)) at 1. by rewrite <- !app_assoc. }
      split; [lia|]. split; [|done].
      intros b _. split; [|done].
      apply Forall_app. split; [by apply take_one_quiet|].
      apply Forall_app. split; [done|by apply take_one_quiet].
  - specialize (Ht e eq_refl).
    exists (take 1 (script w) ++ used ++ take 1 (script w2))%list.
    split.
    { rewrite (take_one_tail (script w)) at 1. rewrite Hc.
      rewrite (take_one_tail (script w2)) at 1.
      destruct (hd false (script w2)); simpl; by rewrite <- !app_assoc. }
    destruct (hd false (script w2)); simpl;
      (split; [lia|]); (split; [done|]); intros; lia.
Qed.

Create HintDb faithful.

Ltac faithful_tac :=
  cbv zeta;
  repeat first
    [ solve [auto with faithful nocore]
    | apply faithful_ret
    | apply faithful_throw
    | apply faithful_sql
    | apply faithful_select
    | apply faithful_existsSync
    | apply faithful_unlinkSync
    | apply faithful_transaction
    | apply faithful_bind; [|intros ?]
    | case_match ].

Lemma faithful_getUser id : faithful (getUser id).
Proof. unfold getUser. faithful_tac. Qed.
Lemma faithful_getUserByUsername name : faithful (getUserByUsername name).
Proof. unfold getUserByUsername. faithful_tac. Qed.
Lemma faithful_createUser user : faithful (createUser user).
Proof. unfold createUser. faithful_tac. Qed.
Lemma faithful_updateUser id updates : faithful (updateUser id updates).
Proof. unfold updateUser. faithful_tac. Qed.
Lemma faithful_getVideo id : faithful (getVideo id).
Proof. unfold getVideo. faithful_tac. Qed.
Lemma faithful_getAllVideos : faithful getAllVideos.
Proof. unfold getAllVideos. faithful_tac. Qed.
Lemma faithful_getVideosByCategory c : faithful (getVideosByCategory c).
Proof. unfold getVideosByCategory. faithful_tac. Qed.
Lemma faithful_getFeaturedVideos : faithful getFeaturedVideos.
Proof. unfold getFeaturedVideos. faithful_tac. Qed.
Lemma faithful_getPopularVideos limit : faithful (getPopularVideos limit).
Proof. unfold getPopularVideos. faithful_tac. Qed.
Lemma faithful_getUserVideos id : faithful (getUserVideos id).
Proof. unfold getUserVideos. faithful_tac. Qed.
Lemma faithful_createVideo video : faithful (createVideo video).
Proof. unfold createVideo. faithful_tac. Qed.
Lemma faithful_updateVideo id updates : faithful (updateVideo id updates).
Proof. unfold updateVideo. faithful_tac. Qed.
Lemma faithful_deleteVideo id : faithful (deleteVideo id).
Proof. unfold deleteVideo. faithful_tac. Qed.
Lemma faithful_incrementViews id : faithful (incrementViews id).
Proof. unfold incrementViews. faithful_tac. Qed.
Lemma faithful_searchVideos query : faithful (searchVideos query).
Proof. unfold searchVideos. faithful_tac. Qed.
Lemma faithful_getWatchlist id : faithful (getWatchlist id).
Proof. unfold getWatchlist. faithful_tac. Qed.
Lemma faithful_addToWatchlist item : faithful (addToWatchlist item).
Proof. unfold addToWatchlist. faithful_tac. Qed.
Lemma faithful_removeFromWatchlist u v : faithful (removeFromWatchlist u v).
Proof. unfold removeFromWatchlist. faithful_tac. Qed.
Lemma faithful_isInWatchlist u v : faithful (isInWatchlist u v).
Proof. unfold isInWatchlist. faithful_tac. Qed.
Lemma faithful_likeVideo u v : faithful (likeVideo u v).
Proof. unfold likeVideo. faithful_tac. Qed.
Lemma faithful_unlikeVideo u v : faithful (unlikeVideo u v).
Proof. unfold unlikeVideo. faithful_tac. Qed.
Lemma faithful_isVideoLiked u v : faithful (isVideoLiked u v).
Proof. unfold isVideoLiked. faithful_tac. Qed.
Lemma faithful_dislikeVideo u v : faithful (dislikeVideo u v).
Proof. unfold dislikeVideo. faithful_tac. Qed.
Lemma faithful_undislikeVideo u v : faithful (undislikeVideo u v).
Proof. unfold undislikeVideo. faithful_tac. Qed.
Lemma faithful_isVideoDisliked u v : faithful (isVideoDisliked u v).
Proof. unfold isVideoDisliked. faithful_tac. Qed.
Lemma faithful_getVideoComments v : faithful (getVideoComments v).
Proof. unfold getVideoComments. faithful_tac. Qed.
Lemma faithful_createComment c : faithful (createComment c).
Proof. unfold createComment. faithful_tac. Qed.
Lemma faithful_deleteComment i u : faithful (deleteComment i u).
Proof. unfold deleteComment. faithful_tac. Qed.
Lemma faithful_updateComment i u c : faithful (updateComment i u c).
Proof. unfold updateComment. faithful_tac. Qed.
Lemma faithful_remove_upload url : faithful (remove_upload url).
Proof. unfold remove_upload. faithful_tac. Qed.

#[local] Hint Resolve faithful_getUser faithful_getUserByUsername
  faithful_createUser faithful_updateUser faithful_getVideo
  faithful_getAllVideos faithful_getVideosByCategory faithful_getFeaturedVideos
  faithful_getPopularVideos faithful_getUserVideos faithful_createVideo
  faithful_updateVideo faithful_deleteVideo faithful_incrementViews
  faithful_searchVideos faithful_getWatchlist faithful_addToWatchlist
  faithful_removeFromWatchlist faithful_isInWatchlist faithful_likeVideo
  faithful_unlikeVideo faithful_isVideoLiked faithful_dislikeVideo
  faithful_undislikeVideo faithful_isVideoDisliked faithful_getVideoComments
  faithful_createComment faithful_deleteComment faithful_updateComment
  faithful_remove_upload : faithful.

Lemma faithful_perform o : faithful (perform o).
Proof. destruct o; simpl; unfold void; faithful_tac. Qed.

(** A storage operation that throws is counted, and one that returns has
    thrown nothing. *)
Lemma storage_throws_are_counted (o : Operation) (w : World) :
  (∀ e, fst (perform o w) = Throw e →
        (raised w < raised (snd (perform o w)))%nat)
  ∧ (∀ a, fst (perform o w) = Ok a → raised (snd (perform o w)) = raised w).
Proof.
  destruct (faithful_perform o w) as (used & _ & _ & Hok & Hthrow).
  split; [done|]. intros a Ha. by destruct (Hok a Ha).
Qed.

(** A handler of the shape [try { body } catch { 500 }] always answers,
    and answers 500 with its message when something was thrown, be it
    because a statement it sent failed. *)
Lemma catch_500_answers msg (body : M Response) :
  faithful body →
  ∀ w, ∃ resp used,
    fst (catch_500 msg body w) = Ok resp
    ∧ consumed (script w) (script (snd (catch_500 msg body w))) used
    ∧ (raised (snd (catch_500 msg body w)) ≠ raised w ∨ ¬ quiet used →
       resp = status_json 500 (JMessage msg)).
Proof.
  intros Hbody w. destruct (Hbody w) as (used & Hc & _ & Hq & _).
  unfold catch_500, try_catch.
  destruct (body w) as [[resp|e] w1]; simpl in *.
  - exists resp, used. destruct (Hq resp eq_refl) as [Hquiet Hraised].
    repeat split; try done. intros [Hnot|Hnot]; by destruct Hnot.
  - by exists (status_json 500 (JMessage msg)), used.
Qed.

(** The same behind [requireAuth]: without a session the answer is 401,
    no statement is sent and nothing is thrown. *)
Lemma requireAuth_answers msg user (body : User.t -> M Response) :
  (∀ u, faithful (body u)) →
  ∀ w, ∃ resp used,
    fst (requireAuth user (λ u, catch_500 msg (body u)) w) = Ok resp
    ∧ consumed (script w)
        (script (snd (requireAuth user (λ u, catch_500 msg (body u)) w))) used
    ∧ (raised (snd (requireAuth user (λ u, catch_500 msg (body u)) w)) ≠ raised w
       ∨ ¬ quiet used →
       resp = status_json 500 (JMessage msg)).
Proof.
  intros Hbody w. destruct user as [u|]; simpl.
  - by apply catch_500_answers.
  - eexists _, []. repeat split. intros [Hnot|Hnot]; destruct Hnot; [done|constructor].
Qed.

(** C6. Every route handler answers: no exception leaves it.  And when
    anything was thrown while it ran (a storage operation that threw, for
    whatever reason), in particular when one of the statements or file
    operations it sent failed, the answer is the status 500 with the
    message of the route. *)
Theorem handlers_answer_500_on_failure (user : option User.t) (r : Request)
    (w : World) :
  ∃ resp used,
    fst (handle user r w) = Ok resp
    ∧ consumed (script w) (script (snd (handle user r w))) used
    ∧ (raised (snd (handle user r w)) ≠ raised w ∨ ¬ quiet used →
       resp = status_json 500 (JMessage (failure_message r))).
Proof.
  destruct r; simpl;
    unfold get_videos, get_videos_featured, get_videos_popular,
      get_videos_category, get_videos_search, get_video, post_videos,
      put_video, delete_video_route, delete_moderation_video, post_users,
      post_user_avatar, get_user, put_user, get_user_videos, get_watchlist,
      get_user_watchlist, post_watchlist, delete_watchlist_route,
      delete_user_watchlist, get_watchlist_check, get_user_watchlist_check,
      post_likes, delete_likes, get_likes_check, post_dislikes,
      delete_dislikes, get_dislikes_check, get_video_comments,
      post_video_comments, put_comment, delete_comment_route;
    first [ apply catch_500_answers | apply requireAuth_answers; intros ? ];
    unfold message; faithful_tac.
Qed.

Lemma handlers_answer_500_on_failure_witness :
  fst (handle None (GET_video NaN) stocked_world)
  = Ok (status_json 500 (JMessage "Failed to fetch video"))
  ∧ fst (handle (Some visitor) (POST_likes (Int 1))
           (set_script [false; false; false; false; true] stocked_world))
    = Ok (status_json 500 (JMessage "Failed to like video")).
Proof.
  split.
  - destruct (handlers_answer_500_on_failure None (GET_video NaN) stocked_world)
      as (resp & used & Hr & _ & H500).
    rewrite Hr. f_equal. apply H500. left. vm_compute. discriminate.
  - destruct (handlers_answer_500_on_failure (Some visitor) (POST_likes (Int 1))
                (set_script [false; false; false; false; true] stocked_world))
      as (resp & used & Hr & Hc & H500).
    rewrite Hr. f_equal. apply H500. right.
    assert (used = [false; false; false; false; true]) as ->.
    { unfold consumed in Hc.
      assert (script (snd (handle (Some visitor) (POST_likes (Int 1))
                (set_script [false; false; false; false; true] stocked_world)))
              = []) as Hs by (vm_compute; reflexivity).
      rewrite Hs, app_nil_r in Hc. by rewrite <- Hc. }
    intros Hq. do 4 apply Forall_cons in Hq as [_ Hq]. by inversion Hq.
Defined.

(** * Beyond the bookkeeping: the routes as a whole *)

(** ** Statements that read, calls that write *)

Lemma sql_frame {A} (stmt : Z -> Database -> Res A * Database) w :
  disk (snd (sql stmt w)) = disk w ∧ clock (snd (sql stmt w)) = clock w.
Proof.
  unfold sql, attempt, mbind, M_bind. simpl.
  destruct (hd false (script w)); simpl; [done|].
  destruct (stmt (clock w) (db w)) as [[a|e] d]; simpl; done.
Qed.

Lemma select_frame {A} (q : Database -> Res A) w :
  db (snd (select q w)) = db w ∧ disk (snd (select q w)) = disk w
  ∧ clock (snd (select q w)) = clock w.
Proof.
  unfold select, sql, attempt, mbind, M_bind. simpl.
  destruct (hd false (script w)); simpl; [done|].
  destruct (q (db w)) as [a|e]; simpl; done.
Qed.

(** A read through [select]: whatever the outcome, the database, the
    files and the clock are as before. *)
Lemma wp_read {A B} (q : Database -> Res A) (f : A -> B) (Q : Res B -> World -> Prop) w :
  (∀ r w', db w' = db w → disk w' = disk w → clock w' = clock w → Q r w') →
  wp (result ← select q; mret (f result)) Q w.
Proof.
  intros HQ. unfold wp. rewrite bind_world by done.
  destruct (select_frame q w) as (? & ? & ?). by apply HQ.
Qed.

Lemma wp_read_plain {A} (q : Database -> Res A) (Q : Res A -> World -> Prop) w :
  (∀ r w', db w' = db w → disk w' = disk w → clock w' = clock w → Q r w') →
  wp (select q) Q w.
Proof.
  intros HQ. unfold wp. destruct (select_frame q w) as (? & ? & ?). by apply HQ.
Qed.

(** [catch_500] with a condition on the world alone. *)
Lemma wp_catch_500_world msg body (good : World -> Prop) w :
  wp body (λ _ w', good w') w → wp (catch_500 msg body) (λ _ w', good w') w.
Proof.
  unfold wp, catch_500, try_catch. by destruct (body w) as [[a|e] w1].
Qed.

Lemma reads_select {A} (q : Database -> Res A) : reads (select q).
Proof. intros w. apply select_frame. Qed.

Lemma reads_select_then {A B} (q : Database -> Res A) (f : A -> B) :
  reads (result ← select q; mret (f result)).
Proof. intros w. rewrite bind_world by done. apply select_frame. Qed.

Lemma reads_getUser id : reads (getUser id).
Proof. apply reads_select_then. Qed.
Lemma reads_getUserByUsername name : reads (getUserByUsername name).
Proof. apply reads_select_then. Qed.
Lemma reads_getVideo id : reads (getVideo id).
Proof. apply reads_select_then. Qed.
Lemma reads_getAllVideos : reads getAllVideos.
Proof. apply reads_select. Qed.
Lemma reads_getVideosByCategory c : reads (getVideosByCategory c).
Proof. apply reads_select. Qed.
Lemma reads_getFeaturedVideos : reads getFeaturedVideos.
Proof. apply reads_select. Qed.
Lemma reads_getPopularVideos limit : reads (getPopularVideos limit).
Proof. apply reads_select. Qed.
Lemma reads_getUserVideos id : reads (getUserVideos id).
Proof. apply reads_select. Qed.
Lemma reads_searchVideos q : reads (searchVideos q).
Proof. apply reads_select. Qed.
Lemma reads_getWatchlist id : reads (getWatchlist id).
Proof. apply reads_select_then. Qed.
Lemma reads_isInWatchlist u v : reads (isInWatchlist u v).
Proof. apply reads_select_then. Qed.
Lemma reads_isVideoLiked u v : reads (isVideoLiked u v).
Proof. apply reads_select_then. Qed.
Lemma reads_isVideoDisliked u v : reads (isVideoDisliked u v).
Proof. apply reads_select_then. Qed.
Lemma reads_getVideoComments v : reads (getVideoComments v).
Proof. apply reads_select. Qed.

Create HintDb reads.
#[local] Hint Resolve reads_getUser reads_getUserByUsername reads_getVideo
  reads_getAllVideos reads_getVideosByCategory reads_getFeaturedVideos
  reads_getPopularVideos reads_getUserVideos reads_searchVideos
  reads_getWatchlist reads_isInWatchlist reads_isVideoLiked
  reads_isVideoDisliked reads_getVideoComments : reads.

Lemma remove_upload_db url w : db (snd (remove_upload url w)) = db w.
Proof. apply (wp_remove_upload url (λ _ w', db w' = db w)). auto. Qed.

Lemma video_of_Exists i d v :
  video_of i d = Some v → Exists (λ x, Int (Video.id x) = Int i) (videos d).
Proof.
  unfold video_of. intros H. apply Exists_exists.
  destruct (filter _ _) as [|x l] eqn:Hf; [done|]. injection H as ->.
  assert (v ∈ filter (λ x, Video.id x = i) (videos d)) as Hin
    by (rewrite Hf; left).
  apply list_elem_of_filter in Hin as [Hid Hin]. exists v. by rewrite Hid.
Qed.

(** Finding the video first: the shape of the handlers that take a video
    id.  [Q] is a condition on the world at the end. *)
Lemma wp_found_video {A} id (k : Video.t -> M A) (missing : M A)
    (Q : World -> Prop) w :
  (∀ w', db w' = db w → disk w' = disk w → Q w') →
  (∀ w', db w' = db w → disk w' = disk w → wp missing (λ _ w2, Q w2) w') →
  (∀ i v w', id = Int i → in_int4 i = true → video_of i (db w) = Some v →
             db w' = db w → disk w' = disk w →
             wp (k v) (λ _ w2, Q w2) w') →
  wp (video ← getVideo id;
      match video with None => missing | Some v => k v end) (λ _ w2, Q w2) w.
Proof.
  intros HQ Hmiss Hk. apply wp_bind, wp_getVideo.
  - intros _ e n. apply HQ; by open_world w.
  - intros _. destruct id as [|i]; simpl; [intros n; apply HQ; by open_world w|].
    destruct (in_int4 i) eqn:Hi; simpl; [|intros n; apply HQ; by open_world w].
    destruct (video_of i (db w)) as [v|] eqn:Hv.
    + by apply (Hk i).
    + by apply Hmiss.
Qed.

(** ** What every request preserves

    The handlers reach the database through the storage methods only, and
    call [likeVideo] and [dislikeVideo] after [getVideo] has found the
    video.  So a property of the database that every storage call keeps,
    when likes and dislikes are for videos that exist, is kept by every
    request. *)

Section Preserved.

Context (P : Database -> Prop).
Hypothesis P_call : ∀ o w,
  targets_existing_video (db w) o → P (db w) → P (db (snd (perform o w))).

Lemma wp_call {A} (o : Operation) (m : M A) (Q : Res A -> World -> Prop) w :
  (∀ w0, snd (perform o w0) = snd (m w0)) →
  targets_existing_video (db w) o → P (db w) →
  (∀ r w', P (db w') → Q r w') →
  wp m Q w.
Proof.
  intros Hm Hguard HP HQ. unfold wp. apply HQ. rewrite <- Hm. by apply P_call.
Qed.

Lemma wp_reads {A} (m : M A) (Q : Res A -> World -> Prop) w :
  reads m → P (db w) → (∀ r w', P (db w') → Q r w') → wp m Q w.
Proof.
  intros Hm HP HQ. unfold wp. apply HQ. destruct (Hm w) as (-> & _). done.
Qed.

Ltac read_step :=
  apply wp_bind; eapply wp_reads;
    [eauto with reads | assumption | intros [?|?] ? ?; simpl; [|assumption]].

Ltac call_step o :=
  apply wp_bind; apply (wp_call o);
    [intros; apply void_world | try exact I | assumption
    | intros [?|?] ? ?; simpl; [|assumption] ].

Ltac ends := first [apply wp_ret | apply wp_throw]; simpl; assumption.

Ltac found_video :=
  apply wp_found_video;
    [ intros ? Hdb _; by rewrite Hdb
    | intros ? Hdb _; apply wp_ret; simpl; by rewrite Hdb
    | let Hid := fresh "Hid" in let Hv := fresh "Hv" in let Hdb := fresh "Hdb" in
      intros ? ? ? Hid _ Hv Hdb _ ].

Lemma handle_keeps user r w : P (db w) → P (db (snd (handle user r w))).
Proof.
  intros HP.
  change (wp (handle user r) (λ _ w', P (db w')) w).
  destruct r; simpl; unfold requireAuth;
    try (destruct user as [u|]; [|by apply wp_ret]);
    apply wp_catch_500_world.
  - (* GET /api/videos *) read_step. ends.
  - read_step. ends.
  - read_step. ends.
  - read_step. ends.
  - destruct q as [query|]; [|ends]. destruct (truthy query); simpl; [|ends].
    read_step. ends.
  - (* GET /api/videos/:id *)
    found_video. assert (P (db w')) by (by rewrite Hdb).
    call_step (Op_incrementViews id). ends.
  - (* POST /api/videos *)
    destruct files as [fs|]; [|ends].
    destruct (Files.video fs), (Files.thumbnail fs); try ends.
    destruct (parse_insert_video _ _ _ _ _) as [data|]; [|ends].
    call_step (Op_createVideo data). ends.
  - (* PUT /api/videos/:id *)
    found_video. assert (P (db w')) by (by rewrite Hdb).
    destruct (parse_update_video _ _) as [data|]; [|ends].
    call_step (Op_updateVideo id data). ends.
  - (* DELETE /api/videos/:id *)
    found_video. assert (P (db w')) by (by rewrite Hdb).
    destruct (_ && _); [ends|].
    apply wp_bind, wp_remove_upload. intros [[]|] w1 Hdb1 _ _ _; simpl;
      [|by rewrite Hdb1].
    apply wp_bind, wp_remove_upload. intros [[]|] w2 Hdb2 _ _ _; simpl;
      [|by rewrite Hdb2, Hdb1].
    assert (P (db w2)) by (by rewrite Hdb2, Hdb1).
    call_step (Op_deleteVideo id). ends.
  - (* DELETE /api/moderation/videos/:id *)
    destruct (negb _); [ends|].
    found_video. assert (P (db w')) by (by rewrite Hdb).
    apply wp_bind, wp_remove_upload. intros [[]|] w1 Hdb1 _ _ _; simpl;
      [|by rewrite Hdb1].
    apply wp_bind, wp_remove_upload. intros [[]|] w2 Hdb2 _ _ _; simpl;
      [|by rewrite Hdb2, Hdb1].
    assert (P (db w2)) by (by rewrite Hdb2, Hdb1).
    call_step (Op_deleteVideo id). ends.
  - (* POST /api/users *)
    destruct (parse_insert_user user0) as [data|]; [|ends].
    read_step. destruct a; [ends|]. call_step (Op_createUser data). ends.
  - (* POST /api/users/:id/avatar *)
    destruct (negb _); [ends|]. read_step. destruct a as [usr|]; [|ends].
    destruct file as [filename|]; [|ends].
    call_step (Op_updateUser id (UpdateUser.mk (Val (User.username usr)) Absent
                 (Val (Some ("/uploads/" ++ filename))) Absent)).
    destruct a; ends.
  - (* GET /api/users/:id *) read_step. destruct a; ends.
  - (* PUT /api/users/:id *)
    destruct (negb _); [ends|]. read_step. destruct a as [usr|]; [|ends].
    call_step (Op_updateUser id (drop_password updates)). destruct a; ends.
  - (* GET /api/users/:id/videos *)
    read_step. destruct a; [|ends]. read_step. ends.
  - read_step. ends.
  - read_step. ends.
  - (* POST /api/watchlist *)
    destruct (isNaN videoId); [ends|].
    found_video. assert (P (db w')) by (by rewrite Hdb).
    call_step (Op_addToWatchlist (InsertWatchlist.mk (Int (User.id u)) videoId)).
    ends.
  - destruct (isNaN videoId); [ends|].
    call_step (Op_removeFromWatchlist (Int (User.id u)) videoId).
    destruct (negb a); ends.
  - call_step (Op_removeFromWatchlist userId videoId). destruct (negb a); ends.
  - destruct (isNaN videoId); [ends|]. read_step. ends.
  - read_step. ends.
  - (* POST /api/likes *)
    destruct (isNaN videoId); [ends|].
    found_video. assert (P (db w')) by (by rewrite Hdb).
    apply wp_bind, (wp_call (Op_likeVideo (Int (User.id u)) videoId));
      [intros; apply void_world | | assumption
      | intros [?|?] ? ?; simpl; [|assumption] ].
    { simpl. rewrite Hdb, Hid. by apply (video_of_Exists _ _ v). }
    ends.
  - destruct (isNaN videoId); [ends|].
    call_step (Op_unlikeVideo (Int (User.id u)) videoId). destruct (negb a); ends.
  - destruct (isNaN videoId); [ends|]. read_step. ends.
  - (* POST /api/dislikes *)
    destruct (isNaN videoId); [ends|].
    found_video. assert (P (db w')) by (by rewrite Hdb).
    apply wp_bind, (wp_call (Op_dislikeVideo (Int (User.id u)) videoId));
      [intros; apply void_world | | assumption
      | intros [?|?] ? ?; simpl; [|assumption] ].
    { simpl. rewrite Hdb, Hid. by apply (video_of_Exists _ _ v). }
    ends.
  - destruct (isNaN videoId); [ends|].
    call_step (Op_undislikeVideo (Int (User.id u)) videoId). destruct (negb a); ends.
  - destruct (isNaN videoId); [ends|]. read_step. ends.
  - (* GET /api/videos/:videoId/comments *)
    destruct (isNaN videoId); [ends|].
    found_video. assert (P (db w')) by (by rewrite Hdb).
    read_step. ends.
  - (* POST /api/videos/:videoId/comments *)
    destruct (isNaN videoId); [ends|].
    found_video. assert (P (db w')) by (by rewrite Hdb).
    destruct (parse_insert_comment _ _ _) as [data|]; [|ends].
    call_step (Op_createComment data). read_step.
    destruct a as [created|]; [ends|]. destruct a0; ends.
  - (* PUT /api/comments/:id *)
    destruct (isNaN id); [ends|].
    destruct (parse_update_comment content) as [data|]; [|ends].
    call_step (Op_updateComment id (Int (User.id u)) data). destruct a; ends.
  - destruct (isNaN id); [ends|].
    call_step (Op_deleteComment id (Int (User.id u))). destruct (negb a); ends.
Qed.

End Preserved.

(** ** Counters and join tables, request by request *)

Lemma guarded_call_in_step o w :
  targets_existing_video (db w) o → in_step (db w) →
  in_step (db (snd (perform o w))).
Proof.
  intros Hguard (Hdrift & Hkeys & Hids).
  destruct (perform_delta o w) as (δ & Hδ & Hby).
  assert (ids_issued (db (snd (perform o w)))) as Hids'.
  { apply (ids_issued_kept δ (db w)); try done.
    destruct δ; try done; simpl in Hby; destruct Hby as [userId Hop];
      rewrite Hop in Hguard; simpl in Hguard;
      (eapply Exists_impl; [exact Hguard|]); simpl; by intros x [= ->]. }
  enough (no_drift (db (snd (perform o w)))
          ∧ keys_unique (db (snd (perform o w)))) as [? ?] by done.
  destruct δ; try (by apply (in_step_kept _ (db w) _ Hδ)).
  split; [by apply (no_drift_new_video row (db w))|].
  unfold keys_unique. destruct Hδ as (_ & -> & -> & _). apply Hkeys.
Qed.

Lemma in_step_empty : in_step empty_db.
Proof.
  unfold in_step, no_drift, keys_unique, ids_issued. simpl.
  repeat split; constructor.
Qed.

(** X1.  Whoever sends it and whichever statements fail, a request takes a
    database whose counters agree with the join tables (with unique keys,
    and no video id ahead of the sequence) to another such database.  So in
    every database the routes produce from the empty one, the likes
    counter of each video is the number of its likes rows and the dislikes
    counter the number of its dislikes rows. *)
Theorem requests_keep_counters_in_step :
  (∀ user r w, in_step (db w) → in_step (db (snd (handle user r w))))
  ∧ (∀ d, served d → no_drift d ∧ keys_unique d).
Proof.
  assert (∀ user r w, in_step (db w) → in_step (db (snd (handle user r w))))
    as Hstep.
  { intros user r w. apply handle_keeps. apply guarded_call_in_step. }
  split; [done|].
  intros d Hd. enough (in_step d) as (? & ? & _) by done.
  induction Hd as [|d user r files now failing _ IH].
  - apply in_step_empty.
  - by apply Hstep.
Qed.

Lemma requests_keep_counters_in_step_witness :
  in_step (db (snd (handle (Some visitor) (POST_likes (Int 1)) stocked_world))).
Proof.
  apply (proj1 requests_keep_counters_in_step).
  change (in_step (db (snd (perform (Op_createVideo sample_video)
                              (mkWorld empty_db ∅ 10 [] 0))))).
  apply guarded_call_in_step; [exact I|apply in_step_empty].
Defined.

(** ** Sessions *)

(** X2.  Without a session, each route registered with [requireAuth]
    answers 401 and leaves the world as it is: no statement is sent.  The
    other routes never look at the session: they do the same for every
    caller, signed in or not. *)
Theorem requireAuth_guards_the_protected_routes :
  (∀ r w, protected r = true →
     handle None r w
     = (Ok (status_json 401 (JMessage "Authentication required")), w))
  ∧ (∀ r user user' w, protected r = false →
       handle user r w = handle user' r w).
Proof.
  split.
  - intros r w Hr. destruct r; try discriminate; reflexivity.
  - intros r user user' w Hr. destruct r; try discriminate; reflexivity.
Qed.

Lemma requireAuth_guards_the_protected_routes_witness :
  handle None (POST_likes (Int 1)) stocked_world
  = (Ok (status_json 401 (JMessage "Authentication required")), stocked_world)
  ∧ handle None (GET_video (Int 1)) stocked_world
    = handle (Some visitor) (GET_video (Int 1)) stocked_world.
Proof.
  split.
  - apply (proj1 requireAuth_guards_the_protected_routes). reflexivity.
  - apply (proj2 requireAuth_guards_the_protected_routes). reflexivity.
Defined.

Lemma wp_reads_frame {A} (m : M A) (Q : Res A -> World -> Prop) w :
  reads m →
  (∀ r w', db w' = db w → disk w' = disk w → clock w' = clock w → Q r w') →
  wp m Q w.
Proof.
  intros Hm HQ. unfold wp. destruct (Hm w) as (? & ? & ?). by apply HQ.
Qed.

(** ** The footprint of a request

    One rule per construct of the world monad, for "table [t] is left as
    it is" and for "the files are left as they are". *)

Section Frame.
Context (t : Table).

Lemma keeps_ret {A} (a : A) : keeps t (mret a).
Proof. done. Qed.

Lemma keeps_throw {A} e : keeps t (throw e : M A).
Proof. done. Qed.

Lemma keeps_bind {A B} (m : M A) (f : A -> M B) :
  keeps t m → (∀ a, keeps t (f a)) → keeps t (m ≫= f).
Proof.
  intros Hm Hf w. unfold mbind, M_bind. specialize (Hm w).
  destruct (m w) as [[a|e] w1]; simpl in *; [|done].
  by rewrite (Hf a w1).
Qed.

Lemma keeps_try_catch {A} (body : M A) handler :
  keeps t body → (∀ e, keeps t (handler e)) → keeps t (try_catch body handler).
Proof.
  intros Hm Hf w. unfold try_catch. specialize (Hm w).
  destruct (body w) as [[a|e] w1]; simpl in *; [done|].
  by rewrite (Hf e w1).
Qed.

Lemma keeps_attempt e : keeps t (attempt e).
Proof. intros w. unfold attempt. by destruct (hd false (script w)). Qed.

Lemma keeps_sql {A} (stmt : Z -> Database -> Res A * Database) :
  (∀ now d, rows_of t (snd (stmt now d)) = rows_of t d) → keeps t (sql stmt).
Proof.
  intros Hstmt w. unfold sql, attempt, mbind, M_bind. simpl.
  destruct (hd false (script w)); simpl; [done|].
  specialize (Hstmt (clock w) (db w)).
  destruct (stmt (clock w) (db w)) as [[a|e] d]; simpl in *; done.
Qed.

Lemma keeps_select {A} (q : Database -> Res A) : keeps t (select q).
Proof. by apply keeps_sql. Qed.

Lemma rows_of_restore saved current :
  rows_of t current = rows_of t saved →
  rows_of t (restore saved current) = rows_of t saved.
Proof. destruct t; simpl; intros [= ? ?] || intros [= ?]; congruence. Qed.

Lemma keeps_transaction {A} (body : M A) : keeps t body → keeps t (transaction body).
Proof.
  intros Hm w. unfold transaction, attempt. simpl.
  destruct (hd false (script w)); simpl; [done|].
  specialize (Hm (set_script (tail (script w)) w)). simpl in Hm.
  destruct (body _) as [[a|e] w2]; simpl in *.
  - destruct (hd false (script w2)); simpl; [|done].
    destruct (hd false (tail (script w2))); simpl; by apply rows_of_restore.
  - destruct (hd false (script w2)); simpl; by apply rows_of_restore.
Qed.

Lemma keeps_existsSync p : keeps t (existsSync p).
Proof. done. Qed.

Lemma keeps_unlinkSync p : keeps t (unlinkSync p).
Proof.
  intros w. unfold unlinkSync, attempt, mbind, M_bind. simpl.
  destruct (hd false (script w)); simpl; [done|]. by case_bool_decide.
Qed.

End Frame.

Ltac keeps_step :=
  match goal with
  | |- keeps _ (mret _) => apply keeps_ret
  | |- keeps _ (throw _) => apply keeps_throw
  | |- keeps _ (message _ _) => apply keeps_ret
  | |- keeps _ (_ ≫= _) => apply keeps_bind; [|intros ?]
  | |- keeps _ (try_catch _ _) => apply keeps_try_catch; [|intros ?]
  | |- keeps _ (catch_500 _ _) => apply keeps_try_catch; [|intros ?]
  | |- keeps _ (select _) => apply keeps_select
  | |- keeps _ (transaction _) => apply keeps_transaction
  | |- keeps _ (existsSync _) => apply keeps_existsSync
  | |- keeps _ (unlinkSync _) => apply keeps_unlinkSync
  | |- keeps _ (requireAuth ?u _) => unfold requireAuth; destruct u
  | |- keeps _ (if ?b then _ else _) => destruct b
  | |- keeps _ (match ?x with _ => _ end) => destruct x
  | |- keeps _ (let _ := _ in _) => cbv zeta
  end.

Ltac stmt_tac :=
  intros ? ?;
  unfold insert_user, update_user, insert_video, update_videos, delete_video,
    insert_watchlist, delete_watchlist, insert_like, delete_like,
    insert_dislike, delete_dislike, insert_comment, delete_comment,
    update_comment;
  repeat case_match; simpl; done.

Ltac unfold_routes :=
  unfold get_videos, get_videos_featured, get_videos_popular, get_videos_category,
    get_videos_search, get_video, post_videos, put_video, delete_video_route,
    delete_moderation_video, post_users, post_user_avatar, get_user, put_user,
    get_user_videos, get_watchlist, get_user_watchlist, post_watchlist,
    delete_watchlist_route, delete_user_watchlist, get_watchlist_check,
    get_user_watchlist_check, post_likes, delete_likes, get_likes_check,
    post_dislikes, delete_dislikes, get_dislikes_check, get_video_comments,
    post_video_comments, put_comment, delete_comment_route, remove_upload.

Ltac unfold_storage :=
  unfold getUser, getUserByUsername, createUser, updateUser, getVideo,
    getAllVideos, getVideosByCategory, getFeaturedVideos, getPopularVideos,
    getUserVideos, createVideo, updateVideo, deleteVideo, incrementViews,
    searchVideos, getWatchlist, addToWatchlist, removeFromWatchlist,
    isInWatchlist, likeVideo, unlikeVideo, isVideoLiked, dislikeVideo,
    undislikeVideo, isVideoDisliked, getVideoComments, createComment,
    deleteComment, updateComment.

Ltac keeps_tac :=
  unfold_routes; unfold_storage;
  repeat keeps_step; try (apply keeps_sql; stmt_tac).

Section Files.
Context (may_remove : bool).

Lemma files_after_refl x : files_after may_remove x x.
Proof. destruct may_remove; simpl; [set_solver|done]. Qed.

Lemma files_after_trans x y z :
  files_after may_remove x y → files_after may_remove y z →
  files_after may_remove x z.
Proof. destruct may_remove; simpl; [set_solver|congruence]. Qed.

Lemma files_ret {A} (a : A) : files_stay may_remove (mret a).
Proof. intros w. simpl. apply files_after_refl. Qed.

Lemma files_throw {A} e : files_stay may_remove (throw e : M A).
Proof. intros w. simpl. apply files_after_refl. Qed.

Lemma files_bind {A B} (m : M A) (f : A -> M B) :
  files_stay may_remove m → (∀ a, files_stay may_remove (f a)) →
  files_stay may_remove (m ≫= f).
Proof.
  intros Hm Hf w. unfold mbind, M_bind. specialize (Hm w).
  destruct (m w) as [[a|e] w1]; simpl in *; [|done].
  eapply files_after_trans; [apply (Hf a w1)|done].
Qed.

Lemma files_try_catch {A} (body : M A) handler :
  files_stay may_remove body → (∀ e, files_stay may_remove (handler e)) →
  files_stay may_remove (try_catch body handler).
Proof.
  intros Hm Hf w. unfold try_catch. specialize (Hm w).
  destruct (body w) as [[a|e] w1]; simpl in *; [done|].
  eapply files_after_trans; [apply (Hf e w1)|done].
Qed.

Lemma files_sql {A} (stmt : Z -> Database -> Res A * Database) :
  files_stay may_remove (sql stmt).
Proof. intros w. destruct (sql_frame stmt w) as [-> _]. apply files_after_refl. Qed.

Lemma files_transaction {A} (body : M A) :
  files_stay may_remove body → files_stay may_remove (transaction body).
Proof.
  intros Hm w. unfold transaction, attempt. simpl.
  destruct (hd false (script w)); simpl; [apply files_after_refl|].
  specialize (Hm (set_script (tail (script w)) w)). simpl in Hm.
  destruct (body _) as [[a|e] w2]; simpl in *.
  - destruct (hd false (script w2)); simpl; [|done].
    destruct (hd false (tail (script w2))); simpl; done.
  - destruct (hd false (script w2)); simpl; done.
Qed.

Lemma files_existsSync p : files_stay may_remove (existsSync p).
Proof. intros w. simpl. apply files_after_refl. Qed.

End Files.

Lemma files_unlinkSync p : files_stay true (unlinkSync p).
Proof.
  intros w. unfold unlinkSync, attempt, mbind, M_bind. simpl.
  destruct (hd false (script w)); simpl; [done|].
  case_bool_decide; simpl; set_solver.
Qed.

Ltac files_step :=
  match goal with
  | |- files_stay _ (mret _) => apply files_ret
  | |- files_stay _ (throw _) => apply files_throw
  | |- files_stay _ (message _ _) => apply files_ret
  | |- files_stay _ (_ ≫= _) => apply files_bind; [|intros ?]
  | |- files_stay _ (try_catch _ _) => apply files_try_catch; [|intros ?]
  | |- files_stay _ (catch_500 _ _) => apply files_try_catch; [|intros ?]
  | |- files_stay _ (select _) => apply files_sql
  | |- files_stay _ (sql _) => apply files_sql
  | |- files_stay _ (transaction _) => apply files_transaction
  | |- files_stay _ (existsSync _) => apply files_existsSync
  | |- files_stay _ (unlinkSync _) => apply files_unlinkSync
  | |- files_stay _ (requireAuth ?u _) => unfold requireAuth; destruct u
  | |- files_stay _ (if ?b then _ else _) => destruct b
  | |- files_stay _ (match ?x with _ => _ end) => destruct x
  | |- files_stay _ (let _ := _ in _) => cbv zeta
  end.

Ltac files_tac := unfold_routes; unfold_storage; repeat files_step.

Lemma requests_and_files user r : files_stay (removes_files r) (handle user r).
Proof. destruct r; simpl; files_tac. Qed.

Lemma rows_of_all d d' : (∀ t, rows_of t d' = rows_of t d) → d' = d.
Proof.
  intros H.
  pose proof (H T_users) as [= ? ?]. pose proof (H T_videos) as [= ? ?].
  pose proof (H T_watchlist) as [= ? ?]. pose proof (H T_likes) as [= ?].
  pose proof (H T_dislikes) as [= ?]. pose proof (H T_comments) as [= ? ?].
  destruct d, d'; simpl in *; congruence.
Qed.



(** ** Ids that name nothing *)

(** X4.  The handlers that start with [getVideo] change nothing when no
    video carries the id, and answer 404 when the lookup does not fail. *)
Theorem missing_video_is_not_found (u : User.t) (r : Request) (i : Z) (w : World) :
  video_looked_up r = Some (Int i) → video_of i (db w) = None →
  db (snd (handle (Some u) r w)) = db w
  ∧ disk (snd (handle (Some u) r w)) = disk w
  ∧ (in_int4 i = true → hd false (script w) = false →
     fst (handle (Some u) r w)
     = Ok (status_json 404 (JMessage "Video not found"))).
Proof.
  intros Hr Hv.
  change (wp (handle (Some u) r) (λ r' w',
            db w' = db w ∧ disk w' = disk w
            ∧ (in_int4 i = true → hd false (script w) = false →
               r' = Ok (status_json 404 (JMessage "Video not found")))) w).
  destruct r; try discriminate; injection Hr as ->; simpl;
    unfold requireAuth, catch_500; simpl;
    apply wp_try_catch, wp_bind, wp_getVideo;
    try (intros H e n; apply wp_ret; simpl; repeat split; try done; congruence);
    intros H; unfold int4_param; destruct (in_int4 i); simpl;
    try (rewrite Hv; by apply wp_ret);
    intros n; apply wp_ret; simpl; repeat split; done.
Qed.

Lemma missing_video_is_not_found_witness :
  fst (handle (Some visitor) (POST_likes (Int 5)) stocked_world)
  = Ok (status_json 404 (JMessage "Video not found")).
Proof.
  refine (proj2 (proj2 (missing_video_is_not_found visitor (POST_likes (Int 5)) 5
                          stocked_world eq_refl eq_refl)) eq_refl eq_refl).
Defined.

(** X5.  A path or body id that [parseInt] turns into [NaN]: the routes
    that test [isNaN] answer 400 and send no statement; the routes that do
    not test hand [NaN] to the database, which refuses it, and answer 500
    with their failure message; nothing is changed either way. *)
Theorem ids_that_are_not_numbers (u : User.t) (w : World) (content : field)
    (updates : VideoBody.t) (other : num) :
  Forall (λ r, handle (Some u) r w
               = (Ok (status_json 400 (JMessage "Invalid video ID")), w))
    [POST_watchlist NaN; DELETE_watchlist NaN; GET_watchlist_check NaN;
     POST_likes NaN; DELETE_likes NaN; GET_likes_check NaN;
     POST_dislikes NaN; DELETE_dislikes NaN; GET_dislikes_check NaN;
     GET_video_comments NaN; POST_video_comments NaN content]
  ∧ Forall (λ r, handle (Some u) r w
                 = (Ok (status_json 400 (JMessage "Invalid comment ID")), w))
      [PUT_comment NaN content; DELETE_comment NaN]
  ∧ Forall (λ r, fst (handle (Some u) r w)
                 = Ok (status_json 500 (JMessage (failure_message r)))
                 ∧ db (snd (handle (Some u) r w)) = db w
                 ∧ disk (snd (handle (Some u) r w)) = disk w)
      [GET_video NaN; PUT_video NaN updates; DELETE_video NaN;
       GET_user NaN; GET_user_videos NaN; GET_user_watchlist NaN;
       DELETE_user_watchlist NaN other; DELETE_user_watchlist other NaN;
       GET_user_watchlist_check NaN other; GET_user_watchlist_check other NaN].
Proof.
  split; [|split].
  - repeat constructor.
  - repeat constructor.
  - repeat (apply Forall_cons; split); try apply Forall_nil; simpl.
    all: unfold get_video, put_video, delete_video_route, get_user,
           get_user_videos, get_user_watchlist, delete_user_watchlist,
           get_user_watchlist_check, requireAuth, catch_500, try_catch,
           getVideo, getUser, getWatchlist, removeFromWatchlist, isInWatchlist,
           select, sql, attempt, mbind, M_bind, delete_watchlist,
           watchlist_rows, pair_param; simpl.
    all: destruct (hd false (script w)); simpl; try done.
    all: destruct other as [|z]; simpl; try done.
    all: destruct (in_int4 z); simpl; done.
Qed.

(** ** Uploading a video *)

Lemma createVideo_spec (video : InsertVideo.t) (w : World) :
  wp (createVideo video) (λ r w',
    disk w' = disk w ∧ clock w' = clock w
    ∧ match r with
      | Ok row =>
          row = Some (new_video video w)
          ∧ db w' = uploaded (new_video video w) (db w)
          ∧ ¬ Exists (λ x, Video.id x = videos_id_seq (db w)) (videos (db w))
      | Throw _ =>
          db w' = db w
          ∨ db w' = set_videos_id_seq (videos_id_seq (db w) + 1) (db w)
      end) w.
Proof.
  unfold createVideo. apply wp_bind, wp_sql.
  - intros _ e n. by open_world w; auto.
  - intros _. unfold insert_video.
    destruct (in_int4 (InsertVideo.userId video)); simpl;
      [|intros n; open_world w; auto].
    destruct (in_int4 (videos_id_seq (db w))); simpl;
      [|intros n; open_world w; auto].
    case_bool_decide as Hex; simpl.
    + intros n. open_world w; auto.
    + apply wp_ret. open_world w.
Qed.

Lemma createVideo_returns (video : InsertVideo.t) (w : World) :
  hd false (script w) = false →
  in_int4 (InsertVideo.userId video) = true →
  in_int4 (videos_id_seq (db w)) = true →
  ¬ Exists (λ x, Video.id x = videos_id_seq (db w)) (videos (db w)) →
  createVideo video w
  = (Ok (Some (new_video video w)),
     set_db (uploaded (new_video video w) (db w)) (next w)).
Proof.
  intros Hs Hu Hseq Hfresh.
  unfold createVideo, sql, attempt, mbind, M_bind, insert_video. simpl.
  rewrite Hs. simpl. rewrite Hu, Hseq. simpl.
  by rewrite (bool_decide_eq_false_2 _ Hfresh).
Qed.

Lemma video_of_uploaded i row (d : Database) :
  video_of i (uploaded row d)
  = match video_of i d with
    | Some v => Some v
    | None => if decide (Video.id row = i) then Some row else None
    end.
Proof.
  unfold video_of, uploaded. simpl. rewrite filter_app.
  destruct (filter _ (videos d)) as [|x l']; simpl; [|done].
  rewrite filter_cons, filter_nil. by case_decide.
Qed.

Lemma video_of_None i d :
  ¬ Exists (λ x, Video.id x = i) (videos d) → video_of i d = None.
Proof.
  intros H. unfold video_of.
  destruct (filter _ _) as [|x l] eqn:Hf; [done|]. exfalso. apply H.
  assert (x ∈ filter (λ x, Video.id x = i) (videos d)) as Hin by (rewrite Hf; left).
  apply list_elem_of_filter in Hin as [Hid Hin]. apply Exists_exists. eauto.
Qed.

(** X6.  In a database where no video id is ahead of the sequence, an
    upload whose statement does not fail stores the row built from the
    input, with the next id of the sequence, the three counters at 0 and
    the time of the insert; [getVideo] with this id then returns the row,
    and the lookup of any other id gives what it gave before. *)
Theorem created_video_is_found (video : InsertVideo.t) (w : World) :
  hd false (script w) = false →
  in_int4 (InsertVideo.userId video) = true →
  in_int4 (videos_id_seq (db w)) = true →
  ids_issued (db w) →
  let row := new_video video w in
  let w' := snd (createVideo video w) in
  fst (createVideo video w) = Ok (Some row)
  ∧ db w' = uploaded row (db w)
  ∧ video_of (Video.id row) (db w') = Some row
  ∧ (∀ i, i ≠ Video.id row → video_of i (db w') = video_of i (db w))
  ∧ (hd false (script w') = false →
     fst (getVideo (Int (Video.id row)) w') = Ok (Some row)).
Proof.
  intros Hs Hu Hseq (Hids & _ & _) row w'.
  assert (¬ Exists (λ x, Video.id x = videos_id_seq (db w)) (videos (db w)))
    as Hfresh.
  { intros Hex. apply Exists_exists in Hex as (x & Hx & Hid).
    rewrite Forall_forall in Hids. specialize (Hids x Hx). lia. }
  subst w'. rewrite (createVideo_returns video w Hs Hu Hseq Hfresh). simpl.
  fold row.
  assert (video_of (Video.id row) (uploaded row (db w)) = Some row) as Hrow.
  { rewrite video_of_uploaded.
    change (Video.id row) with (videos_id_seq (db w)).
    rewrite (video_of_None _ _ Hfresh). by rewrite decide_True. }
  repeat split; try done.
  - intros i Hi. rewrite video_of_uploaded.
    destruct (video_of i (db w)); [done|]. by rewrite decide_False.
  - intros Hs'. unfold getVideo, select, sql, attempt, mbind, M_bind. simpl.
    simpl in Hs'. rewrite Hs'. simpl. rewrite Hseq. simpl.
    f_equal. exact Hrow.
Qed.

Lemma created_video_is_found_witness :
  fst (createVideo sample_video (world_of one_video_db))
  = Ok (Some (new_video sample_video (world_of one_video_db))).
Proof.
  refine (proj1 (created_video_is_found sample_video (world_of one_video_db)
                   eq_refl eq_refl eq_refl _)).
  change (ids_issued (db (snd (perform (Op_createVideo sample_video)
                                 (mkWorld empty_db ∅ 10 [] 0))))).
  apply guarded_call_in_step; [exact I|apply in_step_empty].
Defined.

(** X7.  [POST /api/videos] stores at most one video, and stores it under
    the id of the session user: a 201 answer carries the new row, whose
    [userId] is that of the session, whose counters are 0 and whose two
    paths are the stored file names under [/uploads/]; with any other
    answer no row of any table has changed.  The files are not touched. *)
Theorem upload_belongs_to_the_session_user (u : User.t) (files : option Files.t)
    (form : VideoBody.t) (w : World) :
  let out := handle (Some u) (POST_videos files form) w in
  disk (snd out) = disk w
  ∧ ∃ resp, fst out = Ok resp
    ∧ ((status resp = 201
        ∧ ∃ row fs videoFile thumbnailFile,
            body resp = JVideo (Some row)
            ∧ db (snd out) = uploaded row (db w)
            ∧ Video.id row = videos_id_seq (db w)
            ∧ Video.userId row = User.id u
            ∧ Video.views row = Some 0 ∧ Video.likes row = Some 0
            ∧ Video.dislikes row = Some 0
            ∧ files = Some fs
            ∧ Files.video fs = Some videoFile
            ∧ Files.thumbnail fs = Some thumbnailFile
            ∧ Video.videoUrl row = "/uploads/" ++ videoFile
            ∧ Video.thumbnail row = "/uploads/" ++ thumbnailFile
            ∧ Video.featured row = Some (is_true_text (VideoBody.featured form)))
       ∨ (status resp ≠ 201
          ∧ (db (snd out) = db w ∨ db (snd out) = sequence_moved (db w)))).
Proof.
  change (wp (handle (Some u) (POST_videos files form)) (λ r w',
    disk w' = disk w
    ∧ ∃ resp, r = Ok resp
      ∧ ((status resp = 201
          ∧ ∃ row fs videoFile thumbnailFile,
              body resp = JVideo (Some row)
              ∧ db w' = uploaded row (db w)
              ∧ Video.id row = videos_id_seq (db w)
              ∧ Video.userId row = User.id u
              ∧ Video.views row = Some 0 ∧ Video.likes row = Some 0
              ∧ Video.dislikes row = Some 0
              ∧ files = Some fs
              ∧ Files.video fs = Some videoFile
              ∧ Files.thumbnail fs = Some thumbnailFile
              ∧ Video.videoUrl row = "/uploads/" ++ videoFile
              ∧ Video.thumbnail row = "/uploads/" ++ thumbnailFile
              ∧ Video.featured row = Some (is_true_text (VideoBody.featured form)))
         ∨ (status resp ≠ 201
            ∧ (db w' = db w ∨ db w' = sequence_moved (db w))))) w).
  simpl. unfold post_videos, requireAuth, catch_500.
  apply wp_try_catch.
  destruct files as [fs|].
  2:{ apply wp_throw, wp_ret. simpl. split; [done|]. eexists. split; [done|].
      right. split; [done|]. by left. }
  destruct (Files.video fs) as [videoFile|] eqn:Hvf.
  2:{ destruct (Files.thumbnail fs); apply wp_ret; simpl; (split; [done|]);
        eexists; (split; [done|]); right; (split; [done|]); by left. }
  destruct (Files.thumbnail fs) as [thumbnailFile|] eqn:Htf.
  2:{ apply wp_ret; simpl; (split; [done|]);
        eexists; (split; [done|]); right; (split; [done|]); by left. }
  destruct (parse_insert_video _ _ _ _ _) as [data|] eqn:Hparse.
  2:{ apply wp_ret; simpl; (split; [done|]);
        eexists; (split; [done|]); right; (split; [done|]); by left. }
  apply wp_bind. eapply wp_mono; [apply createVideo_spec|].
  intros [row|e] w' (Hdisk & _ & H); simpl.
  - destruct H as (-> & Hdb & _). apply wp_ret. split; [done|].
    eexists. split; [done|]. left. split; [done|].
    exists (new_video data w), fs, videoFile, thumbnailFile.
    unfold parse_insert_video in Hparse.
    destruct (parse_string (VideoBody.title form)); simpl in Hparse; [|done].
    destruct (parse_nullish (VideoBody.description form)); simpl in Hparse; [|done].
    destruct (parse_string (VideoBody.category form)); simpl in Hparse; [|done].
    injection Hparse as <-. repeat split; done.
  - apply wp_ret. simpl. split; [done|]. eexists. split; [done|]. right.
    split; [done|]. done.
Qed.

(** ** Comments *)

Lemma deleteComment_spec (id userId : num) (w : World) :
  wp (deleteComment id userId) (λ r w',
    disk w' = disk w ∧ clock w' = clock w
    ∧ match r with
      | Ok removed =>
          ∃ i u, id = Int i ∧ userId = Int u
                 ∧ removed = bool_decide (comments_of i u (db w) ≠ [])
                 ∧ db w' = set_comments (comments_but i u (db w)) (db w)
      | Throw _ => db w' = db w
      end) w.
Proof.
  unfold deleteComment. apply wp_bind, wp_sql; [intros; by open_world w|].
  intros _. unfold delete_comment.
  destruct (pair_param_cases id userId)
    as [(i & u & -> & -> & Hi & Hu & Hp)|[e Hp]]; rewrite Hp; simpl;
    [|intros; by open_world w].
  apply wp_ret. simpl. repeat split; try done.
  exists i, u. repeat split; try done. by rewrite length_pos_nil.
Qed.

Lemma updateComment_spec (id userId : num) (updates : UpdateComment.t) (w : World) :
  wp (updateComment id userId updates) (λ r w',
    disk w' = disk w ∧ clock w' = clock w
    ∧ match r with
      | Ok updated =>
          ∃ i u, id = Int i ∧ userId = Int u
                 ∧ updated = change_comment updates <$> head (comments_of i u (db w))
                 ∧ db w' = set_comments
                             (comments_edited i u (UpdateComment.content updates) (db w))
                             (db w)
      | Throw _ => db w' = db w
      end) w.
Proof.
  unfold updateComment. apply wp_bind, wp_sql; [intros; by open_world w|].
  intros _. unfold update_comment.
  destruct (pair_param_cases id userId)
    as [(i & u & -> & -> & Hi & Hu & Hp)|[e Hp]]; rewrite Hp; simpl;
    [|intros; by open_world w].
  apply wp_ret. simpl. repeat split; try done.
  exists i, u. repeat split; try done.
  unfold comments_of.
  assert (filter (λ c, Comment.id c = i ∧ Comment.userId c = u)
            (map (λ c, if bool_decide (Comment.id c = i ∧ Comment.userId c = u)
                       then change_comment updates c else c) (comments (db w)))
          = map (change_comment updates)
              (filter (λ c, Comment.id c = i ∧ Comment.userId c = u)
                 (comments (db w)))) as ->.
  { induction (comments (db w)) as [|c l IH]; [done|]. simpl.
    rewrite !filter_cons. case_bool_decide as Hc.
    - rewrite decide_True by (by destruct Hc). rewrite decide_True by done.
      simpl. by rewrite IH.
    - rewrite decide_False by done. rewrite decide_False by done. done. }
  by destruct (filter _ _).
Qed.

Lemma createComment_spec (comment : InsertComment.t) (w : World) :
  wp (createComment comment) (λ r w',
    disk w' = disk w ∧ clock w' = clock w
    ∧ match r with
      | Ok row =>
          ∃ u v, InsertComment.userId comment = Int u
                 ∧ InsertComment.videoId comment = Int v
                 ∧ row = Some (new_comment (InsertComment.content comment) u v w)
                 ∧ db w' = commented
                             (new_comment (InsertComment.content comment) u v w)
                             (db w)
      | Throw _ =>
          db w' = db w
          ∨ db w' = set_comments_id_seq (comments_id_seq (db w) + 1) (db w)
      end) w.
Proof.
  unfold createComment. apply wp_bind, wp_sql; [intros; open_world w; auto|].
  intros _. unfold insert_comment.
  destruct (pair_param_cases (InsertComment.userId comment)
              (InsertComment.videoId comment))
    as [(u & v & Hcu & Hcv & Hu & Hv & Hp)|[e Hp]]; rewrite Hp; simpl;
    [|intros; open_world w; auto].
  destruct (in_int4 (comments_id_seq (db w))); simpl;
    [|intros; open_world w; auto].
  case_bool_decide; simpl; [intros; open_world w; auto|].
  apply wp_ret. simpl. repeat split; try done. exists u, v. by open_world w.
Qed.

Lemma filter_none {A} (P : A -> Prop) `{∀ x, Decision (P x)} (l : list A) :
  filter P l = [] → filter (λ x, ¬ P x) l = l.
Proof.
  induction l as [|x l IH]; [done|]. rewrite !filter_cons.
  case_decide; [done|]. intros Hl. rewrite decide_True by done. by rewrite IH.
Qed.

Lemma set_comments_same d : set_comments (comments d) d = d.
Proof. by destruct d. Qed.

Lemma others_but i u d :
  filter (λ c, Comment.userId c ≠ u) (comments_but i u d)
  = comments_by_others u d.
Proof.
  unfold comments_but, comments_by_others.
  induction (comments d) as [|c l IH]; [done|]. rewrite !filter_cons.
  destruct (decide (Comment.userId c ≠ u)) as [Hc|Hc].
  - rewrite decide_True by (intros [_ ?]; done).
    rewrite filter_cons, decide_True by done. by rewrite IH.
  - case_decide; [|done]. rewrite filter_cons, decide_False by done. done.
Qed.

Lemma others_edited i u text d :
  filter (λ c, Comment.userId c ≠ u) (comments_edited i u text d)
  = comments_by_others u d.
Proof.
  unfold comments_edited, comments_by_others.
  induction (comments d) as [|c l IH]; [done|]. simpl. rewrite !filter_cons.
  case_bool_decide as Hc.
  - destruct Hc as [_ Hc]. simpl. rewrite !decide_False by (intros ?; done). done.
  - destruct (decide (Comment.userId c ≠ u)); by rewrite IH.
Qed.

Lemma headers_edited i u text d :
  map comment_header (comments_edited i u text d) = map comment_header (comments d).
Proof.
  unfold comments_edited. rewrite map_map. apply map_ext. intros c.
  by case_bool_decide.
Qed.

(** X8.  Through [PUT /api/comments/:id] and [DELETE /api/comments/:id] a
    user reaches their own comments only.  Whatever the id, the body and
    the failures, the comments written by others are the same afterwards,
    and nothing but the table of comments differs; an edit leaves id,
    author, video and time of every comment as they were.  For an id under
    which the caller has no comment, both routes answer 404 and change
    nothing. *)
Theorem comments_of_others_are_out_of_reach (u : User.t) (id : num)
    (content : field) (w : World) :
  let put := handle (Some u) (PUT_comment id content) w in
  let del := handle (Some u) (DELETE_comment id) w in
  (comments_by_others (User.id u) (db (snd put))
   = comments_by_others (User.id u) (db w)
   ∧ map comment_header (comments (db (snd put)))
     = map comment_header (comments (db w))
   ∧ db (snd put) = set_comments (comments (db (snd put))) (db w)
   ∧ disk (snd put) = disk w)
  ∧ (comments_by_others (User.id u) (db (snd del))
     = comments_by_others (User.id u) (db w)
     ∧ db (snd del) = set_comments (comments (db (snd del))) (db w)
     ∧ disk (snd del) = disk w)
  ∧ (∀ i text, id = Int i → content = Str text →
       in_int4 i = true → in_int4 (User.id u) = true →
       hd false (script w) = false →
       comments_of i (User.id u) (db w) = [] →
       put = (Ok (status_json 404 (JMessage
                "Comment not found or you do not have permission to edit it")),
              next w)
       ∧ del = (Ok (status_json 404 (JMessage
                  "Comment not found or you do not have permission to delete it")),
                next w)).
Proof.
  simpl. split; [|split].
  - change (wp (put_comment (Some u) id content) (λ _ w',
      comments_by_others (User.id u) (db w') = comments_by_others (User.id u) (db w)
      ∧ map comment_header (comments (db w')) = map comment_header (comments (db w))
      ∧ db w' = set_comments (comments (db w')) (db w)
      ∧ disk w' = disk w) w).
    assert (db w = set_comments (comments (db w)) (db w)) as Hsame
      by (by rewrite set_comments_same).
    unfold put_comment, requireAuth. apply wp_catch_500_world.
    destruct (isNaN id); [by apply wp_ret|].
    destruct (parse_update_comment content) as [data|]; [|by apply wp_ret].
    apply wp_bind. eapply wp_mono; [apply updateComment_spec|].
    intros [updated|e] w' (Hdisk & _ & H); simpl.
    + destruct H as (i & v & -> & [= <-] & -> & Hdb).
      assert (comments_by_others (User.id u) (db w')
              = comments_by_others (User.id u) (db w)
              ∧ map comment_header (comments (db w'))
                = map comment_header (comments (db w))
              ∧ db w' = set_comments (comments (db w')) (db w)
              ∧ disk w' = disk w) as Hgoal.
      { rewrite Hdb. simpl. repeat split; try done.
        - apply others_edited.
        - apply headers_edited. }
      destruct (head _); by apply wp_ret.
    + by rewrite H.
  - change (wp (delete_comment_route (Some u) id) (λ _ w',
      comments_by_others (User.id u) (db w') = comments_by_others (User.id u) (db w)
      ∧ db w' = set_comments (comments (db w')) (db w)
      ∧ disk w' = disk w) w).
    assert (db w = set_comments (comments (db w)) (db w)) as Hsame
      by (by rewrite set_comments_same).
    unfold delete_comment_route, requireAuth. apply wp_catch_500_world.
    destruct (isNaN id); [by apply wp_ret|].
    apply wp_bind. eapply wp_mono; [apply deleteComment_spec|].
    intros [removed|e] w' (Hdisk & _ & H); simpl.
    + destruct H as (i & v & -> & [= <-] & -> & Hdb).
      assert (comments_by_others (User.id u) (db w')
              = comments_by_others (User.id u) (db w)
              ∧ db w' = set_comments (comments (db w')) (db w)
              ∧ disk w' = disk w) as Hgoal.
      { rewrite Hdb. simpl. repeat split; try done. apply others_but. }
      destruct (negb _); by apply wp_ret.
    + by rewrite H.
  - intros i text -> -> Hi Hu Hs Hnone.
    unfold put_comment, delete_comment_route, requireAuth, catch_500, try_catch,
      updateComment, deleteComment, sql, attempt, mbind, M_bind,
      update_comment, delete_comment. simpl.
    rewrite Hs. simpl. rewrite (pair_param_Int _ _ Hi Hu). simpl.
    fold (comments_of i (User.id u) (db w)).
    fold (comments_but i (User.id u) (db w)).
    rewrite Hnone. simpl.
    assert (filter (λ c, Comment.id c = i ∧ Comment.userId c = User.id u)
              (map (λ c, if bool_decide (Comment.id c = i ∧ Comment.userId c = User.id u)
                         then change_comment (UpdateComment.mk text) c else c)
                 (comments (db w))) = []) as ->.
    { unfold comments_of in Hnone.
      induction (comments (db w)) as [|c l IH]; [done|]. simpl.
      rewrite filter_cons in Hnone. case_decide as Hc; [done|].
      rewrite bool_decide_eq_false_2 by done.
      rewrite filter_cons, decide_False by done. by apply IH. }
    assert (map (λ c, if bool_decide (Comment.id c = i ∧ Comment.userId c = User.id u)
                      then change_comment (UpdateComment.mk text) c else c)
              (comments (db w)) = comments (db w)) as ->.
    { unfold comments_of in Hnone.
      induction (comments (db w)) as [|c l IH]; [done|]. simpl.
      rewrite filter_cons in Hnone. case_decide as Hc; [done|].
      rewrite bool_decide_eq_false_2 by done. by rewrite IH. }
    unfold comments_but. rewrite (filter_none _ _ Hnone).
    simpl. rewrite set_comments_same. split; reflexivity.
Qed.

Lemma comments_of_others_are_out_of_reach_witness :
  handle (Some uploader) (DELETE_comment (Int 1)) (world_of commented_db)
  = (Ok (status_json 404 (JMessage
           "Comment not found or you do not have permission to delete it")),
     next (world_of commented_db)).
Proof.
  refine (proj2 (proj2 (proj2 (comments_of_others_are_out_of_reach uploader (Int 1)
                                 (Str "x") (world_of commented_db)))
                   1 "x" eq_refl eq_refl eq_refl eq_refl eq_refl eq_refl)).
Defined.

(** X9.  The author of a comment edits and deletes it: when the statement
    does not fail, [PUT] answers with the comment carrying the new content
    and stores it in place, and [DELETE] answers with success and leaves no
    comment of the caller under this id. *)
Theorem author_edits_and_deletes_own_comment (u : User.t) (i : Z) (text : string)
    (c : Comment.t) (w : World) :
  in_int4 i = true → in_int4 (User.id u) = true →
  hd false (script w) = false →
  head (comments_of i (User.id u) (db w)) = Some c →
  handle (Some u) (PUT_comment (Int i) (Str text)) w
  = (Ok (json (JComment (change_comment (UpdateComment.mk text) c))),
     set_db (set_comments (comments_edited i (User.id u) text (db w)) (db w))
       (next w))
  ∧ handle (Some u) (DELETE_comment (Int i)) w
    = (Ok (json JSuccess),
       set_db (set_comments (comments_but i (User.id u) (db w)) (db w)) (next w))
  ∧ comments_of i (User.id u)
      (set_comments (comments_but i (User.id u) (db w)) (db w)) = [].
Proof.
  intros Hi Hu Hs Hc. split; [|split].
  - pose proof (updateComment_spec (Int i) (Int (User.id u))
                  (UpdateComment.mk text) w) as H.
    unfold wp in H. simpl.
    unfold put_comment, requireAuth, catch_500, try_catch. simpl.
    unfold mbind at 1. unfold M_bind.
    destruct (updateComment _ _ _ w) as [[updated|e] w'] eqn:Hrun; simpl in *.
    + destruct H as (_ & _ & i' & u' & [= <-] & [= <-] & -> & Hdb).
      rewrite Hc. simpl.
      unfold updateComment, sql, attempt, mbind, M_bind, update_comment in Hrun.
      simpl in Hrun. rewrite Hs in Hrun. simpl in Hrun.
      rewrite (pair_param_Int _ _ Hi Hu) in Hrun. simpl in Hrun.
      injection Hrun as _ <-. done.
    + exfalso.
      unfold updateComment, sql, attempt, mbind, M_bind, update_comment in Hrun.
      simpl in Hrun. rewrite Hs in Hrun. simpl in Hrun.
      rewrite (pair_param_Int _ _ Hi Hu) in Hrun. simpl in Hrun. done.
  - simpl.
    unfold delete_comment_route, requireAuth, catch_500, try_catch,
      deleteComment, sql, attempt, mbind, M_bind, delete_comment. simpl.
    rewrite Hs. simpl. rewrite (pair_param_Int _ _ Hi Hu). simpl.
    fold (comments_of i (User.id u) (db w)).
    destruct (comments_of i (User.id u) (db w)); [done|]. done.
  - unfold comments_of, comments_but. simpl.
    induction (comments (db w)) as [|x l IH]; [done|].
    rewrite filter_cons. case_decide as Hx; [|done].
    rewrite filter_cons, decide_False by done. done.
Qed.

Lemma author_edits_and_deletes_own_comment_witness :
  handle (Some visitor) (PUT_comment (Int 1) (Str "better")) (world_of commented_db)
  = (Ok (json (JComment (Comment.mk 1 "better" 7 1 (Some 14)))),
     set_db (set_comments (comments_edited 1 7 "better" commented_db) commented_db)
       (next (world_of commented_db))).
Proof.
  refine (proj1 (author_edits_and_deletes_own_comment visitor 1 "better"
                   (Comment.mk 1 "nice" 7 1 (Some 14)) (world_of commented_db)
                   eq_refl eq_refl eq_refl eq_refl)).
Defined.



(** ** Users and their profiles *)

Lemma username_clash_NoDup l :
  username_clash l = false ↔ NoDup (map User.username l).
Proof.
  induction l as [|x l IH]; simpl.
  - split; [constructor|done].
  - rewrite orb_false_iff, IH, NoDup_cons. 
    rewrite bool_decide_eq_false. rewrite Exists_exists.
    rewrite list_elem_of_fmap. split.
    + intros [Hx Hl]. split; [|done]. intros (y & Hy & Hin). apply Hx. eauto.
    + intros [Hx Hl]. split; [|done]. intros (y & Hin & Hy). apply Hx. eauto.
Qed.

Lemma createUser_spec (user : InsertUser.t) (w : World) :
  wp (createUser user) (λ r w',
    disk w' = disk w ∧ clock w' = clock w
    ∧ match r with
      | Ok row =>
          row = Some (new_user user w)
          ∧ db w' = registered (new_user user w) (db w)
          ∧ ¬ Exists (λ x, User.id x = users_id_seq (db w)) (users (db w))
          ∧ ¬ Exists (λ x, User.username x = InsertUser.username user) (users (db w))
      | Throw _ =>
          db w' = db w
          ∨ db w' = set_users_id_seq (users_id_seq (db w) + 1) (db w)
      end) w.
Proof.
  unfold createUser. apply wp_bind, wp_sql; [intros; open_world w; auto|].
  intros _. unfold insert_user.
  destruct (in_int4 (users_id_seq (db w))); simpl; [|intros; open_world w; auto].
  case_bool_decide; simpl; [intros; open_world w; auto|].
  case_bool_decide; simpl; [intros; open_world w; auto|].
  apply wp_ret. open_world w.
Qed.

Lemma change_user_edited updates x y :
  change_user updates x = Ok y → y = edited_user updates x.
Proof. unfold edited_user. by intros ->. Qed.

Lemma edited_user_id updates x : User.id (edited_user updates x) = User.id x.
Proof.
  unfold edited_user, change_user.
  destruct (UpdateUser.username updates), (UpdateUser.password updates); done.
Qed.

Lemma updateUser_spec (id : num) (updates : UpdateUser.t) (w : World) :
  wp (updateUser id updates) (λ r w',
    disk w' = disk w ∧ clock w' = clock w
    ∧ match r with
      | Ok updated =>
          ∃ i, id = Int i ∧ in_int4 i = true
               ∧ db w' = set_users (users_edited i updates (db w)) (db w)
               ∧ updated = user_of i (db w')
               ∧ (username_clash (users (db w)) = false →
                  username_clash (users_edited i updates (db w)) = false)
      | Throw _ => db w' = db w
      end) w.
Proof.
  unfold updateUser. destruct (_ && _).
  { apply wp_throw. by open_world w. }
  apply wp_bind, wp_sql; [intros; by open_world w|].
  intros _. unfold update_user.
  destruct id as [|i]; simpl; [intros; by open_world w|].
  destruct (in_int4 i) eqn:Hi; simpl; [|intros; by open_world w].
  destruct (update_where _ _ _) as [rows|e] eqn:Hup; simpl;
    [|intros; by open_world w].
  apply (update_where_Ok_map _ _ (edited_user updates)) in Hup;
    [|apply change_user_edited].
  fold (users_edited i updates (db w)) in Hup. subst rows.
  destruct (username_clash (users_edited i updates (db w))) eqn:Hclash; simpl.
  - destruct (username_clash (users (db w))) eqn:Hold; simpl.
    + apply wp_ret. simpl. repeat split; try done. exists i.
      repeat split; try done.
    + intros; by open_world w.
  - apply wp_ret. simpl. repeat split; try done. exists i.
    repeat split; try done.
Qed.

Lemma perform_keeps_users o :
  match o with Op_createUser _ | Op_updateUser _ _ => False | _ => True end →
  keeps T_users (perform o).
Proof.
  intros Ho. destruct o; try done; simpl; unfold void; keeps_tac.
Qed.

Lemma users_edited_ids i updates d :
  map User.id (users_edited i updates d) = map User.id (users d).
Proof.
  unfold users_edited. rewrite map_map. apply map_ext. intros x.
  case_bool_decide; [apply edited_user_id|done].
Qed.

Lemma users_sound_call o w :
  users_sound (db w) → users_sound (db (snd (perform o w))).
Proof.
  intros (Hnames & Hids & Hseq).
  destruct o;
    try (match goal with
         | |- users_sound (db (snd (perform ?o _))) =>
             pose proof (perform_keeps_users o I w) as H
         end;
         simpl in H; injection H as Hu Hs; simpl; unfold users_sound;
         by rewrite Hu, Hs).
  - simpl. rewrite void_world.
    pose proof (createUser_spec user w) as H. unfold wp in H.
    destruct (createUser user w) as [[row|e] w']; simpl in *.
    + destruct H as (_ & _ & _ & -> & Hid & Hname). unfold users_sound. simpl.
      rewrite !map_app. simpl. repeat split.
      * apply NoDup_app. split; [done|]. split; [|apply NoDup_singleton].
        intros name Hin Hin'. apply list_elem_of_singleton in Hin' as ->.
        apply Hname. apply list_elem_of_fmap in Hin as (x & Hx & Hin).
        apply Exists_exists. eauto.
      * apply NoDup_app. split; [done|]. split; [|apply NoDup_singleton].
        intros i Hin Hin'. apply list_elem_of_singleton in Hin' as ->.
        apply Hid. apply list_elem_of_fmap in Hin as (x & Hx & Hin).
        apply Exists_exists. eauto.
      * apply Forall_app. split.
        -- eapply Forall_impl; [exact Hseq|]. simpl. intros; lia.
        -- apply Forall_singleton. simpl. lia.
    + destruct H as (_ & _ & [-> | ->]); [done|]. unfold users_sound. simpl.
      repeat split; try done. eapply Forall_impl; [exact Hseq|]. simpl. intros; lia.
  - simpl. rewrite void_world.
    pose proof (updateUser_spec id updates w) as H. unfold wp in H.
    destruct (updateUser id updates w) as [[row|e] w']; simpl in *.
    + destruct H as (_ & _ & i & -> & _ & Hdb & _ & Hclash). rewrite Hdb.
      unfold users_sound. simpl. repeat split.
      * apply username_clash_NoDup, Hclash. by apply username_clash_NoDup.
      * by rewrite users_edited_ids.
      * apply Forall_forall. intros x Hx.
        assert (User.id x ∈ map User.id (users_edited i updates (db w))) as Hin
          by (apply list_elem_of_fmap; eauto).
        rewrite users_edited_ids in Hin.
        apply list_elem_of_fmap in Hin as (y & -> & Hy).
        rewrite Forall_forall in Hseq. by apply Hseq.
    + by destruct H as (_ & _ & ->).
Qed.

Lemma lookup_unique {A K} `{EqDecision K} (key : A -> K) (l : list A) (x : A) :
  NoDup (map key l) → x ∈ l → filter (λ y, key y = key x) l = [x].
Proof.
  induction l as [|y l IH]; simpl; intros Hnd Hin; [by apply elem_of_nil in Hin|].
  apply NoDup_cons in Hnd as [Hy Hnd]. rewrite filter_cons.
  apply elem_of_cons in Hin as [->|Hin].
  - rewrite decide_True by done. f_equal.
    destruct (filter _ l) as [|z l'] eqn:Hf; [done|]. exfalso. apply Hy.
    assert (z ∈ filter (λ y0, key y0 = key y) l) as Hz by (rewrite Hf; left).
    apply list_elem_of_filter in Hz as [<- Hz]. apply list_elem_of_fmap. eauto.
  - rewrite decide_False.
    + by apply IH.
    + intros Heq. apply Hy. rewrite Heq. apply list_elem_of_fmap. eauto.
Qed.


Lemma users_sound_members : users_sound members_db.
Proof.
  unfold members_db, after_all. simpl. unfold after.
  apply users_sound_call, users_sound_call.
  unfold users_sound. simpl. repeat split; constructor.
Qed.


Lemma user_named_None name d :
  user_named name d = None → ¬ Exists (λ x, User.username x = name) (users d).
Proof.
  unfold user_named. intros H. apply (filter_nil_not_Exists _ _).
  by destruct (filter _ _).
Qed.

Lemma user_named_registered name row d :
  user_named name d = None → User.username row = name →
  user_named name (registered row d) = Some row.
Proof.
  unfold user_named, registered. simpl. intros H Hrow. rewrite filter_app.
  destruct (filter _ (users d)); [|done]. simpl.
  by rewrite filter_cons, decide_True.
Qed.

(** X12.  [POST /api/users]: a body the schema refuses gets 400 and no
    statement is sent; a name that is taken gets 409 and nothing is
    stored; a new name gets 201 and a row with the next id, the name, and
    the password exactly as it was sent, which is also part of the
    answer; [getUserByUsername] then finds this row. *)
Theorem registration (session : option User.t) (form : UserBody.t) (w : World) :
  (parse_insert_user form = None →
   handle session (POST_users form) w
   = (Ok (status_json 400 (JInvalid "Invalid user data")), w))
  ∧ (∀ data, parse_insert_user form = Some data →
       hd false (script w) = false →
       (∀ x, user_named (InsertUser.username data) (db w) = Some x →
          handle session (POST_users form) w
          = (Ok (status_json 409 (JMessage "Username already exists")), next w))
       ∧ (user_named (InsertUser.username data) (db w) = None →
          hd false (tail (script w)) = false →
          in_int4 (users_id_seq (db w)) = true →
          users_sound (db w) →
          handle session (POST_users form) w
          = (Ok (status_json 201 (JUser (Some (new_user data w)))),
             set_db (registered (new_user data w) (db w)) (next (next w)))
          ∧ user_named (InsertUser.username data)
              (registered (new_user data w) (db w))
            = Some (new_user data w)
          ∧ User.password (new_user data w) = InsertUser.password data)).
Proof.
  split.
  - intros Hparse. simpl. unfold post_users, catch_500, try_catch.
    by rewrite Hparse.
  - intros data Hparse Hs. split.
    + intros x Hx. simpl.
      unfold post_users, catch_500, try_catch, getUserByUsername, select, sql,
        attempt, mbind, M_bind. rewrite Hparse. simpl. rewrite Hs. simpl.
      unfold user_named in Hx. by rewrite Hx.
    + intros Hnone Hs' Hseq (_ & _ & Hids).
      split; [|split; [by apply user_named_registered|done]].
      simpl.
      unfold post_users, catch_500, try_catch, getUserByUsername, createUser,
        select, sql, attempt, mbind, M_bind. rewrite Hparse. simpl.
      rewrite Hs. simpl. unfold user_named in Hnone. rewrite Hnone. simpl.
      rewrite Hs'. simpl. unfold insert_user. rewrite Hseq. simpl.
      rewrite bool_decide_eq_false_2.
      2:{ intros Hex. apply Exists_exists in Hex as (x & Hx & Hid).
          rewrite Forall_forall in Hids. specialize (Hids x Hx). lia. }
      rewrite bool_decide_eq_false_2 by (by apply user_named_None).
      done.
Qed.

Lemma registration_witness :
  handle None (POST_users (UserBody.mk (Str "ann") (Str "pw") Undefined))
    (world_of members_db)
  = (Ok (status_json 201 (JUser (Some (User.mk 3 "ann" "pw" None None (Some 20))))),
     set_db (registered (User.mk 3 "ann" "pw" None None (Some 20)) members_db)
       (next (next (world_of members_db)))).
Proof.
  refine (proj1 (proj2 (proj2 (registration None
            (UserBody.mk (Str "ann") (Str "pw") Undefined) (world_of members_db))
            (InsertUser.mk "ann" "pw" Absent) eq_refl eq_refl)
            eq_refl eq_refl eq_refl users_sound_members)).
Defined.

Lemma others_edited_users u updates d :
  filter (λ x, User.id x ≠ u) (users_edited u updates d) = other_users u d.
Proof.
  unfold users_edited, other_users.
  induction (users d) as [|x l IH]; [done|]. simpl. rewrite !filter_cons.
  case_bool_decide as Hx.
  - rewrite decide_False by (rewrite edited_user_id; intros ?; done).
    rewrite decide_False by (intros ?; done). done.
  - do 2 rewrite decide_True by done. by rewrite IH.
Qed.

Lemma num_eqb_Int i id : num_eqb (Int i) id = true ↔ id = Int i.
Proof.
  destruct id as [|j]; simpl; [split; intros ?; done|]. rewrite bool_decide_eq_true.
  split; [by intros ->|by intros [= ->]].
Qed.



Lemma updateUser_returns (i : Z) (updates : UpdateUser.t) (w : World) :
  hd false (script w) = false → in_int4 i = true →
  is_absent (UpdateUser.username updates) && is_absent (UpdateUser.password updates)
    && is_absent (UpdateUser.avatar updates) && is_absent (UpdateUser.bio updates)
  = false →
  UpdateUser.username updates ≠ IsNull → UpdateUser.password updates ≠ IsNull →
  username_clash (users_edited i updates (db w)) = false →
  updateUser (Int i) updates w
  = (Ok (head (filter (λ x, User.id x = i) (users_edited i updates (db w)))),
     set_db (set_users (users_edited i updates (db w)) (db w)) (next w)).
Proof.
  intros Hs Hi Hsome Hname Hpass Hclash.
  unfold updateUser. rewrite Hsome.
  unfold sql, attempt, mbind, M_bind, update_user. simpl. rewrite Hs. simpl.
  rewrite Hi. simpl.
  rewrite (update_where_map_Ok _ _ (edited_user updates)).
  2:{ apply Forall_forall. intros x _ _. unfold edited_user, change_user.
      destruct (UpdateUser.username updates), (UpdateUser.password updates); done. }
  simpl. fold (users_edited i updates (db w)). rewrite Hclash. simpl. done.
Qed.

Lemma users_edited_one (usr : User.t) (updates : UpdateUser.t) (d : Database) :
  NoDup (map User.id (users d)) → usr ∈ users d →
  users_edited (User.id usr) updates d
  = map (λ x, if bool_decide (x = usr) then edited_user updates usr else x) (users d).
Proof.
  intros Hids Hin. unfold users_edited. apply map_ext_in. intros x Hx.
  apply list_elem_of_In in Hx.
  case_bool_decide as Hid.
  - assert (x = usr) as ->.
    { pose proof (lookup_unique User.id _ _ Hids Hin) as Hf.
      assert (x ∈ filter (λ y, User.id y = User.id usr) (users d)) as Hxf
        by (by apply list_elem_of_filter).
      rewrite Hf in Hxf. by apply list_elem_of_singleton in Hxf. }
    by rewrite bool_decide_eq_true_2.
  - rewrite bool_decide_eq_false_2; [done|]. by intros ->.
Qed.

Lemma user_of_edited_one (usr new : User.t) (d : Database) :
  NoDup (map User.id (users d)) → usr ∈ users d → User.id new = User.id usr →
  head (filter (λ x, User.id x = User.id usr)
          (map (λ x, if bool_decide (x = usr) then new else x) (users d)))
  = Some new.
Proof.
  intros Hids Hin Hnew.
  induction (users d) as [|y l IH]; simpl; [by apply elem_of_nil in Hin|].
  simpl in Hids. apply NoDup_cons in Hids as [Hy Hids].
  case_bool_decide as Hyu.
  - by rewrite filter_cons, decide_True.
  - apply elem_of_cons in Hin as [->|Hin]; [done|].
    rewrite filter_cons, decide_False; [by apply IH|].
    intros Heq. apply Hy. rewrite Heq. apply list_elem_of_fmap. eauto.
Qed.

(** X14.  An avatar upload by the owner of the profile, when neither
    statement fails: the row of the user gets the path of the stored file
    as its avatar and is otherwise as before, every other row is as
    before, and the answer is the profile without the password. *)
Theorem avatar_upload (u usr : User.t) (filename : string) (w : World) :
  in_int4 (User.id u) = true →
  hd false (script w) = false → hd false (tail (script w)) = false →
  users_sound (db w) → usr ∈ users (db w) → User.id usr = User.id u →
  let updated := with_avatar ("/uploads/" ++ filename) usr in
  handle (Some u) (POST_user_avatar (Int (User.id u)) (Some filename)) w
  = (Ok (json (JProfile (without_password updated))),
     set_db (set_users (map (λ x, if bool_decide (x = usr) then updated else x)
                          (users (db w))) (db w))
       (next (next w))).
Proof.
  intros Hu Hs Hs' (Hnames & Hids & _) Hin Hid updated.
  unfold handle, post_user_avatar, requireAuth, catch_500, try_catch.
  rewrite (proj2 (num_eqb_Int _ _) eq_refl). simpl.
  unfold mbind at 1. unfold M_bind.
  assert (getUser (Int (User.id u)) w = (Ok (Some usr), next w)) as ->.
  { unfold getUser, select, sql, attempt, mbind, M_bind. simpl. rewrite Hs. simpl.
    rewrite Hu. simpl. rewrite <- Hid.
    by rewrite (lookup_unique User.id _ _ Hids Hin). }
  unfold mbind at 1. unfold M_bind.
  set (updates := UpdateUser.mk (Val (User.username usr)) Absent
                    (Val (Some ("/uploads/" ++ filename))) Absent).
  assert (edited_user updates usr = updated) as Hedit by done.
  assert (users_edited (User.id u) updates (db (next w))
          = map (λ x, if bool_decide (x = usr) then updated else x)
              (users (db w))) as Hrows.
  { rewrite <- Hid, <- Hedit. by apply users_edited_one. }
  rewrite (updateUser_returns (User.id u) updates (next w)); try done.
  - rewrite Hrows. rewrite <- Hid.
    rewrite (user_of_edited_one usr updated (db w) Hids Hin eq_refl). done.
  - rewrite Hrows. apply username_clash_NoDup.
    rewrite map_map.
    replace (map (λ x, User.username (if bool_decide (x = usr) then updated else x))
               (users (db w))) with (map User.username (users (db w))); [done|].
    apply map_ext. intros x. by case_bool_decide as Hx; [rewrite Hx|].
Qed.

Lemma avatar_upload_witness :
  fst (handle (Some uploader) (POST_user_avatar (Int 2) (Some "a.png"))
         (world_of members_db))
  = Ok (json (JProfile (Profile.mk 2 "uploader" (Some "/uploads/a.png") None (Some 16)))).
Proof.
  refine (f_equal fst (avatar_upload uploader
            (User.mk 2 "uploader" "y" None None (Some 16)) "a.png"
            (world_of members_db) eq_refl eq_refl eq_refl users_sound_members _ eq_refl)).
  right. left.
Defined.

Lemma edited_user_password updates x :
  UpdateUser.password updates = Absent →
  User.password (edited_user updates x) = User.password x.
Proof.
  intros H. unfold edited_user, change_user. rewrite H.
  destruct (UpdateUser.username updates); done.
Qed.



(** ** Listings *)

Lemma desc_le_total a b : desc_le a b = false → desc_le b a = true.
Proof. destruct a, b; simpl; try done. intros H. apply Z.leb_le. apply Z.leb_gt in H. lia. Qed.

Lemma desc_le_trans a b c : desc_le a b = true → desc_le b c = true → desc_le a c = true.
Proof.
  destruct a, b, c; simpl; try done. rewrite !Z.leb_le. lia.
Qed.

Lemma insert_desc_perm {A} (key : A -> option Z) x l :
  insert_desc key x l ≡ₚ x :: l.
Proof.
  induction l as [|y l IH]; simpl; [done|].
  destruct (desc_le _ _); [done|]. rewrite IH. apply Permutation_swap.
Qed.

Lemma order_by_desc_perm {A} (key : A -> option Z) l :
  order_by_desc key l ≡ₚ l.
Proof.
  unfold order_by_desc. induction l as [|x l IH]; simpl; [done|].
  by rewrite insert_desc_perm, IH.
Qed.

Lemma insert_desc_sorted {A} (key : A -> option Z) x l :
  StronglySorted (desc_before key) l →
  StronglySorted (desc_before key) (insert_desc key x l).
Proof.
  induction 1 as [|y l Hl IH Hy]; simpl.
  - repeat constructor.
  - destruct (desc_le (key x) (key y)) eqn:Hxy.
    + constructor; [by constructor|]. constructor; [done|].
      eapply Forall_impl; [exact Hy|]. intros z Hz. unfold desc_before in *.
      by eapply desc_le_trans.
    + constructor; [done|].
      rewrite insert_desc_perm. constructor; [|done].
      by apply desc_le_total.
Qed.

Lemma order_by_desc_sorted {A} (key : A -> option Z) l :
  StronglySorted (desc_before key) (order_by_desc key l).
Proof.
  unfold order_by_desc. induction l as [|x l IH]; simpl; [constructor|].
  by apply insert_desc_sorted.
Qed.



Lemma join_videos_elem items vs item x :
  (item, x) ∈ join_videos items vs
  ↔ item ∈ items ∧ x ∈ vs ∧ Video.id x = Watchlist.videoId item.
Proof.
  unfold join_videos. rewrite list_elem_of_bind. split.
  - intros (i & Hin & Hi). apply list_elem_of_bind in Hin as (y & Hin & Hy).
    apply list_elem_of_singleton in Hin as [= -> ->].
    apply list_elem_of_filter in Hy as [Hid Hy]. done.
  - intros (Hi & Hx & Hid). exists item. split; [|done].
    apply list_elem_of_bind. exists x. split; [by apply list_elem_of_singleton|].
    by apply list_elem_of_filter.
Qed.

Lemma getWatchlist_returns (u : Z) (w : World) :
  hd false (script w) = false → in_int4 u = true →
  ∃ vs, getWatchlist (Int u) w = (Ok vs, next w)
        ∧ ∀ x, x ∈ vs ↔ x ∈ videos (db w) ∧ on_watchlist u x (db w).
Proof.
  intros Hs Hu. eexists. split.
  - unfold getWatchlist, select, sql, attempt, mbind, M_bind. simpl.
    rewrite Hs. simpl. rewrite Hu. simpl. reflexivity.
  - intros x. rewrite list_elem_of_fmap. split.
    + intros ([item y] & -> & Hin). simpl.
      rewrite order_by_desc_perm in Hin.
      apply join_videos_elem in Hin as (Hitem & Hy & Hid).
      apply list_elem_of_filter in Hitem as [Hu' Hitem].
      split; [done|]. by exists item.
    + intros (Hx & item & Hitem & Hu' & Hid).
      exists (item, x). split; [done|]. rewrite order_by_desc_perm.
      apply join_videos_elem. split; [|done]. by apply list_elem_of_filter.
Qed.

(** X17.  The watchlist a user gets, through either route and when the
    statement does not fail, holds exactly the videos that are in the
    table and have a watchlist row of this user pointing at them: a row
    whose video was deleted contributes nothing. *)
Theorem watchlist_lists_the_videos_that_exist (session : option User.t)
    (usr : User.t) (u : Z) (w : World) :
  hd false (script w) = false →
  (in_int4 (User.id usr) = true →
   ∃ vs, handle (Some usr) GET_watchlist w = (Ok (json (JVideos vs)), next w)
         ∧ ∀ x, x ∈ vs ↔ x ∈ videos (db w) ∧ on_watchlist (User.id usr) x (db w))
  ∧ (in_int4 u = true →
     ∃ vs, handle session (GET_user_watchlist (Int u)) w
           = (Ok (json (JVideos vs)), next w)
           ∧ ∀ x, x ∈ vs ↔ x ∈ videos (db w) ∧ on_watchlist u x (db w)).
Proof.
  intros Hs. split.
  - intros Hu. destruct (getWatchlist_returns _ w Hs Hu) as (vs & Hrun & Hvs).
    exists vs. split; [|done].
    unfold handle, get_watchlist, requireAuth, catch_500, try_catch.
    unfold mbind at 1. unfold M_bind. by rewrite Hrun.
  - intros Hu. destruct (getWatchlist_returns _ w Hs Hu) as (vs & Hrun & Hvs).
    exists vs. split; [|done].
    unfold handle, get_user_watchlist, catch_500, try_catch.
    unfold mbind at 1. unfold M_bind. by rewrite Hrun.
Qed.

Lemma watchlist_lists_the_videos_that_exist_witness :
  ∃ vs, handle (Some visitor) GET_watchlist (world_of watched_db)
        = (Ok (json (JVideos vs)), next (world_of watched_db))
        ∧ ∀ x, x ∈ vs ↔ x ∈ videos (db (world_of watched_db))
                        ∧ on_watchlist (User.id visitor) x (db (world_of watched_db)).
Proof.
  apply (proj1 (watchlist_lists_the_videos_that_exist None visitor 7
                  (world_of watched_db) eq_refl)).
  reflexivity.
Defined.

(** X18.  The two routes kept for backward compatibility that take the
    user id from the path act on the watchlist of that user for any
    caller, signed in or not: the delete route removes the rows of the
    pair and answers with success, or with 404 if there was none, and the
    check route tells whether there is one. *)
Theorem legacy_watchlist_routes_need_no_session (session : option User.t)
    (u v : Z) (w : World) :
  in_int4 u = true → in_int4 v = true → hd false (script w) = false →
  handle session (DELETE_user_watchlist (Int u) (Int v)) w
  = (Ok (if bool_decide (watchlist_of u v (db w) ≠ [])
         then json JSuccess
         else status_json 404 (JMessage "Watchlist item not found")),
     set_db (set_watchlist (watchlist_but u v (db w)) (db w)) (next w))
  ∧ handle session (GET_user_watchlist_check (Int u) (Int v)) w
    = (Ok (json (JIsInWatchlist (bool_decide (watchlist_of u v (db w) ≠ [])))),
       next w)
  ∧ watchlist_of u v (set_watchlist (watchlist_but u v (db w)) (db w)) = [].
Proof.
  intros Hu Hv Hs. split; [|split].
  - unfold handle, delete_user_watchlist, catch_500, try_catch,
      removeFromWatchlist, sql, attempt, mbind, M_bind, delete_watchlist. simpl.
    rewrite Hs. simpl. rewrite (pair_param_Int _ _ Hu Hv). simpl.
    fold (watchlist_of u v (db w)). fold (watchlist_but u v (db w)).
    rewrite length_pos_nil. by case_bool_decide.
  - unfold handle, get_user_watchlist_check, catch_500, try_catch,
      isInWatchlist, select, sql, attempt, mbind, M_bind, watchlist_rows. simpl.
    rewrite Hs. simpl. rewrite (pair_param_Int _ _ Hu Hv). simpl.
    fold (watchlist_of u v (db w)). by rewrite length_pos_nil.
  - unfold watchlist_of, watchlist_but. simpl.
    induction (watchlist (db w)) as [|x l IH]; [done|].
    rewrite filter_cons. case_decide as Hx; [|done].
    rewrite filter_cons, decide_False by done. done.
Qed.

Lemma legacy_watchlist_routes_need_no_session_witness :
  handle None (DELETE_user_watchlist (Int 7) (Int 1)) (world_of watched_db)
  = (Ok (if bool_decide (watchlist_of 7 1 (db (world_of watched_db)) ≠ [])
         then json JSuccess
         else status_json 404 (JMessage "Watchlist item not found")),
     set_db (set_watchlist (watchlist_but 7 1 (db (world_of watched_db)))
               (db (world_of watched_db))) (next (world_of watched_db))).
Proof.
  refine (proj1 (legacy_watchlist_routes_need_no_session None 7 1
                   (world_of watched_db) eq_refl eq_refl eq_refl)).
Defined.

(** ** Votes and watchlist entries through the routes *)

Lemma likes_of_liked row d :
  likes_of (Like.userId row) (Like.videoId row) (liked row d) ≠ [].
Proof.
  unfold likes_of, liked. simpl. rewrite filter_app, filter_cons.
  rewrite decide_True by done. by destruct (filter _ (likes d)).
Qed.

Lemma likes_of_unliked u v d : likes_of u v (unliked u v d) = [].
Proof.
  unfold likes_of, unliked, likes_but. simpl.
  induction (likes d) as [|x l IH]; [done|].
  rewrite filter_cons. case_decide as Hx; [|done].
  by rewrite filter_cons, decide_False.
Qed.

Lemma post_likes_spec (u : User.t) (videoId : num) (w : World) :
  wp (handle (Some u) (POST_likes videoId)) (λ r w',
    ∃ resp, r = Ok resp
      ∧ ((status resp = 201
          ∧ ∃ v, videoId = Int v
              ∧ likes_of (User.id u) v (db w') ≠ []
              ∧ (db w' = db w
                 ∨ db w' = liked (Like.mk (User.id u) v (Some (clock w))) (db w)))
         ∨ (status resp ≠ 201 ∧ db w' = db w))) w.
Proof.
  unfold handle, post_likes, requireAuth, catch_500. apply wp_try_catch.
  destruct (isNaN videoId).
  { apply wp_ret. eexists. split; [done|]. by right. }
  apply wp_bind, wp_getVideo.
  { intros _ e n. apply wp_ret. eexists. split; [done|]. right. by open_world w. }
  intros _. destruct videoId as [|v]; simpl.
  { intros n. apply wp_ret. eexists. split; [done|]. right. by open_world w. }
  destruct (in_int4 v) eqn:Hv; simpl.
  2:{ intros n. apply wp_ret. eexists. split; [done|]. right. by open_world w. }
  destruct (video_of v (db w)) as [video|] eqn:Hvideo.
  2:{ apply wp_ret. eexists. split; [done|]. by right. }
  apply wp_bind. eapply wp_mono; [apply likeVideo_spec|].
  intros [row|e] w1 (_ & _ & H); simpl in *.
  - destruct H as (u' & v' & [= <-] & [= <-] & _ & _ & H).
    apply wp_ret. eexists. split; [done|]. left. split; [done|]. exists v.
    split; [done|]. destruct H as [(Hex & _ & ->)|(_ & _ & ->)].
    + auto.
    + split; [|by right].
      apply (likes_of_liked (Like.mk (User.id u) v (Some (clock w)))).
  - apply wp_ret. eexists. split; [done|]. by right.
Qed.

Lemma delete_likes_spec (u : User.t) (videoId : num) (w : World) :
  wp (handle (Some u) (DELETE_likes videoId)) (λ r w',
    ∃ resp, r = Ok resp
      ∧ ((status resp = 200
          ∧ ∃ v, videoId = Int v ∧ likes_of (User.id u) v (db w) ≠ []
              ∧ db w' = unliked (User.id u) v (db w))
         ∨ (status resp = 404
            ∧ ∃ v, videoId = Int v ∧ likes_of (User.id u) v (db w) = []
                ∧ db w' = unliked (User.id u) v (db w))
         ∨ (status resp ≠ 200 ∧ status resp ≠ 404 ∧ db w' = db w))) w.
Proof.
  unfold handle, delete_likes, requireAuth, catch_500. apply wp_try_catch.
  destruct (isNaN videoId).
  { apply wp_ret. eexists. split; [done|]. right. right. done. }
  apply wp_bind. eapply wp_mono; [apply unlikeVideo_spec|].
  intros [removed|e] w1 (_ & _ & H); simpl in *.
  - destruct H as (u' & v & [= <-] & -> & _ & _ & -> & Hdb).
    case_bool_decide as Hex; simpl; apply wp_ret; (eexists; split; [done|]).
    + left. split; [done|]. by exists v.
    + right. left. split; [done|]. exists v. split; [done|]. split; [|done].
      by destruct (likes_of _ _ _).
  - apply wp_ret. eexists. split; [done|]. right. right. done.
Qed.

Lemma get_likes_check_returns (u : User.t) (v : Z) (w : World) :
  hd false (script w) = false → in_int4 (User.id u) = true → in_int4 v = true →
  handle (Some u) (GET_likes_check (Int v)) w
  = (Ok (json (JIsLiked (bool_decide (likes_of (User.id u) v (db w) ≠ [])))),
     next w).
Proof.
  intros Hs Hu Hv.
  unfold handle, get_likes_check, requireAuth, catch_500, try_catch,
    isVideoLiked, select, sql, attempt, mbind, M_bind, like_rows. simpl.
  rewrite Hs. simpl. rewrite (pair_param_Int _ _ Hu Hv). simpl.
  fold (likes_of (User.id u) v (db w)). by rewrite length_pos_nil.
Qed.

Lemma dislikes_of_disliked row d :
  dislikes_of (Dislike.userId row) (Dislike.videoId row) (disliked row d) ≠ [].
Proof.
  unfold dislikes_of, disliked. simpl. rewrite filter_app, filter_cons.
  rewrite decide_True by done. by destruct (filter _ (dislikes d)).
Qed.

Lemma dislikes_of_undisliked u v d : dislikes_of u v (undisliked u v d) = [].
Proof.
  unfold dislikes_of, undisliked, dislikes_but. simpl.
  induction (dislikes d) as [|x l IH]; [done|].
  rewrite filter_cons. case_decide as Hx; [|done].
  by rewrite filter_cons, decide_False.
Qed.

Lemma post_dislikes_spec (u : User.t) (videoId : num) (w : World) :
  wp (handle (Some u) (POST_dislikes videoId)) (λ r w',
    ∃ resp, r = Ok resp
      ∧ ((status resp = 201
          ∧ ∃ v, videoId = Int v
              ∧ dislikes_of (User.id u) v (db w') ≠ []
              ∧ (db w' = db w
                 ∨ db w' = disliked (Dislike.mk (User.id u) v (Some (clock w))) (db w)))
         ∨ (status resp ≠ 201 ∧ db w' = db w))) w.
Proof.
  unfold handle, post_dislikes, requireAuth, catch_500. apply wp_try_catch.
  destruct (isNaN videoId).
  { apply wp_ret. eexists. split; [done|]. by right. }
  apply wp_bind, wp_getVideo.
  { intros _ e n. apply wp_ret. eexists. split; [done|]. right. by open_world w. }
  intros _. destruct videoId as [|v]; simpl.
  { intros n. apply wp_ret. eexists. split; [done|]. right. by open_world w. }
  destruct (in_int4 v) eqn:Hv; simpl.
  2:{ intros n. apply wp_ret. eexists. split; [done|]. right. by open_world w. }
  destruct (video_of v (db w)) as [video|] eqn:Hvideo.
  2:{ apply wp_ret. eexists. split; [done|]. by right. }
  apply wp_bind. eapply wp_mono; [apply dislikeVideo_spec|].
  intros [row|e] w1 (_ & _ & H); simpl in *.
  - destruct H as (u' & v' & [= <-] & [= <-] & _ & _ & H).
    apply wp_ret. eexists. split; [done|]. left. split; [done|]. exists v.
    split; [done|]. destruct H as [(Hex & _ & ->)|(_ & _ & ->)].
    + auto.
    + split; [|by right].
      apply (dislikes_of_disliked (Dislike.mk (User.id u) v (Some (clock w)))).
  - apply wp_ret. eexists. split; [done|]. by right.
Qed.

Lemma delete_dislikes_spec (u : User.t) (videoId : num) (w : World) :
  wp (handle (Some u) (DELETE_dislikes videoId)) (λ r w',
    ∃ resp, r = Ok resp
      ∧ ((status resp = 200
          ∧ ∃ v, videoId = Int v ∧ dislikes_of (User.id u) v (db w) ≠ []
              ∧ db w' = undisliked (User.id u) v (db w))
         ∨ (status resp = 404
            ∧ ∃ v, videoId = Int v ∧ dislikes_of (User.id u) v (db w) = []
                ∧ db w' = undisliked (User.id u) v (db w))
         ∨ (status resp ≠ 200 ∧ status resp ≠ 404 ∧ db w' = db w))) w.
Proof.
  unfold handle, delete_dislikes, requireAuth, catch_500. apply wp_try_catch.
  destruct (isNaN videoId).
  { apply wp_ret. eexists. split; [done|]. right. right. done. }
  apply wp_bind. eapply wp_mono; [apply undislikeVideo_spec|].
  intros [removed|e] w1 (_ & _ & H); simpl in *.
  - destruct H as (u' & v & [= <-] & -> & _ & _ & -> & Hdb).
    case_bool_decide as Hex; simpl; apply wp_ret; (eexists; split; [done|]).
    + left. split; [done|]. by exists v.
    + right. left. split; [done|]. exists v. split; [done|]. split; [|done].
      by destruct (dislikes_of _ _ _).
  - apply wp_ret. eexists. split; [done|]. right. right. done.
Qed.

Lemma get_dislikes_check_returns (u : User.t) (v : Z) (w : World) :
  hd false (script w) = false → in_int4 (User.id u) = true → in_int4 v = true →
  handle (Some u) (GET_dislikes_check (Int v)) w
  = (Ok (json (JIsDisliked (bool_decide (dislikes_of (User.id u) v (db w) ≠ [])))),
     next w).
Proof.
  intros Hs Hu Hv.
  unfold handle, get_dislikes_check, requireAuth, catch_500, try_catch,
    isVideoDisliked, select, sql, attempt, mbind, M_bind, dislike_rows. simpl.
  rewrite Hs. simpl. rewrite (pair_param_Int _ _ Hu Hv). simpl.
  fold (dislikes_of (User.id u) v (db w)). by rewrite length_pos_nil.
Qed.

Lemma watchlist_of_watched row d :
  watchlist_of (Watchlist.userId row) (Watchlist.videoId row) (watched row d) ≠ [].
Proof.
  unfold watchlist_of, watched. simpl. rewrite filter_app, filter_cons.
  rewrite decide_True by done. by destruct (filter _ (watchlist d)).
Qed.

Lemma watchlist_of_but u v d :
  watchlist_of u v (set_watchlist (watchlist_but u v d) d) = [].
Proof.
  unfold watchlist_of, watchlist_but. simpl.
  induction (watchlist d) as [|x l IH]; [done|].
  rewrite filter_cons. case_decide as Hx; [|done].
  by rewrite filter_cons, decide_False.
Qed.

Lemma post_watchlist_spec (u : User.t) (videoId : num) (w : World) :
  wp (handle (Some u) (POST_watchlist videoId)) (λ r w',
    ∃ resp, r = Ok resp
      ∧ (status resp = 201 →
         ∃ v, videoId = Int v ∧ watchlist_of (User.id u) v (db w') ≠ [])) w.
Proof.
  unfold handle, post_watchlist, requireAuth, catch_500. apply wp_try_catch.
  destruct (isNaN videoId).
  { apply wp_ret. eexists. split; [done|]. done. }
  apply wp_bind, wp_getVideo.
  { intros _ e n. apply wp_ret. eexists. split; [done|]. done. }
  intros _. destruct videoId as [|v]; simpl.
  { intros n. apply wp_ret. eexists. split; [done|]. done. }
  destruct (in_int4 v) eqn:Hv; simpl.
  2:{ intros n. apply wp_ret. eexists. split; [done|]. done. }
  destruct (video_of v (db w)) as [video|] eqn:Hvideo.
  2:{ apply wp_ret. eexists. split; [done|]. done. }
  apply wp_bind. eapply wp_mono; [apply addToWatchlist_spec|].
  intros [row|e] w1 (_ & _ & H); simpl in *.
  - destruct H as (u' & v' & [= <-] & [= <-] & _ & _ & H).
    apply wp_ret. eexists. split; [done|]. intros _. exists v.
    split; [done|]. destruct H as [(Hex & _ & ->)|(_ & _ & ->)]; [done|].
    apply (watchlist_of_watched (watch_row (User.id u) v (next w))).
  - apply wp_ret. eexists. split; [done|]. done.
Qed.

Lemma delete_watchlist_spec (u : User.t) (videoId : num) (w : World) :
  wp (handle (Some u) (DELETE_watchlist videoId)) (λ r w',
    ∃ resp, r = Ok resp
      ∧ (status resp = 200 ∨ status resp = 404 →
         ∃ v, videoId = Int v ∧ watchlist_of (User.id u) v (db w') = [])) w.
Proof.
  unfold handle, delete_watchlist_route, requireAuth, catch_500. apply wp_try_catch.
  destruct (isNaN videoId).
  { apply wp_ret. eexists. split; [done|]. by intros [?|?]. }
  apply wp_bind. eapply wp_mono; [apply removeFromWatchlist_spec|].
  intros [removed|e] w1 (_ & _ & H); simpl in *.
  - destruct H as (u' & v & [= <-] & -> & _ & _ & -> & Hdb).
    assert (watchlist_of (User.id u) v (db w1) = []) as Hnone.
    { rewrite Hdb. apply watchlist_of_but. }
    case_bool_decide as Hex; simpl; apply wp_ret; (eexists; split; [done|]);
      intros _; by exists v.
  - apply wp_ret. eexists. split; [done|]. by intros [?|?].
Qed.

Lemma get_watchlist_check_returns (u : User.t) (v : Z) (w : World) :
  hd false (script w) = false → in_int4 (User.id u) = true → in_int4 v = true →
  handle (Some u) (GET_watchlist_check (Int v)) w
  = (Ok (json (JIsInWatchlist (bool_decide (watchlist_of (User.id u) v (db w) ≠ [])))),
     next w).
Proof.
  intros Hs Hu Hv.
  unfold handle, get_watchlist_check, requireAuth, catch_500, try_catch,
    isInWatchlist, select, sql, attempt, mbind, M_bind, watchlist_rows. simpl.
  rewrite Hs. simpl. rewrite (pair_param_Int _ _ Hu Hv). simpl.
  fold (watchlist_of (User.id u) v (db w)). by rewrite length_pos_nil.
Qed.

(** X19.  What the check routes say after a change.  After a 201 from
    [POST /api/likes] the check route of the same user and video says
    liked; after a 200 or a 404 from [DELETE /api/likes/:videoId] it says
    not liked.  The same holds for dislikes and for the watchlist. *)
Theorem a_vote_is_seen_by_its_check (u : User.t) (v : Z) (w w1 : World)
    (resp : Response) :
  in_int4 (User.id u) = true → in_int4 v = true →
  hd false (script w1) = false →
  (handle (Some u) (POST_likes (Int v)) w = (Ok resp, w1) → status resp = 201 →
   fst (handle (Some u) (GET_likes_check (Int v)) w1) = Ok (json (JIsLiked true)))
  ∧ (handle (Some u) (DELETE_likes (Int v)) w = (Ok resp, w1) →
     status resp = 200 ∨ status resp = 404 →
     fst (handle (Some u) (GET_likes_check (Int v)) w1) = Ok (json (JIsLiked false)))
  ∧ (handle (Some u) (POST_dislikes (Int v)) w = (Ok resp, w1) → status resp = 201 →
     fst (handle (Some u) (GET_dislikes_check (Int v)) w1)
     = Ok (json (JIsDisliked true)))
  ∧ (handle (Some u) (DELETE_dislikes (Int v)) w = (Ok resp, w1) →
     status resp = 200 ∨ status resp = 404 →
     fst (handle (Some u) (GET_dislikes_check (Int v)) w1)
     = Ok (json (JIsDisliked false)))
  ∧ (handle (Some u) (POST_watchlist (Int v)) w = (Ok resp, w1) → status resp = 201 →
     fst (handle (Some u) (GET_watchlist_check (Int v)) w1)
     = Ok (json (JIsInWatchlist true)))
  ∧ (handle (Some u) (DELETE_watchlist (Int v)) w = (Ok resp, w1) →
     status resp = 200 ∨ status resp = 404 →
     fst (handle (Some u) (GET_watchlist_check (Int v)) w1)
     = Ok (json (JIsInWatchlist false))).
Proof.
  intros Hu Hv Hs. repeat split.
  - intros Hrun H201. rewrite (get_likes_check_returns u v w1 Hs Hu Hv). simpl.
    pose proof (post_likes_spec u (Int v) w) as H. unfold wp in H.
    rewrite Hrun in H. simpl in H.
    destruct H as (resp' & [= <-] & [(_ & v' & [= <-] & Hex & _)|[Hno _]]); [|done].
    by rewrite bool_decide_eq_true_2.
  - intros Hrun Hst. rewrite (get_likes_check_returns u v w1 Hs Hu Hv). simpl.
    pose proof (delete_likes_spec u (Int v) w) as H. unfold wp in H.
    rewrite Hrun in H. simpl in H.
    destruct H as (resp' & [= <-] & [(_ & v' & [= <-] & _ & Hdb)
                                    |[(_ & v' & [= <-] & _ & Hdb)|(H1 & H2 & _)]]).
    + rewrite Hdb, likes_of_unliked. by rewrite bool_decide_eq_false_2 by auto.
    + rewrite Hdb, likes_of_unliked. by rewrite bool_decide_eq_false_2 by auto.
    + by destruct Hst.
  - intros Hrun H201. rewrite (get_dislikes_check_returns u v w1 Hs Hu Hv). simpl.
    pose proof (post_dislikes_spec u (Int v) w) as H. unfold wp in H.
    rewrite Hrun in H. simpl in H.
    destruct H as (resp' & [= <-] & [(_ & v' & [= <-] & Hex & _)|[Hno _]]); [|done].
    by rewrite bool_decide_eq_true_2.
  - intros Hrun Hst. rewrite (get_dislikes_check_returns u v w1 Hs Hu Hv). simpl.
    pose proof (delete_dislikes_spec u (Int v) w) as H. unfold wp in H.
    rewrite Hrun in H. simpl in H.
    destruct H as (resp' & [= <-] & [(_ & v' & [= <-] & _ & Hdb)
                                    |[(_ & v' & [= <-] & _ & Hdb)|(H1 & H2 & _)]]).
    + rewrite Hdb, dislikes_of_undisliked. by rewrite bool_decide_eq_false_2 by auto.
    + rewrite Hdb, dislikes_of_undisliked. by rewrite bool_decide_eq_false_2 by auto.
    + by destruct Hst.
  - intros Hrun H201. rewrite (get_watchlist_check_returns u v w1 Hs Hu Hv). simpl.
    pose proof (post_watchlist_spec u (Int v) w) as H. unfold wp in H.
    rewrite Hrun in H. simpl in H.
    destruct H as (resp' & [= <-] & H). destruct (H H201) as (v' & [= <-] & Hex).
    by rewrite bool_decide_eq_true_2.
  - intros Hrun Hst. rewrite (get_watchlist_check_returns u v w1 Hs Hu Hv). simpl.
    pose proof (delete_watchlist_spec u (Int v) w) as H. unfold wp in H.
    rewrite Hrun in H. simpl in H.
    destruct H as (resp' & [= <-] & H). destruct (H Hst) as (v' & [= <-] & Hex).
    rewrite Hex. by rewrite bool_decide_eq_false_2 by auto.
Qed.

Lemma a_vote_is_seen_by_its_check_witness :
  fst (handle (Some visitor) (GET_likes_check (Int 1))
         (snd (handle (Some visitor) (POST_likes (Int 1)) stocked_world)))
  = Ok (json (JIsLiked true)).
Proof.
  assert (handle (Some visitor) (POST_likes (Int 1)) stocked_world
          = (Ok (status_json 201 (JLike (Some (Like.mk 7 1 (Some 20))))),
             snd (handle (Some visitor) (POST_likes (Int 1)) stocked_world)))
    as Hrun by (vm_compute; reflexivity).
  assert (hd false (script (snd (handle (Some visitor) (POST_likes (Int 1))
                                   stocked_world))) = false)
    as Hs by (vm_compute; reflexivity).
  exact (proj1 (a_vote_is_seen_by_its_check visitor 1 stocked_world _ _
                  eq_refl eq_refl Hs) Hrun eq_refl).
Defined.

Lemma but_likes_shift v delta vs :
  map (set_video_likes None) (shift_likes v delta vs) = map (set_video_likes None) vs.
Proof.
  unfold shift_likes, on_video. rewrite map_map. apply map_ext. intros x.
  by case_bool_decide.
Qed.

Lemma but_dislikes_shift v delta vs :
  map (set_video_dislikes None) (shift_dislikes v delta vs)
  = map (set_video_dislikes None) vs.
Proof.
  unfold shift_dislikes, on_video. rewrite map_map. apply map_ext. intros x.
  by case_bool_decide.
Qed.

(** X20.  Likes and dislikes do not interact.  The two likes routes leave
    the table of dislikes and, in every video, everything but the likes
    counter as they were; the two dislikes routes leave the table of likes
    and everything but the dislikes counter as they were.  So a like never
    lifts a dislike of the same user, nor the other way round. *)
Theorem votes_do_not_interact (u : User.t) (id : num) (w : World) :
  (∀ r, r = POST_likes id ∨ r = DELETE_likes id →
     dislikes (db (snd (handle (Some u) r w))) = dislikes (db w)
     ∧ videos_but_likes (db (snd (handle (Some u) r w))) = videos_but_likes (db w))
  ∧ (∀ r, r = POST_dislikes id ∨ r = DELETE_dislikes id →
       likes (db (snd (handle (Some u) r w))) = likes (db w)
       ∧ videos_but_dislikes (db (snd (handle (Some u) r w)))
         = videos_but_dislikes (db w)).
Proof.
  split.
  - intros r [-> | ->].
    + pose proof (post_likes_spec u id w) as H. unfold wp in H.
      destruct H as (resp & _ & [(_ & v & _ & _ & [-> | ->])|[_ ->]]); try done.
      unfold videos_but_likes, liked. simpl. by rewrite but_likes_shift.
    + pose proof (delete_likes_spec u id w) as H. unfold wp in H.
      destruct H as (resp & _ & [(_ & v & _ & _ & ->)
                                |[(_ & v & _ & _ & ->)|(_ & _ & ->)]]); try done.
      all: unfold videos_but_likes, unliked; simpl; split; [done|];
        case_bool_decide; [by rewrite but_likes_shift|done].
  - intros r [-> | ->].
    + pose proof (post_dislikes_spec u id w) as H. unfold wp in H.
      destruct H as (resp & _ & [(_ & v & _ & _ & [-> | ->])|[_ ->]]); try done.
      unfold videos_but_dislikes, disliked. simpl. by rewrite but_dislikes_shift.
    + pose proof (delete_dislikes_spec u id w) as H. unfold wp in H.
      destruct H as (resp & _ & [(_ & v & _ & _ & ->)
                                |[(_ & v & _ & _ & ->)|(_ & _ & ->)]]); try done.
      all: unfold videos_but_dislikes, undisliked; simpl; split; [done|];
        case_bool_decide; [by rewrite but_dislikes_shift|done].
Qed.

Lemma votes_do_not_interact_witness :
  dislikes (db (snd (handle (Some visitor) (POST_likes (Int 1)) (world_of voted_db))))
  = dislikes (db (world_of voted_db))
  ∧ videos_but_likes (db (snd (handle (Some visitor) (POST_likes (Int 1))
                                 (world_of voted_db))))
    = videos_but_likes (db (world_of voted_db)).
Proof.
  apply (proj1 (votes_do_not_interact visitor (Int 1) (world_of voted_db))).
  by left.
Defined.

Lemma shift_likes_back v vs : shift_likes v (-1) (shift_likes v 1 vs) = vs.
Proof.
  unfold shift_likes, on_video. rewrite map_map.
  rewrite <- (map_id vs) at 2. apply map_ext. intros x.
  destruct (decide (Video.id x = v)) as [Hx|Hx].
  - rewrite (bool_decide_eq_true_2 _ Hx). simpl.
    rewrite (bool_decide_eq_true_2 _ Hx).
    destruct x as [? ? ? ? ? ? ? ? [n|] ? ? ?]; simpl; [|done].
    unfold set_video_likes. simpl. do 2 f_equal. lia.
  - rewrite (bool_decide_eq_false_2 _ Hx). by rewrite (bool_decide_eq_false_2 _ Hx).
Qed.

Lemma shift_dislikes_back v vs : shift_dislikes v (-1) (shift_dislikes v 1 vs) = vs.
Proof.
  unfold shift_dislikes, on_video. rewrite map_map.
  rewrite <- (map_id vs) at 2. apply map_ext. intros x.
  destruct (decide (Video.id x = v)) as [Hx|Hx].
  - rewrite (bool_decide_eq_true_2 _ Hx). simpl.
    rewrite (bool_decide_eq_true_2 _ Hx).
    destruct x as [? ? ? ? ? ? ? ? ? [n|] ? ?]; simpl; [|done].
    unfold set_video_dislikes. simpl. do 2 f_equal. lia.
  - rewrite (bool_decide_eq_false_2 _ Hx). by rewrite (bool_decide_eq_false_2 _ Hx).
Qed.

Lemma unliked_liked u v t d :
  likes_of u v d = [] → unliked u v (liked (Like.mk u v t) d) = d.
Proof.
  intros Hnone. unfold unliked, liked, likes_of, likes_but in *. simpl.
  rewrite !filter_app, Hnone. rewrite (filter_none _ _ Hnone). simpl.
  rewrite !filter_cons, !filter_nil.
  rewrite decide_True by done. rewrite decide_False by (intros H; by apply H).
  rewrite bool_decide_eq_true_2 by done. rewrite shift_likes_back, app_nil_r.
  by destruct d.
Qed.

Lemma undisliked_disliked u v t d :
  dislikes_of u v d = [] → undisliked u v (disliked (Dislike.mk u v t) d) = d.
Proof.
  intros Hnone. unfold undisliked, disliked, dislikes_of, dislikes_but in *. simpl.
  rewrite !filter_app, Hnone. rewrite (filter_none _ _ Hnone). simpl.
  rewrite !filter_cons, !filter_nil.
  rewrite decide_True by done. rewrite decide_False by (intros H; by apply H).
  rewrite bool_decide_eq_true_2 by done. rewrite shift_dislikes_back, app_nil_r.
  by destruct d.
Qed.



(** ** Deleting and updating a video *)

Lemma video_of_others i j d :
  j ≠ i →
  video_of j (set_videos (filter (λ x, Video.id x ≠ i) (videos d)) d) = video_of j d.
Proof.
  intros Hj. unfold video_of. simpl. f_equal.
  induction (videos d) as [|x l IH]; [done|].
  rewrite !filter_cons. destruct (decide (Video.id x = j)) as [Hx|Hx].
  - rewrite decide_True by congruence. rewrite filter_cons, decide_True by done.
    by rewrite IH.
  - case_decide; [|done]. rewrite filter_cons, decide_False by done. done.
Qed.



Lemma identity_on_video i data vs :
  map video_identity (on_video i (change_video data) vs) = map video_identity vs.
Proof.
  unfold on_video. rewrite map_map. apply map_ext. intros x. by case_bool_decide.
Qed.

Lemma updateVideo_spec (id : num) (data : UpdateVideo.t) (w : World) :
  wp (updateVideo id data) (λ r w',
    disk w' = disk w ∧ clock w' = clock w
    ∧ match r with
      | Ok updated =>
          ∃ i, id = Int i
               ∧ db w' = set_videos (on_video i (change_video data) (videos (db w)))
                           (db w)
               ∧ updated = change_video data <$> video_of i (db w)
      | Throw _ => db w' = db w
      end) w.
Proof.
  unfold updateVideo. apply wp_bind, wp_sql; [intros; by open_world w|].
  intros _. destruct (update_videos _ _ _) as [[rows|e] d'] eqn:Hup; simpl.
  - destruct id as [|i]; [done|].
    apply (update_videos_Ok _ (change_video data)) in Hup as (_ & -> & ->);
      [|by intros x y [= <-]].
    apply wp_ret. simpl. repeat split; try done. exists i. repeat split; try done.
    unfold video_of, on_video.
    induction (videos (db w)) as [|x l IH]; [done|]. simpl.
    rewrite !filter_cons. case_bool_decide as Hx.
    + rewrite decide_True by done. by rewrite decide_True.
    + rewrite decide_False by done. by rewrite decide_False.
  - apply update_videos_Throw in Hup as ->. intros; by open_world w.
Qed.

(** X23.  What [PUT /api/videos/:id] cannot do, whatever the body and
    the outcome: it leaves the id, the file, the owner, the three counters
    and the upload time of every video, and every video with another id,
    as they were.  What it always does when it answers 200: it sets
    [featured] from the body, to false unless the body says "true", so a
    body without the field takes the video off the featured list. *)
Theorem video_update_keeps_identity_and_counters (session : option User.t)
    (id : num) (updates : VideoBody.t) (w : World) :
  let out := handle session (PUT_video id updates) w in
  map video_identity (videos (db (snd out))) = map video_identity (videos (db w))
  ∧ (∀ i, id = Int i →
       filter (λ x, Video.id x ≠ i) (videos (db (snd out)))
       = filter (λ x, Video.id x ≠ i) (videos (db w)))
  ∧ (∀ resp, fst out = Ok resp → status resp = 200 →
       ∃ i v data,
         id = Int i ∧ video_of i (db w) = Some v
         ∧ parse_update_video updates (is_true_text (VideoBody.featured updates))
           = Some data
         ∧ body resp = JVideo (Some (change_video data v))
         ∧ Video.featured (change_video data v)
           = Some (is_true_text (VideoBody.featured updates))).
Proof.
  change (wp (handle session (PUT_video id updates)) (λ r w',
    map video_identity (videos (db w')) = map video_identity (videos (db w))
    ∧ (∀ i, id = Int i →
         filter (λ x, Video.id x ≠ i) (videos (db w'))
         = filter (λ x, Video.id x ≠ i) (videos (db w)))
    ∧ (∀ resp, r = Ok resp → status resp = 200 →
         ∃ i v data,
           id = Int i ∧ video_of i (db w) = Some v
           ∧ parse_update_video updates (is_true_text (VideoBody.featured updates))
             = Some data
           ∧ body resp = JVideo (Some (change_video data v))
           ∧ Video.featured (change_video data v)
             = Some (is_true_text (VideoBody.featured updates)))) w).
  unfold handle, put_video, catch_500. apply wp_try_catch, wp_bind, wp_getVideo.
  { intros _ e n. apply wp_ret. simpl. repeat split; try done. by intros resp [= <-]. }
  intros _. destruct id as [|i]; simpl.
  { intros n. apply wp_ret. simpl. repeat split; try done. by intros resp [= <-]. }
  destruct (in_int4 i); simpl.
  2:{ intros n. apply wp_ret. simpl. repeat split; try done. by intros resp [= <-]. }
  destruct (video_of i (db w)) as [v|] eqn:Hv.
  2:{ apply wp_ret. simpl. repeat split; try done. by intros resp [= <-]. }
  destruct (parse_update_video _ _) as [data|] eqn:Hparse.
  2:{ apply wp_ret. simpl. repeat split; try done. by intros resp [= <-]. }
  apply wp_bind. eapply wp_mono; [apply updateVideo_spec|].
  intros [updated|e] w1 (_ & _ & H); simpl in *.
  - destruct H as (i' & [= <-] & Hdb & ->). apply wp_ret. simpl. rewrite Hdb. simpl.
    split; [apply identity_on_video|]. split.
    + intros j [= <-]. unfold on_video. clear Hdb Hv.
      induction (videos (db w)) as [|x l IH]; [done|]. simpl.
      rewrite !filter_cons. case_bool_decide as Hx.
      * rewrite decide_False by (intros H; apply H; exact Hx).
        by rewrite decide_False by (intros H; apply H; exact Hx).
      * do 2 rewrite decide_True by done. by rewrite IH.
    + intros resp [= <-] _. exists i, v, data. rewrite Hv. simpl.
      repeat split; try done.
      unfold parse_update_video in Hparse.
      destruct (parse_string (VideoBody.title updates)); simpl in Hparse; [|done].
      destruct (parse_nullish (VideoBody.description updates)); simpl in Hparse; [|done].
      destruct (parse_string (VideoBody.thumbnail updates)); simpl in Hparse; [|done].
      destruct (parse_string (VideoBody.category updates)); simpl in Hparse; [|done].
      by injection Hparse as <-.
  - apply wp_ret. simpl. rewrite H. repeat split; try done. by intros resp [= <-].
Qed.

Lemma video_update_keeps_identity_and_counters_witness :
  filter (λ x, Video.id x ≠ 1)
    (videos (db (snd (handle None
       (PUT_video (Int 1) (VideoBody.mk (Str "t") Undefined (Str "p") (Str "c") Undefined))
       stocked_world))))
  = filter (λ x, Video.id x ≠ 1) (videos (db stocked_world)).
Proof.
  apply (proj1 (proj2 (video_update_keeps_identity_and_counters None (Int 1)
           (VideoBody.mk (Str "t") Undefined (Str "p") (Str "c") Undefined)
           stocked_world)) 1).
  reflexivity.
Defined.

(** ** Looking users and comments up *)

(** X24.  The routes that look a user up answer 404 and change nothing
    when no user carries the id and the lookup does not fail: the two
    public ones for any caller, the two profile routes for a caller whose
    own row is gone. *)
Theorem missing_user_is_not_found (u : User.t) (i : Z) (updates : UpdateUser.t)
    (file : option string) (w : World) :
  user_of i (db w) = None → in_int4 i = true → hd false (script w) = false →
  let not_found := (Ok (status_json 404 (JMessage "User not found")), next w) in
  handle (Some u) (GET_user (Int i)) w = not_found
  ∧ handle (Some u) (GET_user_videos (Int i)) w = not_found
  ∧ (User.id u = i →
     handle (Some u) (PUT_user (Int i) updates) w = not_found
     ∧ handle (Some u) (POST_user_avatar (Int i) file) w = not_found).
Proof.
  intros Hnone Hi Hs not_found. unfold user_of in Hnone.
  assert (getUser (Int i) w = (Ok None, next w)) as Hget.
  { unfold getUser, select, sql, attempt, mbind, M_bind. simpl. rewrite Hs. simpl.
    rewrite Hi. simpl. by rewrite Hnone. }
  split; [|split].
  - unfold handle, get_user, catch_500, try_catch. unfold mbind, M_bind.
    by rewrite Hget.
  - unfold handle, get_user_videos, catch_500, try_catch. unfold mbind at 1.
    unfold M_bind. by rewrite Hget.
  - intros <-. split.
    + unfold handle, put_user, requireAuth, catch_500, try_catch.
      rewrite (proj2 (num_eqb_Int _ _) eq_refl). simpl.
      unfold mbind at 1. unfold M_bind. by rewrite Hget.
    + unfold handle, post_user_avatar, requireAuth, catch_500, try_catch.
      rewrite (proj2 (num_eqb_Int _ _) eq_refl). simpl.
      unfold mbind at 1. unfold M_bind. by rewrite Hget.
Qed.

Lemma missing_user_is_not_found_witness :
  handle (Some visitor) (GET_user (Int 9)) (world_of members_db)
  = (Ok (status_json 404 (JMessage "User not found")), next (world_of members_db)).
Proof.
  refine (proj1 (missing_user_is_not_found visitor 9
                   (UpdateUser.mk Absent Absent Absent Absent) None
                   (world_of members_db) eq_refl eq_refl eq_refl)).
Defined.

Lemma join_users_elem cs us c a :
  (c, a) ∈ join_users cs us ↔ c ∈ cs ∧ a ∈ us ∧ User.id a = Comment.userId c.
Proof.
  unfold join_users. rewrite list_elem_of_bind. split.
  - intros (c' & Hin & Hc). apply list_elem_of_bind in Hin as (y & Hin & Hy).
    apply list_elem_of_singleton in Hin as [= -> ->].
    apply list_elem_of_filter in Hy as [Hid Hy]. done.
  - intros (Hc & Ha & Hid). exists c. split; [|done].
    apply list_elem_of_bind. exists a. split; [by apply list_elem_of_singleton|].
    by apply list_elem_of_filter.
Qed.

(** X25.  [GET /api/videos/:videoId/comments] for a video that exists,
    when neither statement fails: the answer pairs each comment on the
    video with the row of its author, the whole row as stored, password
    column included; a comment whose author has no row is left out; and
    the pairs are in descending order of the time of the comment. *)
Theorem comments_are_listed_with_their_authors (session : option User.t)
    (v : Z) (video : Video.t) (w : World) :
  in_int4 v = true → video_of v (db w) = Some video →
  hd false (script w) = false → hd false (tail (script w)) = false →
  ∃ cs,
    handle session (GET_video_comments (Int v)) w
    = (Ok (json (JComments cs)), next (next w))
    ∧ (∀ c a, (c, a) ∈ cs
              ↔ c ∈ comments (db w) ∧ Comment.videoId c = v
                ∧ a ∈ users (db w) ∧ User.id a = Comment.userId c)
    ∧ StronglySorted (desc_before (λ r, Comment.createdAt (fst r))) cs.
Proof.
  intros Hv Hvideo Hs Hs'.
  exists (order_by_desc (λ r, Comment.createdAt (fst r))
            (join_users (filter (λ c, Comment.videoId c = v) (comments (db w)))
               (users (db w)))).
  split; [|split].
  - assert (getVideo (Int v) w = (Ok (Some video), next w)) as Hget.
    { unfold getVideo, select, sql, attempt, mbind, M_bind. simpl.
      rewrite Hs. simpl. rewrite Hv. simpl.
      unfold video_of in Hvideo. by rewrite Hvideo. }
    assert (getVideoComments (Int v) (next w)
            = (Ok (order_by_desc (λ r, Comment.createdAt (fst r))
                     (join_users (filter (λ c, Comment.videoId c = v)
                                    (comments (db w))) (users (db w)))),
               next (next w))) as Hlist.
    { unfold getVideoComments, select, sql, attempt, mbind, M_bind. simpl.
      rewrite Hs'. simpl. by rewrite Hv. }
    unfold handle, get_video_comments, catch_500, try_catch. simpl.
    unfold mbind at 1. unfold M_bind. rewrite Hget.
    unfold mbind at 1. unfold M_bind. by rewrite Hlist.
  - intros c a. rewrite order_by_desc_perm, join_users_elem.
    rewrite list_elem_of_filter. naive_solver.
  - apply order_by_desc_sorted.
Qed.

Lemma comments_are_listed_with_their_authors_witness :
  ∃ cs,
    handle None (GET_video_comments (Int 1)) (world_of commented_db)
    = (Ok (json (JComments cs)), next (next (world_of commented_db)))
    ∧ (∀ c a, (c, a) ∈ cs
              ↔ c ∈ comments (db (world_of commented_db)) ∧ Comment.videoId c = 1
                ∧ a ∈ users (db (world_of commented_db))
                ∧ User.id a = Comment.userId c)
    ∧ StronglySorted (desc_before (λ r, Comment.createdAt (fst r))) cs.
Proof.
  refine (comments_are_listed_with_their_authors None 1
            (Video.mk 1 "abc" None "/uploads/t.png" "/uploads/v.mp4" "Action" 2
               (Some 0) (Some 0) (Some 0) (Some 10) (Some false))
            (world_of commented_db) eq_refl eq_refl eq_refl eq_refl).
Defined.

(** ** Related videos *)

Lemma category_split cur all :
  (List.length (same_category cur all) + List.length (other_category cur all))%nat
  = List.length (filter (λ x, Video.id x ≠ Video.id cur) all).
Proof.
  unfold same_category, other_category.
  induction all as [|x l IH]; [done|]. rewrite !filter_cons.
  destruct (decide (Video.id x ≠ Video.id cur)) as [Hid|Hid].
  - destruct (decide (Video.category x = Video.category cur)) as [Hc|Hc].
    + rewrite decide_True by done. rewrite decide_False by (by intros [_ ?]).
      simpl. by rewrite IH.
    + rewrite decide_False by (by intros [_ ?]). rewrite decide_True by done.
      simpl. rewrite <- IH. lia.
  - rewrite decide_False by (by intros [? _]).
    rewrite decide_False by (by intros [? _]). done.
Qed.

(** X26.  The related videos shown on the video page.  The current video
    is never among them, and each is one of the videos given.  For a
    limit [n] that is not negative they are the first [n] of the videos of
    the same category followed by the videos of the other categories, in
    the order given, all of them if there are fewer; if the category has
    [n] videos, all are of this category.  A negative limit gives videos
    of the same category only, without the last [-n] of them; a limit
    that is not a number gives none. *)
Theorem related_videos (cur : Video.t) (all : list Video.t) (n : Z) :
  let related := getRelatedVideos cur all (Int n) in
  Forall (λ x, x ∈ all ∧ Video.id x ≠ Video.id cur) related
  ∧ (0 <= n →
     related = take (Z.to_nat n) (same_category cur all ++ other_category cur all)
     ∧ List.length related
       = (Z.to_nat n `min` List.length (filter (λ x, Video.id x ≠ Video.id cur) all))%nat
     ∧ ((Z.to_nat n <= List.length (same_category cur all))%nat →
        Forall (λ x, Video.category x = Video.category cur) related))
  ∧ (n < 0 →
     related = take (List.length (same_category cur all) - Z.to_nat (- n))
                 (same_category cur all))
  ∧ getRelatedVideos cur all NaN = [].
Proof.
  intros related. subst related. unfold getRelatedVideos.
  fold (same_category cur all). fold (other_category cur all).
  split; [|split; [|split; [|done]]].
  - assert (Forall (λ x, x ∈ all ∧ Video.id x ≠ Video.id cur)
              (same_category cur all ++ other_category cur all)) as Hall.
    { apply Forall_app. split; apply Forall_forall; intros x Hx;
        apply list_elem_of_filter in Hx as [[? ?] ?]; done. }
    apply Forall_app in Hall as Hboth. destruct Hboth as [Hsame _].
    unfold length_ge, slice_to.
    destruct (n <=? _); destruct (n <? 0); by apply Forall_take.
  - intros Hn. unfold length_ge, slice_to.
    rewrite (proj2 (Z.ltb_ge n 0) Hn).
    assert ((if n <=? Z.of_nat (List.length (same_category cur all))
             then take (Z.to_nat n) (same_category cur all)
             else take (Z.to_nat n) (same_category cur all ++ other_category cur all))
            = take (Z.to_nat n) (same_category cur all ++ other_category cur all))
      as ->.
    { destruct (n <=? _) eqn:Hle; [|done]. apply Z.leb_le in Hle.
      rewrite take_app_le by lia. done. }
    split; [done|]. split.
    + rewrite length_take, length_app. by rewrite category_split.
    + intros Hle. rewrite take_app_le by done. apply Forall_take.
      apply Forall_forall. intros x Hx.
      by apply list_elem_of_filter in Hx as [[? ?] ?].
  - intros Hn. unfold length_ge, slice_to.
    rewrite (proj2 (Z.leb_le n _)) by lia.
    by rewrite (proj2 (Z.ltb_lt n 0) Hn).
Qed.

Lemma related_videos_witness :
  getRelatedVideos
    (Video.mk 1 "abc" None "t" "v" "Action" 2 None None None None None)
    [Video.mk 2 "def" None "t" "v" "Action" 2 None None None None None] (Int 10)
  = take (Z.to_nat 10)
      (same_category
         (Video.mk 1 "abc" None "t" "v" "Action" 2 None None None None None)
         [Video.mk 2 "def" None "t" "v" "Action" 2 None None None None None]
       ++ other_category
            (Video.mk 1 "abc" None "t" "v" "Action" 2 None None None None None)
            [Video.mk 2 "def" None "t" "v" "Action" 2 None None None None None])%list.
Proof.
  refine (proj1 (proj1 (proj2 (related_videos
            (Video.mk 1 "abc" None "t" "v" "Action" 2 None None None None None)
            [Video.mk 2 "def" None "t" "v" "Action" 2 None None None None None] 10))
            _)).
  done.
Defined.

(** ** Runs on the sample data *)

(** The lookup, [begin] and the insert succeed, the update of the counter
    fails: the inserted row is rolled back with it. *)
Example like_undone_when_the_update_fails :
  let out := likeVideo (Int 7) (Int 1)
               (set_script [false; false; false; true] (world_of one_video_db)) in
  fst out = Throw (DbError "connection failure")
  ∧ db (snd out) = one_video_db.
Proof. vm_compute. split; reflexivity. Qed.

(** The counter cannot grow: the server refuses the update, and the row
    is rolled back. *)
Example like_undone_when_the_counter_is_full :
  let out := likeVideo (Int 7) (Int 1) (world_of full_counter_db) in
  fst out = Throw (DbError "integer out of range")
  ∧ db (snd out) = full_counter_db.
Proof. vm_compute. split; reflexivity. Qed.

(** A like and then an unlike: the table is empty again and the counter
    back at 0. *)
Example like_then_unlike :
  let liked_world := snd (likeVideo (Int 7) (Int 1) (world_of one_video_db)) in
  let out := unlikeVideo (Int 7) (Int 1) (set_script [] liked_world) in
  map Video.likes (videos (db liked_world)) = [Some 1]
  ∧ fst out = Ok true
  ∧ db (snd out) = one_video_db.
Proof. vm_compute. repeat split. Qed.

(** The uploader, who is not the administrator, deletes the video. *)
Example uploader_deletes_own_video :
  let out := handle (Some uploader) (DELETE_video (Int 1)) stocked_world in
  fst out = Ok (json JSuccess)
  ∧ videos (db (snd out)) = []
  ∧ disk (snd out) = ∅.
Proof. vm_compute. repeat split. Qed.

(** An id that is not a number reaches the database, which refuses it. *)
Example fetching_video_NaN :
  fst (handle None (GET_video NaN) stocked_world)
  = Ok (status_json 500 (JMessage "Failed to fetch video")).
Proof. reflexivity. Qed.

(** Without a session the like route answers 401 and sends nothing. *)
Example like_without_session :
  handle None (POST_likes (Int 1)) stocked_world
  = (Ok (status_json 401 (JMessage "Authentication required")), stocked_world).
Proof. reflexivity. Qed.
